(** * The toolbox control panel (toolbox/ui.py): session state of class [UI]

    A shallow embedding of the class [UI] of [toolbox/ui.py].  The object's
    attributes form the state record [UI]; every method is a computation in
    a small state-and-exception monad that also records, in order, the calls
    made to the external collaborators (event loop, canvases, audio driver,
    sound file library, UMAP, stderr). *)

From Stdlib Require Import ZArith QArith List String Ascii Bool Lia.
From stdpp Require Import base decidable option list list_numbers strings
  functions pretty gmap.

Local Open Scope string_scope.
Local Open Scope list_scope.
Local Open Scope Z_scope.

(** ** Python strings, indices and slices *)

Definition py_len (s : string) : Z := Z.of_nat (String.length s).

Fixpoint str_take (n : nat) (s : string) : string :=
  match n, s with
  | S n', String c s' => String c (str_take n' s')
  | _, _ => EmptyString
  end.

Fixpoint str_drop (n : nat) (s : string) : string :=
  match n, s with
  | S n', String _ s' => str_drop n' s'
  | _, _ => s
  end.

(** Bound of a slice: a negative bound counts from the end, and both ends
    are clamped to [0, len]. *)
Definition py_slice_bound (len i : Z) : Z :=
  if i <? 0 then Z.max 0 (len + i) else Z.min i len.

(** [s[lo:hi]]; [hi = None] is the open slice [s[lo:]]. *)
Definition py_slice (lo : Z) (hi : option Z) (s : string) : string :=
  let len := py_len s in
  let a := py_slice_bound len lo in
  let b := match hi with Some h => py_slice_bound len h | None => len end in
  str_take (Z.to_nat (b - a)) (str_drop (Z.to_nat a) s).

(** Subscript normalisation of [l[i]]: [None] stands for IndexError. *)
Definition py_index (len i : Z) : option nat :=
  let j := if i <? 0 then i + len else i in
  if (0 <=? j) && (j <? len) then Some (Z.to_nat j) else None.

(** [sub in s] *)
Fixpoint py_in (sub s : string) : bool :=
  String.prefix sub s ||
  match s with
  | EmptyString => false
  | String _ s' => py_in sub s'
  end.

Definition newline : string := String "010"%char EmptyString.
Definition tab : string := String "009"%char EmptyString.

(** [range(n)] *)
Definition py_range (n : Z) : list Z := seqZ 0 n.

(** [int(np.ceil(np.sqrt(n)))] for a length [n]. *)
Definition ceil_sqrt (n : Z) : Z :=
  let r := Z.sqrt n in if r * r =? n then r else r + 1.

(** [np.unique] on a list of strings: sorted, without repetition. *)
Fixpoint unique_insert (x : string) (l : list string) : list string :=
  match l with
  | [] => [x]
  | y :: l' =>
      match String.compare x y with
      | Lt => x :: y :: l'
      | Eq => y :: l'
      | Gt => y :: unique_insert x l'
      end
  end.

Definition np_unique (l : list string) : list string :=
  foldr unique_insert [] l.

(** ** Exceptions *)

Inductive exn :=
| IndexError
| AttributeError
| KeyError
| ZeroDivisionError
| TypeError
| Exception (msg : string).

Inductive outcome (A : Type) :=
| Ret (a : A)
| Raise (e : exn).
Arguments Ret {A} a.
Arguments Raise {A} e.

(** ** Class constants *)

Definition min_umap_points : Z := 4.
Definition max_log_lines : Z := 5.
Definition max_log_width : Z := 100.
Definition max_saved_utterances : Z := 20.

(** Rows of the module-level [colormap]; each row is divided by 255. *)
Definition rgb : Type := Q * Q * Q.

Definition colormap_rows : list (Z * Z * Z) :=
  [ (0, 127, 70); (255, 0, 0); (255, 217, 38); (0, 135, 255);
    (165, 0, 165); (255, 167, 255); (97, 142, 151); (0, 255, 255);
    (255, 96, 38); (142, 76, 0); (33, 0, 127); (0, 0, 0);
    (183, 183, 183); (76, 255, 0) ].

Definition colormap : list rgb :=
  map (fun '(r, g, b) => (r # 255, g # 255, b # 255)%Q) colormap_rows.

Definition default_text : string :=
  "I visited museums and sat in public gardens".

Definition first_time_msg : string :=
  "Drawing UMAP projections for the first time, this will take a few seconds.".

(** ** External collaborators

    The types and pure operations the module takes from pathlib, numpy and
    the encoder package.  The partial operations of pathlib are taken on
    their domain: every path handed to [relative_to] was built by
    [joinpath] or [glob] from the base it is made relative to. *)

Record Env := {
  Path : Type;
  Spec : Type;        (* mel spectrogram matrix *)
  Embed : Type;       (* embedding vector *)
  Wav : Type;         (* audio samples *)
  Coord : Type;       (* a coordinate of a projected point *)
  path_of_str : string -> Path;              (* Path(s) *)
  path_str : Path -> string;                 (* str(p) *)
  joinpath : Path -> list string -> Path;    (* p.joinpath( *names ) *)
  relative_to : Path -> Path -> Path;        (* p.relative_to(base) *)
  path_name : Path -> string;                (* p.name *)
  path_stem : Path -> string;                (* p.stem *)
  path_suffix : Path -> string;              (* p.suffix *)
  path_parent : Path -> Path;                (* p.parent *)
}.

(** ** Qt widgets

    Each widget keeps what the methods of [UI] set and read back. *)

Record QPushButton := {
  btn_text : string;
  btn_disabled : bool;
}.

Record QCheckBox := {
  chk_checked : bool;
  chk_disabled : bool;
}.

Record QLineEdit := {
  le_text : string;
  le_enabled : bool;
}.

Record QProgressBar := {
  pb_minimum : Z;
  pb_maximum : Z;
  pb_value : Z;
  pb_text_visible : bool;
}.

(** [setValue]: a value outside the range is ignored unless the range is
    the undetermined one (0, 0). *)
Definition pb_setValue (v : Z) (p : QProgressBar) : QProgressBar :=
  if (v =? pb_value p)
     || (((pb_maximum p <? v) || (v <? pb_minimum p))
         && (negb (pb_maximum p =? 0) || negb (pb_minimum p =? 0)))
  then p
  else {| pb_minimum := pb_minimum p; pb_maximum := pb_maximum p;
          pb_value := v; pb_text_visible := pb_text_visible p |}.

(** [setMaximum(m)] is [setRange(qMin(minimum, m), m)]: a maximum below
    the minimum lowers the minimum with it, and a value that falls outside
    the new range is reset to one below the minimum. *)
Definition pb_setMaximum (m : Z) (p : QProgressBar) : QProgressBar :=
  let mn := Z.min (pb_minimum p) m in
  if (mn =? pb_minimum p) && (m =? pb_maximum p) then p
  else
    let mx := Z.max mn m in
    {| pb_minimum := mn; pb_maximum := mx;
       pb_value := if (pb_value p <? mn - 1) || (mx <? pb_value p)
                   then mn - 1 else pb_value p;
       pb_text_visible := pb_text_visible p |}.

Definition pb_setTextVisible (b : bool) (p : QProgressBar) : QProgressBar :=
  {| pb_minimum := pb_minimum p; pb_maximum := pb_maximum p;
     pb_value := pb_value p; pb_text_visible := b |}.

(** A combo box: its rows (display text and user data; [None] is the
    absent or [None] user data), the current row (-1 when there is none),
    and the two flags the module sets. *)
Record QComboBox (D : Type) := {
  cb_items : list (string * option D);
  cb_current : Z;
  cb_disabled : bool;
  cb_signals_blocked : bool;
}.
Arguments cb_items {D} _.
Arguments cb_current {D} _.
Arguments cb_disabled {D} _.
Arguments cb_signals_blocked {D} _.

Section ComboBox.
Context {D : Type}.
Implicit Type b : QComboBox D.

Definition cb_with (items : list (string * option D)) (cur : Z) b
  : QComboBox D :=
  {| cb_items := items; cb_current := cur;
     cb_disabled := cb_disabled b;
     cb_signals_blocked := cb_signals_blocked b |}.

(** [len(box)], [box.count()] *)
Definition cb_count b : Z := Z.of_nat (length (cb_items b)).

Definition cb_clear b : QComboBox D := cb_with [] (-1) b.

(** [insertItem]: the row index is clamped to [0, count]; the first row
    put into an empty box becomes current; the current row otherwise
    keeps pointing at the same item. *)
Definition cb_insertItem (index : Z) (text : string) (data : option D) b
  : QComboBox D :=
  let i := Z.max 0 (Z.min index (cb_count b)) in
  let items := take (Z.to_nat i) (cb_items b) ++ (text, data)
                 :: drop (Z.to_nat i) (cb_items b) in
  let cur :=
    if cb_current b <? 0 then (if cb_count b =? 0 then 0 else cb_current b)
    else if i <=? cb_current b then cb_current b + 1
    else cb_current b in
  cb_with items cur b.

Definition cb_addItem (text : string) (data : option D) b : QComboBox D :=
  cb_insertItem (cb_count b) text data b.

(** [removeItem]: nothing happens out of range; when the current row is
    the one removed, the row that takes its place (or the last one)
    becomes current. *)
Definition cb_removeItem (index : Z) b : QComboBox D :=
  if (0 <=? index) && (index <? cb_count b) then
    let items := delete (Z.to_nat index) (cb_items b) in
    let n := Z.of_nat (length items) in
    let cur :=
      if cb_current b <? 0 then cb_current b
      else if index <? cb_current b then cb_current b - 1
      else if index =? cb_current b then
        (if n =? 0 then -1 else Z.min (n - 1) (Z.max (cb_current b) 0))
      else cb_current b in
    cb_with items cur b
  else b.

Definition cb_setCurrentIndex (index : Z) b : QComboBox D :=
  cb_with (cb_items b)
    (if (0 <=? index) && (index <? cb_count b) then index else -1) b.

Definition cb_currentIndex b : Z := cb_current b.

(** [itemData(index)]; [None] out of range. *)
Definition cb_itemData (index : Z) b : option D :=
  if 0 <=? index then
    match cb_items b !! Z.to_nat index with
    | Some (_, d) => d
    | None => None
    end
  else None.

(** [currentText()]; empty when there is no current row. *)
Definition cb_currentText b : string :=
  if 0 <=? cb_current b then
    match cb_items b !! Z.to_nat (cb_current b) with
    | Some (t, _) => t
    | None => ""
    end
  else "".

Definition cb_setDisabled (v : bool) b : QComboBox D :=
  {| cb_items := cb_items b; cb_current := cb_current b;
     cb_disabled := v; cb_signals_blocked := cb_signals_blocked b |}.

Definition cb_blockSignals (v : bool) b : QComboBox D :=
  {| cb_items := cb_items b; cb_current := cb_current b;
     cb_disabled := cb_disabled b; cb_signals_blocked := v |}.
End ComboBox.

(** The attributes of [UI] that hold widgets, by kind. *)
Inductive button :=
| clear_button | browser_load_button | random_dataset_button
| random_speaker_button | random_utterance_button | browser_browse_button
| record_button | play_button | stop_button | replay_wav_button
| export_wav_button | generate_button | synthesize_button | vocode_button.

Inductive checkbox :=
| auto_next_checkbox | random_seed_checkbox | trim_silences_checkbox
| griffin_lim_checkbox.

Inductive combo :=
| dataset_box | speaker_box | utterance_box | utterance_history
| speaker_encoder_box | emotion_encoder_box | synthesizer_box | vocoder_box
| audio_out_devices_cb.

(** The three figures and their axes: [umap_ax] has two axes,
    [current_ax] and [gen_ax] three each. *)
Inductive figure := umap_fig | wav_ori_fig | wav_gen_fig.

Inductive axes_id :=
| speaker_umap_ax | emotion_umap_ax
| current_speaker_embed_ax | current_emotion_embed_ax | current_spec_ax
| gen_speaker_embed_ax | gen_emotion_embed_ax | gen_spec_ax.

Definition figure_of (a : axes_id) : figure :=
  match a with
  | speaker_umap_ax | emotion_umap_ax => umap_fig
  | current_speaker_embed_ax | current_emotion_embed_ax | current_spec_ax =>
      wav_ori_fig
  | gen_speaker_embed_ax | gen_emotion_embed_ax | gen_spec_ax => wav_gen_fig
  end.

#[global] Instance button_eq_dec : EqDecision button.
Proof. solve_decision. Defined.
#[global] Instance checkbox_eq_dec : EqDecision checkbox.
Proof. solve_decision. Defined.
#[global] Instance combo_eq_dec : EqDecision combo.
Proof. solve_decision. Defined.
#[global] Instance figure_eq_dec : EqDecision figure.
Proof. solve_decision. Defined.
#[global] Instance axes_id_eq_dec : EqDecision axes_id.
Proof. solve_decision. Defined.

Section Model.
Context {E : Env}.

(** Modelled from the spec: the class [Utterance] of
    [toolbox/utterance.py], which is not part of this file.  An utterance
    is identified by name and carries a speaker label, a spectrogram
    matrix, a speaker-embedding vector and an optional emotion-embedding
    vector. *)
Record Utterance := {
  name : string;
  speaker_name : string;
  spec : Spec E;
  speaker_embed : Embed E;
  emotion_embed : option (Embed E);
}.

(** The user data attached to combo box rows. *)
Inductive pyobj :=
| PyPath (p : Path E)
| PyUtterance (u : Utterance).

(** The items handed to [repopulate_box]: a bare string, a bare path, or
    an (item, data) pair. *)
Inductive item :=
| ItemStr (s : string)
| ItemPath (p : Path E)
| ItemPair (s : string) (data : option (Path E)).

(** [str(item[0])] *)
Definition item_text (it : item) : string :=
  match it with
  | ItemStr s => s
  | ItemPath p => path_str E p
  | ItemPair s _ => s
  end.

(** [*item[1:]] *)
Definition item_data (it : item) : option pyobj :=
  match it with
  | ItemPair _ (Some p) => Some (PyPath p)
  | _ => None
  end.

(** *** Matplotlib axes *)

Inductive pixels :=
| PxSpec (m : Spec E)
| PxEmbed (e : Embed E).

Record AxesImage := {
  im_data : pixels;
  im_colorbar : bool;       (* [image.colorbar is not None] *)
}.

Record TextArtist := {
  tx_x : Q;
  tx_y : Q;
  tx_s : string;
  tx_horizontalalignment : string;
  tx_fontsize : Z;
}.

Record Scatter := {
  sc_x : Coord E;
  sc_y : Coord E;
  sc_c : rgb;
  sc_marker : string;
}.

Record Axes := {
  ax_title : string;
  ax_images : list AxesImage;
  ax_texts : list TextArtist;
  ax_scatters : list Scatter;
  ax_aspect : string;
  ax_adjustable : string;
  ax_xticks : option (list Z);    (* [None]: automatic ticks *)
  ax_yticks : option (list Z);
}.

Definition ax_fresh : Axes :=
  {| ax_title := ""; ax_images := []; ax_texts := []; ax_scatters := [];
     ax_aspect := "auto"; ax_adjustable := "box";
     ax_xticks := None; ax_yticks := None |}.

(** [ax.clear()]: artists, title and ticks go; the aspect stays. *)
Definition ax_clear (a : Axes) : Axes :=
  {| ax_title := ""; ax_images := []; ax_texts := []; ax_scatters := [];
     ax_aspect := ax_aspect a; ax_adjustable := ax_adjustable a;
     ax_xticks := None; ax_yticks := None |}.

Definition ax_set_title (t : string) (a : Axes) : Axes :=
  {| ax_title := t; ax_images := ax_images a; ax_texts := ax_texts a;
     ax_scatters := ax_scatters a; ax_aspect := ax_aspect a;
     ax_adjustable := ax_adjustable a;
     ax_xticks := ax_xticks a; ax_yticks := ax_yticks a |}.

Definition ax_set_images (l : list AxesImage) (a : Axes) : Axes :=
  {| ax_title := ax_title a; ax_images := l; ax_texts := ax_texts a;
     ax_scatters := ax_scatters a; ax_aspect := ax_aspect a;
     ax_adjustable := ax_adjustable a;
     ax_xticks := ax_xticks a; ax_yticks := ax_yticks a |}.

Definition ax_text (t : TextArtist) (a : Axes) : Axes :=
  {| ax_title := ax_title a; ax_images := ax_images a;
     ax_texts := ax_texts a ++ [t];
     ax_scatters := ax_scatters a; ax_aspect := ax_aspect a;
     ax_adjustable := ax_adjustable a;
     ax_xticks := ax_xticks a; ax_yticks := ax_yticks a |}.

Definition ax_scatter (p : Scatter) (a : Axes) : Axes :=
  {| ax_title := ax_title a; ax_images := ax_images a;
     ax_texts := ax_texts a; ax_scatters := ax_scatters a ++ [p];
     ax_aspect := ax_aspect a; ax_adjustable := ax_adjustable a;
     ax_xticks := ax_xticks a; ax_yticks := ax_yticks a |}.

(** [ax.set_aspect(aspect, adjustable)] *)
Definition ax_set_aspect (aspect adjustable : string) (a : Axes) : Axes :=
  {| ax_title := ax_title a; ax_images := ax_images a;
     ax_texts := ax_texts a; ax_scatters := ax_scatters a;
     ax_aspect := aspect; ax_adjustable := adjustable;
     ax_xticks := ax_xticks a; ax_yticks := ax_yticks a |}.

Definition ax_set_xticks (t : list Z) (a : Axes) : Axes :=
  {| ax_title := ax_title a; ax_images := ax_images a;
     ax_texts := ax_texts a; ax_scatters := ax_scatters a;
     ax_aspect := ax_aspect a; ax_adjustable := ax_adjustable a;
     ax_xticks := Some t; ax_yticks := ax_yticks a |}.

Definition ax_set_yticks (t : list Z) (a : Axes) : Axes :=
  {| ax_title := ax_title a; ax_images := ax_images a;
     ax_texts := ax_texts a; ax_scatters := ax_scatters a;
     ax_aspect := ax_aspect a; ax_adjustable := ax_adjustable a;
     ax_xticks := ax_xticks a; ax_yticks := Some t |}.

(** [ax.imshow(spec, aspect="auto", interpolation="none")] *)
Definition ax_imshow (m : Spec E) (a : Axes) : Axes :=
  {| ax_title := ax_title a;
     ax_images := ax_images a
                  ++ [{| im_data := PxSpec m; im_colorbar := false |}];
     ax_texts := ax_texts a; ax_scatters := ax_scatters a;
     ax_aspect := "auto"; ax_adjustable := ax_adjustable a;
     ax_xticks := ax_xticks a; ax_yticks := ax_yticks a |}.

(** *** The state of a [UI] object *)

Record UI := {
  umap_hot : bool;
  logs : list string;
  log_window : string;                      (* text of the QLabel *)
  loading_bar : QProgressBar;
  seed_textbox : QLineEdit;
  audio_in_device : option (option string); (* outer [None]: not set yet *)
  buttons : button -> QPushButton;
  checkboxes : checkbox -> QCheckBox;
  combos : combo -> QComboBox pyobj;
  axes : axes_id -> Axes;
  suptitle : figure -> string;
}.

Definition set_umap_hot (v : bool) (s : UI) : UI :=
  {| umap_hot := v; logs := logs s; log_window := log_window s;
     loading_bar := loading_bar s; seed_textbox := seed_textbox s;
     audio_in_device := audio_in_device s; buttons := buttons s;
     checkboxes := checkboxes s; combos := combos s; axes := axes s;
     suptitle := suptitle s |}.

Definition set_logs (v : list string) (s : UI) : UI :=
  {| umap_hot := umap_hot s; logs := v; log_window := log_window s;
     loading_bar := loading_bar s; seed_textbox := seed_textbox s;
     audio_in_device := audio_in_device s; buttons := buttons s;
     checkboxes := checkboxes s; combos := combos s; axes := axes s;
     suptitle := suptitle s |}.

Definition set_log_window (v : string) (s : UI) : UI :=
  {| umap_hot := umap_hot s; logs := logs s; log_window := v;
     loading_bar := loading_bar s; seed_textbox := seed_textbox s;
     audio_in_device := audio_in_device s; buttons := buttons s;
     checkboxes := checkboxes s; combos := combos s; axes := axes s;
     suptitle := suptitle s |}.

Definition set_loading_bar (v : QProgressBar) (s : UI) : UI :=
  {| umap_hot := umap_hot s; logs := logs s; log_window := log_window s;
     loading_bar := v; seed_textbox := seed_textbox s;
     audio_in_device := audio_in_device s; buttons := buttons s;
     checkboxes := checkboxes s; combos := combos s; axes := axes s;
     suptitle := suptitle s |}.

Definition set_seed_textbox (v : QLineEdit) (s : UI) : UI :=
  {| umap_hot := umap_hot s; logs := logs s; log_window := log_window s;
     loading_bar := loading_bar s; seed_textbox := v;
     audio_in_device := audio_in_device s; buttons := buttons s;
     checkboxes := checkboxes s; combos := combos s; axes := axes s;
     suptitle := suptitle s |}.

Definition set_audio_in_device (v : option string) (s : UI) : UI :=
  {| umap_hot := umap_hot s; logs := logs s; log_window := log_window s;
     loading_bar := loading_bar s; seed_textbox := seed_textbox s;
     audio_in_device := Some v; buttons := buttons s;
     checkboxes := checkboxes s; combos := combos s; axes := axes s;
     suptitle := suptitle s |}.

Definition set_button (k : button) (v : QPushButton) (s : UI) : UI :=
  {| umap_hot := umap_hot s; logs := logs s; log_window := log_window s;
     loading_bar := loading_bar s; seed_textbox := seed_textbox s;
     audio_in_device := audio_in_device s;
     buttons := <[k := v]> (buttons s);
     checkboxes := checkboxes s; combos := combos s; axes := axes s;
     suptitle := suptitle s |}.

Definition set_checkbox (k : checkbox) (v : QCheckBox) (s : UI) : UI :=
  {| umap_hot := umap_hot s; logs := logs s; log_window := log_window s;
     loading_bar := loading_bar s; seed_textbox := seed_textbox s;
     audio_in_device := audio_in_device s; buttons := buttons s;
     checkboxes := <[k := v]> (checkboxes s);
     combos := combos s; axes := axes s; suptitle := suptitle s |}.

Definition set_combo (k : combo) (v : QComboBox pyobj) (s : UI) : UI :=
  {| umap_hot := umap_hot s; logs := logs s; log_window := log_window s;
     loading_bar := loading_bar s; seed_textbox := seed_textbox s;
     audio_in_device := audio_in_device s; buttons := buttons s;
     checkboxes := checkboxes s;
     combos := <[k := v]> (combos s);
     axes := axes s; suptitle := suptitle s |}.

Definition set_axes (k : axes_id) (v : Axes) (s : UI) : UI :=
  {| umap_hot := umap_hot s; logs := logs s; log_window := log_window s;
     loading_bar := loading_bar s; seed_textbox := seed_textbox s;
     audio_in_device := audio_in_device s; buttons := buttons s;
     checkboxes := checkboxes s; combos := combos s;
     axes := <[k := v]> (axes s);
     suptitle := suptitle s |}.

Definition set_suptitle (k : figure) (v : string) (s : UI) : UI :=
  {| umap_hot := umap_hot s; logs := logs s; log_window := log_window s;
     loading_bar := loading_bar s; seed_textbox := seed_textbox s;
     audio_in_device := audio_in_device s; buttons := buttons s;
     checkboxes := checkboxes s; combos := combos s; axes := axes s;
     suptitle := <[k := v]> (suptitle s) |}.

(** *** What the outside world answers during one call

    The file system, the random generator, the dialogs, the audio driver
    and the two library functions the module calls as black boxes. *)

Record AudioDevice := {
  dev_name : string;
  dev_input_ok : bool;                  (* check_input_settings passes *)
  dev_output_error : option string;     (* check_output_settings raises *)
}.

Record World := {
  fs_exists : Path E -> bool;                       (* p.exists() *)
  fs_is_dir : Path E -> bool;                       (* p.is_dir() *)
  fs_glob : Path E -> string -> list (Path E);      (* p.glob(pattern) *)
  np_randint : combo -> Z -> Z;    (* np.random.randint(n), per box *)
  save_file_name : string;         (* getSaveFileName(...)[0] *)
  sf_write :                       (* the error sf.write raises, if any *)
    string -> Wav E -> Z -> option exn;
  open_file_name : string;         (* getOpenFileName(...)[0] *)
  umap_fit_transform :             (* umap.UMAP(n, ...).fit_transform *)
    Z -> list (option (Embed E)) -> outcome (list (Coord E * Coord E));
  plot_embedding_as_heatmap :      (* speaker_encoder.inference *)
    Embed E -> option (Z * Z) -> Axes -> Axes;
  sd_query_devices : list AudioDevice;
  sd_stop : option string;         (* the error sd.stop() raises, if any *)
  sd_play : option string;
  sd_rec : string + Wav E;
  sd_wait : option string;
  wav_squeeze : Wav E -> Wav E;
  bar_percent : Z -> option Z;
    (* what [setValue] makes of the float (k * 0.1) * 100: the integer it
       is converted to, or [None] where it is refused with TypeError *)
}.

(** The calls a method makes on its collaborators, in order.  [EvLog]
    marks each call of [UI.log]. *)
Inductive event :=
| EvLog (line mode : string)
| EvProcessEvents
| EvCanvasDraw (f : figure)
| EvUmapFit (n_neighbors : Z) (embeds : list (option (Embed E)))
| EvSfWrite (fpath : string) (wav : Wav E) (sample_rate : Z)
| EvStderr (msg : string)
| EvStdout (msg : string)
| EvSdStop
| EvSdPlay (wav : Wav E) (sample_rate : Z)
| EvSdRec (frames sample_rate channels : Z)
| EvSdWait
| EvSdDefaultDevice (input output : option string)
| EvSleep
| EvShow.

(** *** The monad: state, exceptions, trace *)

Record Res (A : Type) := mkRes {
  out : outcome A;
  st : UI;
  tr : list event;
}.
Arguments mkRes {A} _ _ _.
Arguments out {A} _.
Arguments st {A} _.
Arguments tr {A} _.

Definition M (A : Type) : Type := UI -> Res A.

Definition ret {A} (a : A) : M A := fun s => mkRes (Ret a) s [].

Definition bind {A B} (m : M A) (f : A -> M B) : M B :=
  fun s =>
    let r := m s in
    match out r with
    | Ret a => let r' := f a (st r) in mkRes (out r') (st r') (tr r ++ tr r')
    | Raise e => mkRes (Raise e) (st r) (tr r)
    end.

Definition raise {A} (e : exn) : M A := fun s => mkRes (Raise e) s [].
Definition gets {A} (f : UI -> A) : M A := fun s => mkRes (Ret (f s)) s [].
Definition modify (f : UI -> UI) : M unit := fun s => mkRes (Ret tt) (f s) [].
Definition emit (e : event) : M unit := fun s => mkRes (Ret tt) s [e].

#[local] Instance M_ret : MRet M := @ret.
#[local] Instance M_bind : MBind M := fun A B f m => bind m f.

(** [for x in l: body(x)] *)
Fixpoint for_each {A} (l : list A) (body : A -> M unit) : M unit :=
  match l with
  | [] => ret tt
  | x :: l' => bind (body x) (fun _ => for_each l' body)
  end.

Definition when (c : bool) (m : M unit) : M unit :=
  if c then m else ret tt.

(** [try: m except Exception as e: handler(e)] *)
Definition try_except {A} (m : M A) (handler : exn -> M A) : M A :=
  fun s =>
    let r := m s in
    match out r with
    | Ret a => r
    | Raise e =>
        let r' := handler e (st r) in
        mkRes (out r') (st r') (tr r ++ tr r')
    end.

(** A call on a collaborator that may raise. *)
Definition call (ev : event) (err : option string) : M unit :=
  emit ev;;
  match err with
  | Some msg => raise (Exception msg)
  | None => ret tt
  end.

(** Attribute-level helpers: [self.x.method(...)] replaces the widget
    held by attribute [x] with the widget after the call. *)
Definition upd_button (k : button) (f : QPushButton -> QPushButton)
    (s : UI) : UI := set_button k (f (buttons s k)) s.
Definition upd_checkbox (k : checkbox) (f : QCheckBox -> QCheckBox)
    (s : UI) : UI := set_checkbox k (f (checkboxes s k)) s.
Definition upd_combo (k : combo) (f : QComboBox pyobj -> QComboBox pyobj)
    (s : UI) : UI := set_combo k (f (combos s k)) s.
Definition upd_axes (k : axes_id) (f : Axes -> Axes) (s : UI) : UI :=
  set_axes k (f (axes s k)) s.
Definition upd_loading_bar (f : QProgressBar -> QProgressBar) (s : UI)
  : UI := set_loading_bar (f (loading_bar s)) s.
Definition upd_seed_textbox (f : QLineEdit -> QLineEdit) (s : UI) : UI :=
  set_seed_textbox (f (seed_textbox s)) s.

Definition modify_button (k : button) (f : QPushButton -> QPushButton)
  : M unit := modify (upd_button k f).
Definition modify_checkbox (k : checkbox) (f : QCheckBox -> QCheckBox)
  : M unit := modify (upd_checkbox k f).
Definition modify_combo (k : combo)
    (f : QComboBox pyobj -> QComboBox pyobj) : M unit :=
  modify (upd_combo k f).
Definition modify_axes (k : axes_id) (f : Axes -> Axes) : M unit :=
  modify (upd_axes k f).

Definition btn_setDisabled (v : bool) (b : QPushButton) : QPushButton :=
  {| btn_text := btn_text b; btn_disabled := v |}.
Definition btn_setText (t : string) (b : QPushButton) : QPushButton :=
  {| btn_text := t; btn_disabled := btn_disabled b |}.
Definition chk_setChecked (v : bool) (c : QCheckBox) : QCheckBox :=
  {| chk_checked := v; chk_disabled := chk_disabled c |}.
Definition chk_setDisabled (v : bool) (c : QCheckBox) : QCheckBox :=
  {| chk_checked := chk_checked c; chk_disabled := v |}.
Definition le_setText (t : string) (l : QLineEdit) : QLineEdit :=
  {| le_text := t; le_enabled := le_enabled l |}.
Definition le_setEnabled (v : bool) (l : QLineEdit) : QLineEdit :=
  {| le_text := le_text l; le_enabled := v |}.

(** [ax.figure.canvas.draw()] *)
Definition canvas_draw (a : axes_id) : M unit :=
  emit (EvCanvasDraw (figure_of a)).

(** *** [log] and [set_loading] *)

Definition logs_append (x : string) : M unit :=
  modify (fun s => set_logs (logs s ++ [x]) s).

(** [if len(self.logs) > self.max_log_lines: del self.logs[0]] *)
Definition logs_evict : M unit :=
  n ← gets (fun s => Z.of_nat (length (logs s)));
  when (max_log_lines <? n)
       (modify (fun s => set_logs (delete 0%nat (logs s)) s)).

Definition log (line : string) (mode : string) : M unit :=
  emit (EvLog line mode);;
  (if String.eqb mode "newline" then
     (if max_log_width <? py_len line then
        let num_lines := py_len line / max_log_width in
        let res := py_len line
                   - (py_len line / max_log_width) * max_log_width in
        for_each (py_range num_lines) (fun l =>
          logs_append (py_slice (l * max_log_width)
                                (Some ((l + 1) * max_log_width)) line);;
          logs_evict);;
        logs_append (py_slice (- res - 1) None line)
      else
        logs_append line);;
     logs_evict
   else if String.eqb mode "append" then
     ls ← gets logs;
     match py_index (Z.of_nat (length ls)) (-1) with
     | Some i =>
         match ls !! i with
         | Some last => modify (set_logs (<[i := last +:+ line]> ls))
         | None => raise IndexError
         end
     | None => raise IndexError
     end
   else if String.eqb mode "overwrite" then
     ls ← gets logs;
     match py_index (Z.of_nat (length ls)) (-1) with
     | Some i => modify (set_logs (<[i := line]> ls))
     | None => raise IndexError
     end
   else ret tt);;
  log_text ← gets (fun s => String.concat newline (logs s));
  modify (set_log_window log_text);;
  emit EvProcessEvents.

(** The range of a C int, in which Qt takes the arguments of [setValue]
    and [setMaximum]. *)
Definition INT_MIN : Z := -2147483648.
Definition INT_MAX : Z := 2147483647.

(** The three calls on the loading bar, with the integers it receives.
    They are modelled for arguments between [INT_MIN] and [INT_MAX]; beyond
    them PyQt raises OverflowError before Qt is reached (a value or a
    maximum above 21474836 before the multiplication by 100). *)
Definition loading_bar_update (value100 maximum100 : Z) (visible : bool)
  : M unit :=
  modify (upd_loading_bar (pb_setValue value100));;
  modify (upd_loading_bar (pb_setMaximum maximum100));;
  modify (upd_loading_bar (pb_setTextVisible visible));;
  emit EvProcessEvents.

Definition set_loading (value maximum : Z) : M unit :=
  loading_bar_update (value * 100) (maximum * 100) (negb (value =? 0)).

(** *** Drawing *)

(** [self.current_ax if which == "current" else self.gen_ax] *)
Definition which_ax (which : string) : axes_id * axes_id * axes_id :=
  if String.eqb which "current"
  then (current_speaker_embed_ax, current_emotion_embed_ax, current_spec_ax)
  else (gen_speaker_embed_ax, gen_emotion_embed_ax, gen_spec_ax).

(** [if len(ax.images) > 0: ax.images[0].colorbar.remove()] *)
Definition remove_colorbar (a : axes_id) : M unit :=
  imgs ← gets (fun s => ax_images (axes s a));
  match imgs with
  | [] => ret tt
  | im :: rest =>
      if im_colorbar im
      then modify_axes a (ax_set_images
             ({| im_data := im_data im; im_colorbar := false |} :: rest))
      else raise AttributeError
  end.

(** One of the two blocks of [draw_embed]. *)
Definition draw_one_embed (w : World) (a : axes_id)
    (embed : option (Embed E)) (shape : option (Z * Z)) (title : string)
  : M unit :=
  remove_colorbar a;;
  modify_axes a ax_clear;;
  match embed with
  | Some e =>
      modify_axes a (plot_embedding_as_heatmap w e shape);;
      modify_axes a (ax_set_title title)
  | None => ret tt
  end;;
  modify_axes a (ax_set_aspect "equal" "datalim");;
  modify_axes a (ax_set_xticks []);;
  modify_axes a (ax_set_yticks []);;
  canvas_draw a.

(** [figure.suptitle("" if embed is None else name)]; a [None] title is
    drawn as the empty string. *)
Definition set_figure_title (a : axes_id) (embed : option (Embed E))
    (nm : option string) : M unit :=
  modify (set_suptitle (figure_of a)
            (match embed with None => "" | Some _ => default "" nm end)).

Definition draw_embed (w : World) (speaker_embed' emotion_embed' :
    option (Embed E)) (nm : option string) (which : string) : M unit :=
  let '(speaker_embed_ax, emotion_embed_ax, _) := which_ax which in
  set_figure_title speaker_embed_ax speaker_embed' nm;;
  set_figure_title emotion_embed_ax emotion_embed' nm;;
  draw_one_embed w speaker_embed_ax speaker_embed' None "speaker embed";;
  draw_one_embed w emotion_embed_ax emotion_embed' (Some (13, 3))
                 "emotion embed".

Definition draw_spec (spec' : option (Spec E)) (which : string) : M unit :=
  let '(_, _, spec_ax) := which_ax which in
  modify_axes spec_ax ax_clear;;
  match spec' with
  | Some m =>
      modify_axes spec_ax (ax_imshow m);;
      modify_axes spec_ax (ax_set_title "mel spectrogram")
  | None => ret tt
  end;;
  modify_axes spec_ax (ax_set_xticks []);;
  modify_axes spec_ax (ax_set_yticks []);;
  canvas_draw spec_ax;;
  when (negb (String.eqb which "current"))
       (modify_button vocode_button
          (btn_setDisabled (match spec' with None => true | _ => false end))).

Definition draw_utterance (w : World) (utterance : Utterance)
    (which : string) : M unit :=
  draw_spec (Some (spec utterance)) which;;
  draw_embed w (Some (speaker_embed utterance)) (emotion_embed utterance)
             (Some (name utterance)) which.

(** [{speaker_name: colormap[i] for i, speaker_name in
    enumerate(speakers)}]; [None] is the IndexError of [colormap[i]]. *)
Fixpoint color_dict (i : nat) (speakers : list string)
    (d : gmap string rgb) : option (gmap string rgb) :=
  match speakers with
  | [] => Some d
  | sp :: rest =>
      match colormap !! i with
      | Some c => color_dict (S i) rest (<[sp := c]> d)
      | None => None
      end
  end.

(** [[colors[u.speaker_name] for u in utterances]]; [None] is KeyError. *)
Fixpoint colors_of (d : gmap string rgb) (utterances : list Utterance)
  : option (list rgb) :=
  match utterances with
  | [] => Some []
  | u :: rest =>
      match d !! speaker_name u, colors_of d rest with
      | Some c, Some cs => Some (c :: cs)
      | _, _ => None
      end
  end.

Definition add_points_msg (missing : Z) : string :=
  "Add " +:+ pretty missing +:+ " more points to" +:+ newline
    +:+ "generate the projections".

(** One of the two blocks of [draw_umap_projections]: they differ in the
    axes, in the embedding taken from each utterance and in the title. *)
Definition draw_umap_block (w : World) (umap_ax : axes_id)
    (embed_of : Utterance -> option (Embed E)) (title : string)
    (utterances : list Utterance) : M unit :=
  modify_axes umap_ax ax_clear;;
  let speakers := np_unique (map speaker_name utterances) in
  colors ← match color_dict 0 speakers ∅ with
           | Some d => ret d
           | None => raise IndexError
           end;
  let embeds := map embed_of utterances in
  (if Z.of_nat (length utterances) <? min_umap_points then
     modify_axes umap_ax (ax_text
       {| tx_x := 1 # 2; tx_y := 1 # 2;
          tx_s := add_points_msg
                    (min_umap_points - Z.of_nat (length utterances));
          tx_horizontalalignment := "center"; tx_fontsize := 15 |})
   else
     hot ← gets umap_hot;
     when (negb hot)
          (log first_time_msg "newline";;
           modify (set_umap_hot true));;
     let n_neighbors := ceil_sqrt (Z.of_nat (length embeds)) in
     emit (EvUmapFit n_neighbors embeds);;
     projections ← match umap_fit_transform w n_neighbors embeds with
                   | Ret p => ret p
                   | Raise e => raise e
                   end;
     colors ← match colors_of colors utterances with
              | Some cs => ret cs
              | None => raise KeyError
              end;
     let markers := map (fun u => if py_in "_gen_" (name u)
                                  then "x" else "o") utterances in
     let points := zip (zip projections colors) markers in
     for_each (zip (seqZ 1 (Z.of_nat (length points))) points)
       (fun '(i, (x, y, c, m)) =>
          modify_axes umap_ax (ax_scatter
            {| sc_x := x; sc_y := y; sc_c := c; sc_marker := m |});;
          set_loading i (Z.of_nat (length projections)));;
     modify_axes umap_ax (ax_set_title title);;
     set_loading 0 1);;
  modify_axes umap_ax (ax_set_aspect "equal" "datalim");;
  modify_axes umap_ax (ax_set_xticks []);;
  modify_axes umap_ax (ax_set_yticks []);;
  canvas_draw umap_ax.

(** The set of utterances is given by the list [list(utterances)]
    enumerates. *)
Definition draw_umap_projections (w : World) (utterances : list Utterance)
  : M unit :=
  draw_umap_block w speaker_umap_ax (fun u => Some (speaker_embed u))
                  "Speaker Embedding UMAP" utterances;;
  draw_umap_block w emotion_umap_ax emotion_embed
                  "Emotion Embedding UMAP" utterances.

(** *** Audio *)

(** [sf.write] is called outside any [try]: the event records the call,
    and when the call raises (a directory that does not exist, a suffix
    the library finds no format for) the exception leaves the method and
    no file is written. *)
Definition save_audio_file (w : World) (wav : Wav E) (sample_rate : Z)
  : M unit :=
  let fpath := save_file_name w in
  if negb (String.eqb fpath "") then
    (* Default format is wav *)
    let fpath := if String.eqb (path_suffix E (path_of_str E fpath)) ""
                 then fpath +:+ ".wav" else fpath in
    emit (EvSfWrite fpath wav sample_rate);;
    match sf_write w fpath wav sample_rate with
    | Some e => raise e
    | None => ret tt
    end
  else ret tt.

Definition set_audio_device : M unit :=
  output_device ← gets (fun s => cb_currentText (combos s audio_out_devices_cb));
  let output_device := if String.eqb output_device "None"
                       then None else Some output_device in
  input ← gets audio_in_device;
  match input with
  | Some input_device => emit (EvSdDefaultDevice input_device output_device)
  | None => raise AttributeError
  end.

(** The warning for an unsupported output device is filtered out by the
    module-level [filterwarnings("ignore")].  The final
    [currentTextChanged.connect(self.set_audio_device)] changes no
    attribute and is not modelled: from the second call on, the slot
    connected by the earlier calls runs when [clear] and [addItems] change
    the current text, and those runs of [set_audio_device] (further
    assignments of [sd.default.device], or its AttributeError) are not in
    the trace given here.  The first call on a fresh interface has no slot
    connected, and the explicit [set_audio_device] at the end is
    modelled. *)
Definition setup_audio_devices (w : World) (sample_rate : Z) : M unit :=
  let input_devices :=
    map dev_name (List.filter dev_input_ok (sd_query_devices w)) in
  let output_devices :=
    map dev_name
        (List.filter (fun d => match dev_output_error d with
                               | None => true | Some _ => false end)
                     (sd_query_devices w)) in
  match input_devices with
  | [] =>
      log "No audio input device detected. Recording may not work."
          "newline";;
      modify (set_audio_in_device None)
  | d :: _ => modify (set_audio_in_device (Some d))
  end;;
  match output_devices with
  | [] =>
      log "No supported output audio devices were found! Audio output may not work."
          "newline";;
      modify_combo audio_out_devices_cb (cb_addItem "None" None);;
      modify_combo audio_out_devices_cb (cb_setDisabled true)
  | _ =>
      modify_combo audio_out_devices_cb cb_clear;;
      modify_combo audio_out_devices_cb
        (fun b => foldl (fun b t => cb_addItem t None b) b output_devices)
  end;;
  set_audio_device.

Definition exn_str (e : exn) : string :=
  match e with
  | Exception msg => msg
  | IndexError => "IndexError"
  | AttributeError => "AttributeError"
  | KeyError => "KeyError"
  | ZeroDivisionError => "ZeroDivisionError"
  | TypeError => "TypeError"
  end.

Definition play (w : World) (wav : Wav E) (sample_rate : Z) : M unit :=
  try_except
    (call EvSdStop (sd_stop w);;
     call (EvSdPlay wav sample_rate) (sd_play w))
    (fun e =>
       emit (EvStdout (exn_str e));;
       log "Error in audio playback. Try selecting a different audio output device."
           "newline";;
       log "Your device must be connected before you start the toolbox."
           "newline").

Definition stop (w : World) : M unit := call EvSdStop (sd_stop w).

(** [np.arange(0, duration, 0.1)] has ten steps per second; the value
    handed to the bar at step [k] is the [numpy.float64] product
    [(k * 0.1) * 100].  What [setValue] makes of it is taken from the
    world: PyQt under Python 3.10 or later refuses a float with TypeError,
    which nothing catches; earlier it is converted to an integer. *)
Definition record_one (w : World) (sample_rate duration : Z)
  : M (option (Wav E)) :=
  modify_button record_button (btn_setText "Recording...");;
  modify_button record_button (btn_setDisabled true);;
  log ("Recording " +:+ pretty duration +:+ " seconds of audio") "newline";;
  call EvSdStop (sd_stop w);;
  r ← try_except
        (emit (EvSdRec (duration * sample_rate) sample_rate 1);;
         match sd_rec w with
         | inl msg => raise (Exception msg)
         | inr wav => ret (Some wav)
         end)
        (fun e =>
           emit (EvStdout (exn_str e));;
           log "Could not record anything. Is your recording device enabled?"
               "newline";;
           log "Your device must be connected before you start the toolbox."
               "newline";;
           ret None);
  match r with
  | None => ret None
  | Some wav =>
      for_each (py_range (10 * duration)) (fun k =>
        match bar_percent w k with
        | Some value100 =>
            loading_bar_update value100 (duration * 100) (negb (k =? 0));;
            emit EvSleep
        | None => raise TypeError
        end);;
      set_loading duration duration;;
      call EvSdWait (sd_wait w);;
      log "Done recording." "newline";;
      modify_button record_button (btn_setText "Record");;
      modify_button record_button (btn_setDisabled false);;
      ret (Some (wav_squeeze w wav))
  end.

(** *** The browser *)

Definition current_dataset_name : M string :=
  gets (fun s => cb_currentText (combos s dataset_box)).

Definition current_speaker_name : M string :=
  gets (fun s => cb_currentText (combos s speaker_box)).

Definition current_utterance_name : M string :=
  gets (fun s => cb_currentText (combos s utterance_box)).

(** [None] is the empty string [browse_file] returns on cancel. *)
Definition browse_file (w : World) : M (option (Path E)) :=
  ret (if String.eqb (open_file_name w) "" then None
       else Some (path_of_str E (open_file_name w))).

(** [repopulate_box(box, items, random)]; [randint] is the generator's
    answer to [np.random.randint]. *)
Definition repopulate_box (randint : Z -> Z) (box : combo)
    (items : list item) (random : bool) : M unit :=
  modify_combo box (cb_blockSignals true);;
  modify_combo box cb_clear;;
  for_each items (fun it =>
    modify_combo box (cb_addItem (item_text it) (item_data it)));;
  when (0 <? Z.of_nat (length items))
       (modify_combo box
          (cb_setCurrentIndex
             (if random then randint (Z.of_nat (length items)) else 0)));;
  modify_combo box (cb_setDisabled (Z.of_nat (length items) =? 0));;
  modify_combo box (cb_blockSignals false).

(** The warning shown when no dataset can be offered. *)
Definition no_datasets_msg (datasets_root : option (Path E)) : string :=
  "Warning: you d" +:+
  match datasets_root with
  | None => "id not pass a root directory for datasets as argument"
  | Some root =>
      "o not have any of the recognized datasets in " +:+ path_str E root
  end.

Definition no_datasets_stderr (datasets_root : option (Path E))
    (recognized_datasets : list string) : string :=
  no_datasets_msg datasets_root +:+ "." +:+ newline
    +:+ "The recognized datasets are:" +:+ newline +:+ tab
    +:+ String.concat (newline +:+ tab) recognized_datasets +:+ newline
    +:+ "Feel free to add your own. You can still use the toolbox by recording samples yourself.".

(** [datasets]: the recognized datasets that exist under the root,
    relative to it. *)
Definition existing_datasets (w : World) (root : Path E)
    (recognized_datasets : list string) : list (Path E) :=
  let datasets := map (fun d => joinpath E root [d]) recognized_datasets in
  map (fun d => relative_to E d root) (List.filter (fs_exists w) datasets).

(** [speaker_names]: the directories under the dataset. *)
Definition speaker_names (w : World) (root : Path E) (dataset : string)
  : list string :=
  let speakers_root := joinpath E root [dataset] in
  map (path_stem E)
      (List.filter (fs_is_dir w) (fs_glob w speakers_root "*")).

(** [utterances]: the audio files under the speaker, relative to it. *)
Definition utterance_fpaths (w : World) (root : Path E)
    (dataset speaker : string) : list (Path E) :=
  let utterances_root := joinpath E root [dataset; speaker] in
  let utterances :=
    concat (map (fun extension =>
                   fs_glob w utterances_root ("**/*." +:+ extension))
                ["mp3"; "flac"; "wav"; "m4a"]) in
  map (fun fpath => relative_to E fpath utterances_root) utterances.

(** The block under [if level <= 1]. *)
Definition populate_speakers (w : World) (datasets_root : option (Path E))
    (random : bool) : M unit :=
  match datasets_root with
  | None => raise AttributeError
  | Some root =>
      dataset ← current_dataset_name;
      repopulate_box (np_randint w speaker_box) speaker_box
                     (map ItemStr (speaker_names w root dataset)) random
  end.

(** The block under [if level <= 2]. *)
Definition populate_utterances (w : World)
    (datasets_root : option (Path E)) (random : bool) : M unit :=
  match datasets_root with
  | None => raise AttributeError
  | Some root =>
      dataset ← current_dataset_name;
      speaker ← current_speaker_name;
      repopulate_box (np_randint w utterance_box) utterance_box
                     (map ItemPath (utterance_fpaths w root dataset speaker))
                     random
  end.

(** The widgets switched off when no dataset can be offered. *)
Definition disable_browser : M unit :=
  modify_button random_utterance_button (btn_setDisabled true);;
  modify_button random_speaker_button (btn_setDisabled true);;
  modify_button random_dataset_button (btn_setDisabled true);;
  modify_combo utterance_box (cb_setDisabled true);;
  modify_combo speaker_box (cb_setDisabled true);;
  modify_combo dataset_box (cb_setDisabled true);;
  modify_button browser_load_button (btn_setDisabled true);;
  modify_checkbox auto_next_checkbox (chk_setDisabled true).

Definition populate_browser (w : World) (datasets_root : option (Path E))
    (recognized_datasets : list string) (level : Z) (random : bool)
  : M unit :=
  let lower_levels :=
    when (level <=? 1) (populate_speakers w datasets_root random);;
    when (level <=? 2) (populate_utterances w datasets_root random) in
  if level <=? 0 then
    datasets ←
      match datasets_root with
      | Some root =>
          let datasets := existing_datasets w root recognized_datasets in
          modify_button browser_load_button
            (btn_setDisabled (Z.of_nat (length datasets) =? 0));;
          ret datasets
      | None => ret []
      end;
    if match datasets_root with None => true | Some _ => false end
       || (Z.of_nat (length datasets) =? 0)
    then
      log (no_datasets_msg datasets_root) "newline";;
      emit (EvStderr (no_datasets_stderr datasets_root recognized_datasets));;
      disable_browser
      (* return *)
    else
      repopulate_box (np_randint w dataset_box) dataset_box
                     (map ItemPath datasets) random;;
      lower_levels
  else lower_levels.

Definition browser_select_next : M unit :=
  box ← gets (fun s => combos s utterance_box);
  if cb_count box =? 0 then raise ZeroDivisionError
  else
    let index := (cb_currentIndex box + 1) `mod` cb_count box in
    modify_combo utterance_box (cb_setCurrentIndex index).

(** *** Models *)

Definition current_fpath (box : combo) : M (option pyobj) :=
  gets (fun s => cb_itemData (cb_currentIndex (combos s box)) (combos s box)).

Definition current_speaker_encoder_fpath := current_fpath speaker_encoder_box.
Definition current_emotion_encoder_fpath := current_fpath emotion_encoder_box.
Definition current_synthesizer_fpath := current_fpath synthesizer_box.
Definition current_vocoder_fpath := current_fpath vocoder_box.

Definition populate_models (w : World) (run_id : string)
    (models_dir : Path E) : M unit :=
  (* Speaker Encoder *)
  let speaker_encoder_fpaths := fs_glob w models_dir (run_id +:+ "/encoder.pt") in
  when (Z.of_nat (length speaker_encoder_fpaths) =? 0)
       (raise (Exception ("No speaker encoder models found in "
                          +:+ path_str E models_dir)));;
  repopulate_box (fun _ => 0) speaker_encoder_box
    (map (fun f => ItemPair (path_name E (path_parent E f)) (Some f))
         speaker_encoder_fpaths) false;;
  (* Emotion Encoder *)
  let emotion_encoder_fpaths := fs_glob w models_dir (run_id +:+ "/**/*.hdf5") in
  when (Z.of_nat (length emotion_encoder_fpaths) =? 0)
       (raise (Exception ("No emotion encoder models found in "
                          +:+ path_str E models_dir)));;
  repopulate_box (fun _ => 0) emotion_encoder_box
    (map (fun f => ItemPair (path_name E (path_parent E (path_parent E f)))
                            (Some f))
         emotion_encoder_fpaths) false;;
  (* Synthesizer *)
  let synthesizer_fpaths := fs_glob w models_dir (run_id +:+ "/synthesizer.pt") in
  when (Z.of_nat (length synthesizer_fpaths) =? 0)
       (raise (Exception ("No synthesizer models found in "
                          +:+ path_str E models_dir)));;
  repopulate_box (fun _ => 0) synthesizer_box
    (map (fun f => ItemPair (path_name E (path_parent E f)) (Some f))
         synthesizer_fpaths) false;;
  (* Vocoder *)
  let vocoder_fpaths := fs_glob w models_dir (run_id +:+ "/vocoder.pt") in
  let vocoder_items :=
    map (fun f => ItemPair (path_name E (path_parent E f)) (Some f))
        vocoder_fpaths ++ [ItemPair "Griffin-Lim" None] in
  repopulate_box (fun _ => 0) vocoder_box vocoder_items false.

(** *** The utterance history *)

Definition selected_utterance : M (option pyobj) :=
  gets (fun s => cb_itemData (cb_currentIndex (combos s utterance_history))
                             (combos s utterance_history)).

Definition register_utterance (utterance : Utterance) : M unit :=
  modify_combo utterance_history (cb_blockSignals true);;
  modify_combo utterance_history
    (cb_insertItem 0 (name utterance) (Some (PyUtterance utterance)));;
  modify_combo utterance_history (cb_setCurrentIndex 0);;
  modify_combo utterance_history (cb_blockSignals false);;
  n ← gets (fun s => cb_count (combos s utterance_history));
  when (max_saved_utterances <? n)
       (modify_combo utterance_history (cb_removeItem max_saved_utterances));;
  modify_button play_button (btn_setDisabled false);;
  modify_button generate_button (btn_setDisabled false);;
  modify_button synthesize_button (btn_setDisabled false).

(** *** Generation options and reset *)

Definition populate_gen_options (seed : option Z) (trim_silences : bool)
  : M unit :=
  match seed with
  | Some sd =>
      modify_checkbox random_seed_checkbox (chk_setChecked true);;
      modify (upd_seed_textbox (le_setText (pretty sd)));;
      modify (upd_seed_textbox (le_setEnabled true))
  | None =>
      modify_checkbox random_seed_checkbox (chk_setChecked false);;
      modify (upd_seed_textbox (le_setText (pretty 0)));;
      modify (upd_seed_textbox (le_setEnabled false))
  end;;
  when (negb trim_silences)
       (modify_checkbox trim_silences_checkbox (chk_setChecked false);;
        modify_checkbox trim_silences_checkbox (chk_setDisabled true)).

Definition update_seed_textbox : M unit :=
  checked ← gets (fun s => chk_checked (checkboxes s random_seed_checkbox));
  modify (upd_seed_textbox (le_setEnabled checked)).

Definition reset_interface (w : World) : M unit :=
  draw_embed w None None None "current";;
  draw_embed w None None None "generated";;
  draw_spec None "current";;
  draw_spec None "generated";;
  draw_umap_projections w [];;
  set_loading 0 1;;
  modify_button play_button (btn_setDisabled true);;
  modify_button generate_button (btn_setDisabled true);;
  modify_button synthesize_button (btn_setDisabled true);;
  modify_button vocode_button (btn_setDisabled true);;
  modify_button replay_wav_button (btn_setDisabled true);;
  modify_button export_wav_button (btn_setDisabled true);;
  for_each (py_range max_log_lines) (fun _ => log "" "newline").

(** *** Construction *)

Definition button_caption (b : button) : string :=
  match b with
  | clear_button => "Clear"
  | browser_load_button => "Load"
  | random_dataset_button | random_speaker_button
  | random_utterance_button => "Random"
  | browser_browse_button => "Browse"
  | record_button => "Record"
  | play_button => "Play"
  | stop_button => "Stop"
  | replay_wav_button => "Replay"
  | export_wav_button => "Export"
  | generate_button => "Synthesize and vocode"
  | synthesize_button => "Synthesize only"
  | vocode_button => "Vocode only"
  end.

(** The attributes as the widget constructors of [__init__] leave them. *)
Definition ui_built : UI :=
  {| umap_hot := false;
     logs := [];
     log_window := "";
     loading_bar := {| pb_minimum := 0; pb_maximum := 100; pb_value := -1;
                       pb_text_visible := true |};
     seed_textbox := {| le_text := ""; le_enabled := true |};
     audio_in_device := None;
     buttons := fun b => {| btn_text := button_caption b;
                            btn_disabled := false |};
     checkboxes := fun c =>
       {| chk_checked := match c with auto_next_checkbox => true
                                    | _ => false end;
          chk_disabled := false |};
     combos := fun _ => {| cb_items := []; cb_current := -1;
                           cb_disabled := false;
                           cb_signals_blocked := false |};
     axes := fun _ => ax_fresh;
     suptitle := fun _ => "" |}.

(** [UI.__init__]: build the widgets, reset the interface, show. *)
Definition init (w : World) : Res unit :=
  (reset_interface w;; emit EvShow) ui_built.

(** *** Sessions

    The operations a client can invoke on a [UI] object, and a session as
    a sequence of them.  An exception ends the operation that raised it
    and leaves the object as it was at that point. *)

Inductive op :=
| OpDrawUtterance (w : World) (utterance : Utterance) (which : string)
| OpDrawEmbed (w : World) (speaker_embed' emotion_embed' : option (Embed E))
              (nm : option string) (which : string)
| OpDrawSpec (spec' : option (Spec E)) (which : string)
| OpDrawUmapProjections (w : World) (utterances : list Utterance)
| OpSaveAudioFile (w : World) (wav : Wav E) (sample_rate : Z)
| OpSetupAudioDevices (w : World) (sample_rate : Z)
| OpSetAudioDevice
| OpPlay (w : World) (wav : Wav E) (sample_rate : Z)
| OpStop (w : World)
| OpRecordOne (w : World) (sample_rate duration : Z)
| OpBrowseFile (w : World)
| OpRepopulateBox (randint : Z -> Z) (box : combo) (items : list item)
                  (random : bool)
| OpPopulateBrowser (w : World) (datasets_root : option (Path E))
                    (recognized_datasets : list string) (level : Z)
                    (random : bool)
| OpBrowserSelectNext
| OpPopulateModels (w : World) (run_id : string) (models_dir : Path E)
| OpRegisterUtterance (utterance : Utterance)
| OpLog (line mode : string)
| OpSetLoading (value maximum : Z)
| OpPopulateGenOptions (seed : option Z) (trim_silences : bool)
| OpUpdateSeedTextbox
| OpResetInterface (w : World).

Definition discard {A} (m : M A) : M unit := m ≫= fun _ => ret tt.

Definition run_op (o : op) : M unit :=
  match o with
  | OpDrawUtterance w u which => draw_utterance w u which
  | OpDrawEmbed w se ee nm which => draw_embed w se ee nm which
  | OpDrawSpec sp which => draw_spec sp which
  | OpDrawUmapProjections w us => draw_umap_projections w us
  | OpSaveAudioFile w wav sr => save_audio_file w wav sr
  | OpSetupAudioDevices w sr => setup_audio_devices w sr
  | OpSetAudioDevice => set_audio_device
  | OpPlay w wav sr => play w wav sr
  | OpStop w => stop w
  | OpRecordOne w sr d => discard (record_one w sr d)
  | OpBrowseFile w => discard (browse_file w)
  | OpRepopulateBox randint box items random =>
      repopulate_box randint box items random
  | OpPopulateBrowser w root recognized level random =>
      populate_browser w root recognized level random
  | OpBrowserSelectNext => browser_select_next
  | OpPopulateModels w run_id models_dir => populate_models w run_id models_dir
  | OpRegisterUtterance u => register_utterance u
  | OpLog line mode => log line mode
  | OpSetLoading v m => set_loading v m
  | OpPopulateGenOptions seed trim => populate_gen_options seed trim
  | OpUpdateSeedTextbox => update_seed_textbox
  | OpResetInterface w => reset_interface w
  end.

(** The state and the trace after a sequence of operations from [s]. *)
Fixpoint run_ops (ops : list op) (s : UI) : UI * list event :=
  match ops with
  | [] => (s, [])
  | o :: ops' =>
      let r := run_op o s in
      let '(s', t) := run_ops ops' (st r) in
      (s', tr r ++ t)
  end.

(** A session: construction, then the client's operations. *)
Definition session (w : World) (ops : list op) : UI * list event :=
  let r := init w in
  let '(s, t) := run_ops ops (st r) in
  (s, tr r ++ t).

(** Is this event the "first time" notice of the UMAP drawing? *)
Definition is_first_time_notice (e : event) : bool :=
  match e with
  | EvLog line _ => String.eqb line first_time_msg
  | _ => false
  end.

Definition first_time_notices (t : list event) : nat :=
  length (List.filter is_first_time_notice t).

(** The lines with that very text the client passes to [log] itself. *)
Definition client_notices (ops : list op) : nat :=
  length (List.filter (fun o => match o with
                                | OpLog line _ => String.eqb line first_time_msg
                                | _ => false
                                end) ops).


(** The projections computed during a trace. *)
Definition projections_computed (t : list event) : nat :=
  length (List.filter (fun e => match e with EvUmapFit _ _ => true
                                          | _ => false end) t).

End Model.

Arguments Utterance : clear implicits.
Arguments UI : clear implicits.
Arguments World : clear implicits.
Arguments event : clear implicits.
Arguments op : clear implicits.
Arguments Axes : clear implicits.
Arguments pyobj : clear implicits.
Arguments item : clear implicits.
Arguments Res : clear implicits.
Arguments mkRes {E A} _ _ _.
Arguments out {E A} _.
Arguments st {E A} _.
Arguments tr {E A} _.
#[global] Existing Instance M_ret.
#[global] Existing Instance M_bind.

(** ** A sample environment

    Paths as lists of components, matrices and vectors as lists of
    integers: an instance on which the model runs. *)

Fixpoint split_slash (acc s : string) : list string :=
  match s with
  | EmptyString => if String.eqb acc "" then [] else [acc]
  | String c s' =>
      if Ascii.eqb c "/"%char
      then (if String.eqb acc "" then [] else [acc]) ++ split_slash "" s'
      else split_slash (acc +:+ String c EmptyString) s'
  end.

(** [name[name.rfind('.'):]], when the name has a dot. *)
Fixpoint from_last_dot (s : string) : option string :=
  match s with
  | EmptyString => None
  | String c s' =>
      match from_last_dot s' with
      | Some r => Some r
      | None => if Ascii.eqb c "."%char then Some s else None
      end
  end.

(** pathlib's [suffix]: with [i = name.rfind('.')], it is [name[i:]] when
    [0 < i < len(name) - 1] and empty otherwise, so that neither a leading
    nor a trailing dot starts a suffix. *)
Definition sample_suffix (p : list string) : string :=
  match List.last p "" with
  | EmptyString => ""
  | String _ rest =>
      match from_last_dot rest with
      | Some r => if String.eqb r "." then "" else r
      | None => ""
      end
  end.

(** Three of the suffixes [sf.write] finds a format for.  In the sample
    world it raises TypeError for every other suffix, as the library does
    for one it finds no format for, ".txt" say. *)
Definition sample_formats : list string := [".wav"; ".flac"; ".ogg"].

Definition sample_env : Env := {|
  Path := list string;
  Spec := list Z;
  Embed := list Z;
  Wav := list Z;
  Coord := Z;
  path_of_str := split_slash "";
  path_str := String.concat "/";
  joinpath := fun p names => p ++ concat (map (split_slash "") names);
  relative_to := fun p base => drop (length base) p;
  path_name := fun p => List.last p "";
  path_stem := fun p =>
    let n := List.last p "" in
    str_take (String.length n - String.length (sample_suffix p)) n;
  path_suffix := sample_suffix;
  path_parent := fun p => removelast p;
|}.

(** A world over the sample environment: the directories that exist, the
    answers of [glob], the name the save dialog returns, a [sf.write] that
    writes the formats it knows, a reducer that lays the points out on a
    line, and a bar that converts the floats it receives. *)
Definition sample_world (dirs : list (list string))
    (glob : list string -> string -> list (list string))
    (save_name : string) : World sample_env := {|
  fs_exists := fun p : Path sample_env => bool_decide (p ∈ dirs);
  fs_is_dir := fun p => bool_decide (p ∈ dirs);
  fs_glob := glob;
  np_randint := fun _ _ => 0;
  save_file_name := save_name;
  sf_write := fun fpath _ _ =>
    if bool_decide (sample_suffix (split_slash "" fpath) ∈ sample_formats)
    then None else Some TypeError;
  open_file_name := "";
  umap_fit_transform := fun n embeds =>
    Ret (imap (fun i _ => (Z.of_nat i, n)) embeds);
  plot_embedding_as_heatmap := fun e _ a =>
    ax_set_images (ax_images a ++ [{| im_data := PxEmbed e;
                                     im_colorbar := true |}]) a;
  sd_query_devices := [];
  sd_stop := None;
  sd_play := None;
  sd_rec := inr [];
  sd_wait := None;
  wav_squeeze := fun w => w;
  bar_percent := fun k => Some (10 * k);
|}.

Definition no_files : list string -> string -> list (list string) :=
  fun _ _ => [].

(** A small model directory: run "r1" with the three mandatory models and
    no vocoder. *)
Definition sample_models (base : list string) (pattern : string)
  : list (list string) :=
  if String.eqb pattern "r1/encoder.pt" then [base ++ ["r1"; "encoder.pt"]]
  else if String.eqb pattern "r1/**/*.hdf5"
  then [base ++ ["r1"; "emo"; "v1"; "model.hdf5"]]
  else if String.eqb pattern "r1/synthesizer.pt"
  then [base ++ ["r1"; "synthesizer.pt"]]
  else [].


Definition sample_utterance (nm speaker : string) : Utterance sample_env :=
  @Build_Utterance sample_env nm speaker [1; 2] [3] (Some [4]).

(** Fifteen utterances of fifteen different speakers. *)
Definition fifteen_speakers : list (Utterance sample_env) :=
  map (fun k => sample_utterance ("u" +:+ pretty k) ("speaker" +:+ pretty k))
      (seqZ 0 15).

(** Four utterances of two speakers, one of them generated. *)
Definition four_utterances : list (Utterance sample_env) :=
  [ sample_utterance "a" "s1"; sample_utterance "b" "s1";
    sample_utterance "c" "s2"; sample_utterance "c_gen_1" "s2" ].

(** A line of 101 characters. *)
Definition line101 : string :=
  "0123456789012345678901234567890123456789012345678901234567890123456789012345678901234567890123456789X".

(** A buffer of five lines. *)
Definition five_lines : UI sample_env :=
  set_logs ["a"; "b"; "c"; "d"; "e"] ui_built.

(** A history of twenty utterances. *)
Definition twenty_rows : list (string * option (pyobj sample_env)) :=
  map (fun k => let u := sample_utterance ("u" +:+ pretty k) "s" in
                (name u, Some (PyUtterance u)))
      (seqZ 0 20).

Definition full_history : UI sample_env :=
  upd_combo utterance_history (cb_with twenty_rows 0) ui_built.

(** A world with no file at all. *)
Definition sample_session_world : World sample_env :=
  sample_world [] no_files "".



(** ** Derived views *)

(** What [register_utterance] does to the history box. *)
Definition registered {E} (u : Utterance E) (b : QComboBox (pyobj E))
  : QComboBox (pyobj E) :=
  let b1 := cb_blockSignals false
              (cb_setCurrentIndex 0
                 (cb_insertItem 0 (name u) (Some (PyUtterance u))
                    (cb_blockSignals true b))) in
  if max_saved_utterances <? cb_count b1
  then cb_removeItem max_saved_utterances b1 else b1.

(** The box [repopulate_box] leaves behind: the rows of the items, the
    current row, the disabled flag. *)
Definition repopulated {E} (randint : Z -> Z) (items : list (item E))
    (random : bool) : QComboBox (pyobj E) :=
  let n := Z.of_nat (length items) in
  let index := if random then randint n else 0 in
  {| cb_items := map (fun it => (item_text it, item_data it)) items;
     cb_current := if n =? 0 then -1
                   else if (0 <=? index) && (index <? n) then index else -1;
     cb_disabled := n =? 0;
     cb_signals_blocked := false |}.

(** The state [repopulate_box] leaves behind, call by call. *)
Definition repopulate_state {E} (randint : Z -> Z) (box : combo)
    (items : list (item E)) (random : bool) (s : UI E) : UI E :=
  let s := upd_combo box (cb_blockSignals true) s in
  let s := upd_combo box cb_clear s in
  let s := foldl (fun s it =>
                    upd_combo box (cb_addItem (item_text it) (item_data it)) s)
                 s items in
  let s := if 0 <? Z.of_nat (length items)
           then upd_combo box
                  (cb_setCurrentIndex
                     (if random then randint (Z.of_nat (length items)) else 0))
                  s
           else s in
  let s := upd_combo box (cb_setDisabled (Z.of_nat (length items) =? 0)) s in
  upd_combo box (cb_blockSignals false) s.

(** The state after one turn of the plotting loop of
    [draw_umap_projections]: the point, then [set_loading(i, n)]. *)
Definition plot_turn {E} (ax : axes_id) (n : Z)
    (p : Z * (Coord E * Coord E * rgb * string)) (s : UI E) : UI E :=
  let '(i, (x, y, c, m)) := p in
  upd_loading_bar (pb_setTextVisible (negb (i =? 0)))
    (upd_loading_bar (pb_setMaximum (n * 100))
       (upd_loading_bar (pb_setValue (i * 100))
          (upd_axes ax (ax_scatter
             {| sc_x := x; sc_y := y; sc_c := c; sc_marker := m |}) s))).

(** A trace with one more event in front. *)
Definition prepend {E A} (ev : event E) (r : Res E A) : Res E A :=
  mkRes (out r) (st r) (ev :: tr r).

(** The one-shot budget of the "first time" notice: 1 while the flag is
    down, 0 once it is up. *)
Definition cold {E} (s : UI E) : nat := if umap_hot s then 0%nat else 1%nat.

(** A computation that leaves [umap_hot] as it is and logs no notice. *)
Definition quiet {E A} (m : M (E:=E) A) : Prop :=
  forall s, umap_hot (st (m s)) = umap_hot s
            /\ first_time_notices (tr (m s)) = 0%nat.

(** A computation that logs the notice only by spending the budget. *)
Definition spends {E A} (m : M (E:=E) A) : Prop :=
  forall s, (first_time_notices (tr (m s)) + cold (st (m s)) <= cold s)%nat.

(** *** The log buffer *)

(** The eviction test applied to a buffer. *)
Definition evict (ls : list string) : list string :=
  if max_log_lines <? Z.of_nat (length ls) then delete 0%nat ls else ls.

(** One [append] followed by the eviction test. *)
Definition push (ls : list string) (x : string) : list string :=
  evict (ls ++ [x]).

(** The entries a line longer than [max_log_width] is cut into, in the
    order they are appended. *)
Definition wrap_pieces (line : string) : list string :=
  map (fun l => py_slice (l * max_log_width) (Some ((l + 1) * max_log_width))
                         line)
      (py_range (py_len line / max_log_width))
  ++ [py_slice (- (py_len line - py_len line / max_log_width * max_log_width)
                - 1) None line].

(** The entries one call of [log] in "newline" mode appends. *)
Definition log_pieces (line : string) : list string :=
  if max_log_width <? py_len line then wrap_pieces line else [line].

(** *** Views used by the session invariants *)

(** A property of the object that a computation carries from the state
    it starts in to the state it leaves, whether it returns or raises. *)
Definition keeps {E A} (P : UI E -> Prop) (m : M (E:=E) A) : Prop :=
  forall s, P s -> P (st (m s)).

(** The buffer holds [max_log_lines] entries. *)
Definition log_full {E} (s : UI E) : Prop :=
  Z.of_nat (length (logs s)) = max_log_lines.

(** The label shows the buffer, one entry per line. *)
Definition label_synced {E} (s : UI E) : Prop :=
  log_window s = String.concat newline (logs s).

(** The history box holds at most [max_saved_utterances] rows. *)
Definition history_bounded {E} (s : UI E) : Prop :=
  cb_count (combos s utterance_history) <= max_saved_utterances.

(** Does the client hand the history box itself to [repopulate_box]? *)
Definition repopulates_history {E} (o : op E) : bool :=
  match o with
  | OpRepopulateBox _ utterance_history _ _ => true
  | _ => false
  end.

(** The state one call of [log] in "newline" mode leaves behind. *)
Definition logged {E} (line : string) (s : UI E) : UI E :=
  set_log_window
    (String.concat newline (foldl push (logs s) (log_pieces line)))
    (set_logs (foldl push (logs s) (log_pieces line)) s).

(** A trace with more events in front. *)
Definition prepends {E A} (t : list (event E)) (r : Res E A) : Res E A :=
  mkRes (out r) (st r) (t ++ tr r).

(** The buffer [log] leaves behind in each mode; [None] is the
    IndexError of [self.logs[-1]]. *)
Definition log_buffer (line mode : string) (ls : list string)
  : option (list string) :=
  if String.eqb mode "newline" then Some (foldl push ls (log_pieces line))
  else if String.eqb mode "append" then
    i ← py_index (Z.of_nat (length ls)) (-1);
    last ← ls !! i;
    Some (<[i := last +:+ line]> ls)
  else if String.eqb mode "overwrite" then
    i ← py_index (Z.of_nat (length ls)) (-1);
    Some (<[i := line]> ls)
  else Some ls.

(** [setup_audio_devices] has assigned [self.audio_in_device]. *)
Definition audio_ready {E} (s : UI E) : Prop := audio_in_device s <> None.

(** The progress bar accepts the value of every step in [l] of the
    progress loop of [record_one]. *)
Definition bar_accepts {E} (w : World E) (l : list Z) : bool :=
  forallb (fun k => match bar_percent w k with
                    | Some _ => true
                    | None => false
                    end) l.

(** The names [setup_audio_devices] collects from [sd.query_devices()]. *)
Definition input_devices {E} (w : World E) : list string :=
  map dev_name (List.filter dev_input_ok (sd_query_devices w)).

Definition output_devices {E} (w : World E) : list string :=
  map dev_name
      (List.filter (fun d => match dev_output_error d with
                             | None => true | Some _ => false end)
                   (sd_query_devices w)).

(** The output device [set_audio_device] derives from the text of the
    box. *)
Definition output_device_of (text : string) : option string :=
  if String.eqb text "None" then None else Some text.

(** *** Views used by the drawing proofs *)

(** [len(ax.images) == 0 or ax.images[0].colorbar is not None] *)
Definition first_image_has_colorbar {E} (a : Axes E) : bool :=
  match ax_images a with
  | [] => true
  | im :: _ => im_colorbar im
  end.

(** The state [remove_colorbar] leaves behind when it returns. *)
Definition uncolor {E} (a : axes_id) (s : UI E) : UI E :=
  match ax_images (axes s a) with
  | [] => s
  | im :: rest =>
      upd_axes a (ax_set_images
                    ({| im_data := im_data im; im_colorbar := false |} :: rest))
               s
  end.

(** The axes one block of [draw_embed] leaves behind: cleared, the
    heatmap and its title when there is an embedding, then the aspect and
    the empty ticks. *)
Definition embed_axes {E} (w : World E) (embed : option (Embed E))
    (shape : option (Z * Z)) (title : string) (a : Axes E) : Axes E :=
  ax_set_yticks []
    (ax_set_xticks []
       (ax_set_aspect "equal" "datalim"
          (match embed with
           | Some e =>
               ax_set_title title
                 (plot_embedding_as_heatmap w e shape (ax_clear a))
           | None => ax_clear a
           end))).

(** The state one block of [draw_embed] leaves behind, call by call,
    once the colorbar is gone. *)
Definition embed_drawn {E} (w : World E) (a : axes_id)
    (embed : option (Embed E)) (shape : option (Z * Z)) (title : string)
    (s : UI E) : UI E :=
  let s := upd_axes a ax_clear s in
  let s := match embed with
           | Some e =>
               upd_axes a (ax_set_title title)
                 (upd_axes a (plot_embedding_as_heatmap w e shape) s)
           | None => s
           end in
  upd_axes a (ax_set_yticks [])
    (upd_axes a (ax_set_xticks [])
       (upd_axes a (ax_set_aspect "equal" "datalim") s)).

(** The axes [draw_spec] leaves behind. *)
Definition spec_axes {E} (spec' : option (Spec E)) (a : Axes E) : Axes E :=
  ax_set_yticks []
    (ax_set_xticks []
       (match spec' with
        | Some m => ax_set_title "mel spectrogram" (ax_imshow m (ax_clear a))
        | None => ax_clear a
        end)).

(** The axes of the two embeddings and of the spectrogram that [which]
    selects: anything but "current" selects the generated ones. *)
Definition speaker_ax_of (which : string) : axes_id :=
  if String.eqb which "current" then current_speaker_embed_ax
  else gen_speaker_embed_ax.

Definition emotion_ax_of (which : string) : axes_id :=
  if String.eqb which "current" then current_emotion_embed_ax
  else gen_emotion_embed_ax.

Definition spec_ax_of (which : string) : axes_id :=
  if String.eqb which "current" then current_spec_ax else gen_spec_ax.

(** The state [draw_spec] leaves behind, call by call. *)
Definition spec_drawn {E} (spec' : option (Spec E)) (which : string)
    (s : UI E) : UI E :=
  let a := spec_ax_of which in
  let s := upd_axes a ax_clear s in
  let s := match spec' with
           | Some m =>
               upd_axes a (ax_set_title "mel spectrogram")
                 (upd_axes a (ax_imshow m) s)
           | None => s
           end in
  let s := upd_axes a (ax_set_yticks []) (upd_axes a (ax_set_xticks []) s) in
  if String.eqb which "current" then s
  else upd_button vocode_button
         (btn_setDisabled (match spec' with None => true | _ => false end)) s.

(** The message drawn on the UMAP axes while points are missing. *)
Definition add_points_text (missing : Z) : TextArtist :=
  {| tx_x := 1 # 2; tx_y := 1 # 2; tx_s := add_points_msg missing;
     tx_horizontalalignment := "center"; tx_fontsize := 15 |}.

(** The six buttons [reset_interface] switches off. *)
Definition action_buttons : list button :=
  [play_button; generate_button; synthesize_button; vocode_button;
   replay_wav_button; export_wav_button].

(** The axes of the two embeddings and the spectrogram, current and
    generated. *)
Definition utterance_axes : list axes_id :=
  [current_speaker_embed_ax; current_emotion_embed_ax; current_spec_ax;
   gen_speaker_embed_ax; gen_emotion_embed_ax; gen_spec_ax].

(** The four axes [draw_embed] removes a colorbar from. *)
Definition embed_axes_ids : list axes_id :=
  [current_speaker_embed_ax; current_emotion_embed_ax;
   gen_speaker_embed_ax; gen_emotion_embed_ax].

(** The widgets [populate_browser] switches off when it has no dataset
    to offer. *)
Definition browser_buttons : list button :=
  [random_utterance_button; random_speaker_button; random_dataset_button;
   browser_load_button].

Definition browser_boxes : list combo :=
  [utterance_box; speaker_box; dataset_box].

(** ** More sample inputs *)

(** A world whose reducer fails. *)
Definition failing_reducer_world : World sample_env := {|
  fs_exists := fs_exists sample_session_world;
  fs_is_dir := fs_is_dir sample_session_world;
  fs_glob := fs_glob sample_session_world;
  np_randint := np_randint sample_session_world;
  save_file_name := "";
  sf_write := sf_write sample_session_world;
  open_file_name := "";
  umap_fit_transform := fun _ _ => Raise (Exception "reducer failed");
  plot_embedding_as_heatmap :=
    plot_embedding_as_heatmap sample_session_world;
  sd_query_devices := [];
  sd_stop := None;
  sd_play := None;
  sd_rec := inr [];
  sd_wait := None;
  wav_squeeze := fun w => w;
  bar_percent := fun k => Some (10 * k);
|}.

(** A world whose progress bar refuses floats, as PyQt does under
    Python 3.10 or later. *)
Definition strict_bar_world : World sample_env := {|
  fs_exists := fs_exists sample_session_world;
  fs_is_dir := fs_is_dir sample_session_world;
  fs_glob := fs_glob sample_session_world;
  np_randint := np_randint sample_session_world;
  save_file_name := "";
  sf_write := sf_write sample_session_world;
  open_file_name := "";
  umap_fit_transform := umap_fit_transform sample_session_world;
  plot_embedding_as_heatmap :=
    plot_embedding_as_heatmap sample_session_world;
  sd_query_devices := [];
  sd_stop := None;
  sd_play := None;
  sd_rec := inr [];
  sd_wait := None;
  wav_squeeze := fun w => w;
  bar_percent := fun _ => None;
|}.

(** A short session: two registrations and a box repopulated by hand. *)
Definition sample_ops : list (op sample_env) :=
  [ OpRegisterUtterance (sample_utterance "a" "s1");
    OpRepopulateBox (fun _ => 0) speaker_box [ItemStr "p225"] false;
    OpRegisterUtterance (sample_utterance "b" "s1") ].

(** *** Views used by the proofs about sequences of calls *)

(** The last [n] elements of a list. *)
Definition lastn {A} (n : nat) (l : list A) : list A :=
  drop (length l - n) l.

(** The row [register_utterance] inserts for an utterance. *)
Definition history_row {E} (u : Utterance E)
  : string * option (pyobj E) :=
  (name u, Some (PyUtterance u)).

(** A history of nineteen utterances. *)
Definition nineteen_rows : list (string * option (pyobj sample_env)) :=
  map (fun k => history_row (sample_utterance ("u" +:+ pretty k) "s"))
      (seqZ 0 19).

Definition long_history : UI sample_env :=
  upd_combo utterance_history (cb_with nineteen_rows 0) ui_built.

(** ** Proofs *)

Section Frames.
Context {E : Env}.
Implicit Types (s : UI E).

(** *** Running the monad *)

Lemma bind_run {A B} (m : M A) (f : A -> M B) s a s' t b s'' t' T :
  m s = mkRes (Ret a) s' t ->
  f a s' = mkRes b s'' t' ->
  T = t ++ t' ->
  bind m f s = mkRes b s'' T.
Proof.
  intros Hm Hf ->. unfold bind. rewrite Hm. simpl. rewrite Hf. reflexivity.
Qed.

Lemma bind_step {A B} (m : M A) (f : A -> M B) s a s' t :
  m s = mkRes (Ret a) s' t ->
  bind m f s = mkRes (out (f a s')) (st (f a s')) (t ++ tr (f a s')).
Proof. intros Hm. unfold bind. rewrite Hm. reflexivity. Qed.

Lemma bind_out {A B} (m : M A) (f : A -> M B) s a :
  out (m s) = Ret a ->
  bind m f s
  = mkRes (out (f a (st (m s)))) (st (f a (st (m s))))
          (tr (m s) ++ tr (f a (st (m s)))).
Proof. intros Hm. unfold bind. rewrite Hm. reflexivity. Qed.

Lemma bind_raise {A B} (m : M A) (f : A -> M B) s e s' t :
  m s = mkRes (Raise e) s' t ->
  bind m f s = mkRes (Raise e) s' t.
Proof. intros Hm. unfold bind. rewrite Hm. reflexivity. Qed.

Lemma bind_modify {B} (g : UI E -> UI E) (f : unit -> M B) s :
  bind (modify g) f s = f tt (g s).
Proof. unfold bind, modify. simpl. destruct (f tt (g s)); reflexivity. Qed.

Lemma bind_gets {A B} (g : UI E -> A) (f : A -> M B) s :
  bind (gets g) f s = f (g s) s.
Proof. unfold bind, gets. simpl. destruct (f (g s) s); reflexivity. Qed.

Lemma bind_ret {A B} (a : A) (f : A -> M B) s :
  bind (ret a) f s = f a s.
Proof. unfold bind, ret. simpl. destruct (f a s); reflexivity. Qed.

Lemma bind_raise_l {A B} (e : exn) (f : A -> M B) s :
  bind (raise e) f s = mkRes (Raise e) s [].
Proof. reflexivity. Qed.

Lemma bind_emit {B} (ev : event E) (f : unit -> M B) s :
  bind (emit ev) f s = prepend ev (f tt s).
Proof. reflexivity. Qed.

Lemma bind_assoc {A B C} (m : M A) (f : A -> M B) (g : B -> M C) s :
  bind (bind m f) g s = bind m (fun a => bind (f a) g) s.
Proof.
  unfold bind. destruct (m s) as [[a|e] s1 t1]; simpl; [|reflexivity].
  destruct (f a s1) as [[b|e] s2 t2]; simpl; [|reflexivity].
  rewrite app_assoc. reflexivity.
Qed.

Lemma for_each_pure {A} (l : list A) (body : A -> M unit)
    (g : A -> UI E -> UI E) :
  (forall x s, body x s = mkRes (Ret tt) (g x s) []) ->
  forall s,
    for_each l body s = mkRes (Ret tt) (foldl (fun s x => g x s) s l) [].
Proof.
  intros Hbody. induction l as [|x l IH]; intros s; simpl; [reflexivity|].
  eapply bind_run; [apply Hbody | apply IH | reflexivity].
Qed.

(** *** What the setters leave alone *)

Lemma umap_hot_set_logs v s : umap_hot (set_logs v s) = umap_hot s.
Proof. reflexivity. Qed.

Lemma umap_hot_set_log_window v s : umap_hot (set_log_window v s) = umap_hot s.
Proof. reflexivity. Qed.

Lemma umap_hot_set_audio_in_device v s : umap_hot (set_audio_in_device v s) = umap_hot s.
Proof. reflexivity. Qed.

Lemma umap_hot_set_suptitle k v s : umap_hot (set_suptitle k v s) = umap_hot s.
Proof. reflexivity. Qed.

Lemma umap_hot_upd_button k f s : umap_hot (upd_button k f s) = umap_hot s.
Proof. reflexivity. Qed.

Lemma umap_hot_upd_checkbox k f s : umap_hot (upd_checkbox k f s) = umap_hot s.
Proof. reflexivity. Qed.

Lemma umap_hot_upd_combo k f s : umap_hot (upd_combo k f s) = umap_hot s.
Proof. reflexivity. Qed.

Lemma umap_hot_upd_axes k f s : umap_hot (upd_axes k f s) = umap_hot s.
Proof. reflexivity. Qed.

Lemma umap_hot_upd_loading_bar f s : umap_hot (upd_loading_bar f s) = umap_hot s.
Proof. reflexivity. Qed.

Lemma umap_hot_upd_seed_textbox f s : umap_hot (upd_seed_textbox f s) = umap_hot s.
Proof. reflexivity. Qed.

Lemma combos_set_umap_hot v s : combos (set_umap_hot v s) = combos s.
Proof. reflexivity. Qed.

Lemma combos_set_logs v s : combos (set_logs v s) = combos s.
Proof. reflexivity. Qed.

Lemma combos_set_log_window v s : combos (set_log_window v s) = combos s.
Proof. reflexivity. Qed.

Lemma combos_set_audio_in_device v s : combos (set_audio_in_device v s) = combos s.
Proof. reflexivity. Qed.

Lemma combos_set_suptitle k v s : combos (set_suptitle k v s) = combos s.
Proof. reflexivity. Qed.

Lemma combos_upd_button k f s : combos (upd_button k f s) = combos s.
Proof. reflexivity. Qed.

Lemma combos_upd_checkbox k f s : combos (upd_checkbox k f s) = combos s.
Proof. reflexivity. Qed.

Lemma combos_upd_axes k f s : combos (upd_axes k f s) = combos s.
Proof. reflexivity. Qed.

Lemma combos_upd_loading_bar f s : combos (upd_loading_bar f s) = combos s.
Proof. reflexivity. Qed.

Lemma combos_upd_seed_textbox f s : combos (upd_seed_textbox f s) = combos s.
Proof. reflexivity. Qed.

Lemma axes_set_umap_hot v s : axes (set_umap_hot v s) = axes s.
Proof. reflexivity. Qed.

Lemma axes_set_logs v s : axes (set_logs v s) = axes s.
Proof. reflexivity. Qed.

Lemma axes_set_log_window v s : axes (set_log_window v s) = axes s.
Proof. reflexivity. Qed.

Lemma axes_set_audio_in_device v s : axes (set_audio_in_device v s) = axes s.
Proof. reflexivity. Qed.

Lemma axes_set_suptitle k v s : axes (set_suptitle k v s) = axes s.
Proof. reflexivity. Qed.

Lemma axes_upd_button k f s : axes (upd_button k f s) = axes s.
Proof. reflexivity. Qed.

Lemma axes_upd_checkbox k f s : axes (upd_checkbox k f s) = axes s.
Proof. reflexivity. Qed.

Lemma axes_upd_combo k f s : axes (upd_combo k f s) = axes s.
Proof. reflexivity. Qed.

Lemma axes_upd_loading_bar f s : axes (upd_loading_bar f s) = axes s.
Proof. reflexivity. Qed.

Lemma axes_upd_seed_textbox f s : axes (upd_seed_textbox f s) = axes s.
Proof. reflexivity. Qed.

Lemma umap_hot_set_umap_hot v s : umap_hot (set_umap_hot v s) = v.
Proof. reflexivity. Qed.

Lemma combos_upd_combo_eq k f s : combos (upd_combo k f s) k = f (combos s k).
Proof. unfold upd_combo. simpl. apply fn_lookup_insert. Qed.

Lemma combos_upd_combo_ne k f s k' :
  k <> k' -> combos (upd_combo k f s) k' = combos s k'.
Proof. intros. unfold upd_combo. simpl. apply fn_lookup_insert_ne. assumption. Qed.

Lemma axes_upd_axes_eq k f s : axes (upd_axes k f s) k = f (axes s k).
Proof. unfold upd_axes. simpl. apply fn_lookup_insert. Qed.

Lemma axes_upd_axes_ne k f s k' :
  k <> k' -> axes (upd_axes k f s) k' = axes s k'.
Proof. intros. unfold upd_axes. simpl. apply fn_lookup_insert_ne. assumption. Qed.
End Frames.

(** Runs the straight-line part of a computation. *)
Ltac mrun :=
  repeat (rewrite bind_assoc || rewrite bind_modify || rewrite bind_gets
          || rewrite bind_ret || rewrite bind_emit);
  cbn [prepend emit modify ret out st tr].

Create Rewrite HintDb ui.

#[global] Hint Rewrite
  @umap_hot_set_logs @umap_hot_set_log_window @umap_hot_set_audio_in_device
  @umap_hot_set_suptitle @umap_hot_upd_button @umap_hot_upd_checkbox
  @umap_hot_upd_combo @umap_hot_upd_axes @umap_hot_upd_loading_bar
  @umap_hot_upd_seed_textbox @combos_set_umap_hot @combos_set_logs
  @combos_set_log_window @combos_set_audio_in_device @combos_set_suptitle
  @combos_upd_button @combos_upd_checkbox @combos_upd_axes
  @combos_upd_loading_bar @combos_upd_seed_textbox @axes_set_umap_hot
  @axes_set_logs @axes_set_log_window @axes_set_audio_in_device
  @axes_set_suptitle @axes_upd_button @axes_upd_checkbox @axes_upd_combo
  @axes_upd_loading_bar @axes_upd_seed_textbox @umap_hot_set_umap_hot
  @combos_upd_combo_eq @axes_upd_axes_eq : ui.

#[global] Hint Rewrite @combos_upd_combo_ne @axes_upd_axes_ne
  using discriminate : ui.

Section LogProofs.
Context {E : Env}.
Implicit Types (s : UI E) (line mode : string).

Lemma evict_run s :
  logs_evict s = mkRes (Ret tt) (set_logs (evict (logs s)) s) [].
Proof.
  unfold logs_evict, evict, mbind, M_bind.
  eapply bind_run; [reflexivity | | reflexivity].
  unfold when. destruct (max_log_lines <? _); [reflexivity|].
  destruct s; reflexivity.
Qed.

Lemma push_step s x :
  bind (logs_append x) (fun _ => logs_evict) s
  = mkRes (Ret tt) (set_logs (push (logs s) x) s) [].
Proof.
  eapply bind_run; [reflexivity | rewrite evict_run; reflexivity | reflexivity].
Qed.

Lemma foldl_set_logs {A} (f : A -> string) (l : list A) s :
  foldl (fun s x => set_logs (push (logs s) (f x)) s) s l
  = set_logs (foldl push (logs s) (map f l)) s.
Proof.
  revert s. induction l as [|x l IH]; intros s; simpl.
  - destruct s; reflexivity.
  - rewrite IH. reflexivity.
Qed.

Lemma log_newline_eq s line :
  log line "newline" s
  = mkRes (Ret tt)
      (set_log_window
         (String.concat newline (foldl push (logs s) (log_pieces line)))
         (set_logs (foldl push (logs s) (log_pieces line)) s))
      [EvLog line "newline"; EvProcessEvents].
Proof.
  unfold log, mbind, M_bind.
  eapply bind_run; [reflexivity | | reflexivity].
  change (("newline" =? "newline")%string) with true. cbv iota.
  eapply bind_run with (s' := set_logs (foldl push (logs s) (log_pieces line)) s) (t := []).
  - unfold log_pieces, wrap_pieces. destruct (max_log_width <? py_len line).
    + eapply bind_run.
      * eapply bind_run; [ apply for_each_pure; intros; apply push_step | reflexivity | reflexivity].
      * rewrite evict_run, foldl_set_logs, foldl_app. reflexivity.
      * reflexivity.
    + apply push_step.
  - eapply bind_run; [reflexivity | | reflexivity].
    eapply bind_run; [reflexivity | reflexivity | reflexivity].
  - reflexivity.
Qed.

Lemma py_index_last (n : nat) :
  py_index (Z.of_nat (S n)) (-1) = Some n.
Proof.
  unfold py_index. change (-1 <? 0) with true. cbv iota.
  replace (-1 + Z.of_nat (S n)) with (Z.of_nat n) by lia.
  rewrite Nat2Z.id.
  destruct (Z.leb_spec 0 (Z.of_nat n)); [|lia].
  destruct (Z.ltb_spec (Z.of_nat n) (Z.of_nat (S n))); [reflexivity|lia].
Qed.

Lemma insert_last {A} (pre : list A) (x y : A) :
  <[length pre := y]> (pre ++ [x]) = pre ++ [y].
Proof. induction pre as [|a pre IH]; simpl; [reflexivity|]. f_equal. exact IH. Qed.

Lemma last_cases {A} (l : list A) : l = [] \/ exists pre x, l = pre ++ [x].
Proof.
  destruct l as [|a l] using rev_ind; [left; reflexivity|].
  right. eauto.
Qed.

Lemma log_append_eq s line pre x :
  logs s = pre ++ [x] ->
  log line "append" s
  = mkRes (Ret tt)
      (set_log_window (String.concat newline (pre ++ [x +:+ line]))
         (set_logs (pre ++ [x +:+ line]) s))
      [EvLog line "append"; EvProcessEvents].
Proof.
  intros Hl. unfold log, mbind, M_bind.
  eapply bind_run; [reflexivity | | reflexivity].
  change (("append" =? "newline")%string) with false.
  change (("append" =? "append")%string) with true. cbv iota.
  eapply bind_run with (s' := set_logs (pre ++ [x +:+ line]) s) (t := []).
  - eapply bind_run; [reflexivity | | reflexivity].
    rewrite Hl, length_app.
    replace (length pre + length [x])%nat with (S (length pre))
      by (simpl; lia).
    rewrite py_index_last.
    rewrite list_lookup_middle by reflexivity.
    rewrite insert_last. reflexivity.
  - eapply bind_run; [reflexivity | | reflexivity].
    eapply bind_run; [reflexivity | reflexivity | reflexivity].
  - reflexivity.
Qed.

Lemma log_overwrite_eq s line pre x :
  logs s = pre ++ [x] ->
  log line "overwrite" s
  = mkRes (Ret tt)
      (set_log_window (String.concat newline (pre ++ [line]))
         (set_logs (pre ++ [line]) s))
      [EvLog line "overwrite"; EvProcessEvents].
Proof.
  intros Hl. unfold log, mbind, M_bind.
  eapply bind_run; [reflexivity | | reflexivity].
  change (("overwrite" =? "newline")%string) with false.
  change (("overwrite" =? "append")%string) with false.
  change (("overwrite" =? "overwrite")%string) with true. cbv iota.
  eapply bind_run with (s' := set_logs (pre ++ [line]) s) (t := []).
  - eapply bind_run; [reflexivity | | reflexivity].
    rewrite Hl, length_app.
    replace (length pre + length [x])%nat with (S (length pre))
      by (simpl; lia).
    rewrite py_index_last, insert_last. reflexivity.
  - eapply bind_run; [reflexivity | | reflexivity].
    eapply bind_run; [reflexivity | reflexivity | reflexivity].
  - reflexivity.
Qed.

(** On an empty buffer both modes raise IndexError and change nothing. *)
Lemma log_append_empty s line :
  logs s = [] ->
  log line "append" s = mkRes (Raise IndexError) s [EvLog line "append"].
Proof.
  intros Hl. unfold log, mbind, M_bind.
  eapply bind_run; [reflexivity | | reflexivity].
  change (("append" =? "newline")%string) with false.
  change (("append" =? "append")%string) with true. cbv iota.
  apply bind_raise. eapply bind_run; [reflexivity | | reflexivity].
  rewrite Hl. reflexivity.
Qed.

Lemma log_overwrite_empty s line :
  logs s = [] ->
  log line "overwrite" s = mkRes (Raise IndexError) s [EvLog line "overwrite"].
Proof.
  intros Hl. unfold log, mbind, M_bind.
  eapply bind_run; [reflexivity | | reflexivity].
  change (("overwrite" =? "newline")%string) with false.
  change (("overwrite" =? "append")%string) with false.
  change (("overwrite" =? "overwrite")%string) with true. cbv iota.
  apply bind_raise. eapply bind_run; [reflexivity | | reflexivity].
  rewrite Hl. reflexivity.
Qed.

(** Any other mode only refreshes the label. *)
Lemma log_other_eq s line mode :
  mode <> "newline" -> mode <> "append" -> mode <> "overwrite" ->
  log line mode s
  = mkRes (Ret tt) (set_log_window (String.concat newline (logs s)) s)
      [EvLog line mode; EvProcessEvents].
Proof.
  intros H1 H2 H3. unfold log, mbind, M_bind.
  apply String.eqb_neq in H1, H2, H3. rewrite H1, H2, H3.
  eapply bind_run; [reflexivity | | reflexivity].
  eapply bind_run; [reflexivity | | reflexivity].
  eapply bind_run; [reflexivity | | reflexivity].
  eapply bind_run; [reflexivity | reflexivity | reflexivity].
Qed.

Lemma length_push ls x :
  (length ls <= 5)%nat -> (length (push ls x) <= 5)%nat.
Proof.
  intros H. unfold push, evict, max_log_lines. rewrite length_app. simpl length.
  destruct (Z.ltb_spec 5 (Z.of_nat (length ls + 1))).
  - rewrite length_delete.
    + rewrite length_app. simpl. lia.
    + destruct ls; simpl; eauto.
  - rewrite length_app. simpl. lia.
Qed.

Lemma length_foldl_push l ls :
  (length ls <= 5)%nat -> (length (foldl push ls l) <= 5)%nat.
Proof.
  revert ls. induction l as [|x l IH]; intros ls H; simpl; [exact H|].
  apply IH, length_push, H.
Qed.

Lemma push_full ls x :
  length ls = 5%nat -> push ls x = tail ls ++ [x].
Proof.
  intros H. unfold push, evict, max_log_lines. rewrite length_app, H. simpl.
  destruct ls; [discriminate|]. reflexivity.
Qed.

(** C2. In every mode a buffer of at most 5 entries has at most 5
    entries after [log]; and one line of at most 100 characters pushed in
    "newline" mode onto a buffer of exactly 5 entries gives that buffer
    without its first entry, followed by the line. *)
Theorem log_keeps_five_lines s line mode :
  (length (logs s) <= 5)%nat ->
  (length (logs (st (log line mode s))) <= 5)%nat
  /\ (mode = "newline" -> (String.length line <= 100)%nat ->
      length (logs s) = 5%nat ->
      logs (st (log line mode s)) = tail (logs s) ++ [line]).
Proof.
  intros Hb. split.
  - destruct (String.eqb_spec mode "newline") as [->|Hn].
    { rewrite log_newline_eq. simpl. apply length_foldl_push, Hb. }
    destruct (String.eqb_spec mode "append") as [->|Ha].
    { destruct (last_cases (logs s)) as [Hl|(pre & x & Hl)].
      - rewrite log_append_empty by exact Hl. exact Hb.
      - rewrite (log_append_eq _ _ _ _ Hl). simpl.
        rewrite Hl in Hb. rewrite length_app in *. exact Hb. }
    destruct (String.eqb_spec mode "overwrite") as [->|Ho].
    { destruct (last_cases (logs s)) as [Hl|(pre & x & Hl)].
      - rewrite log_overwrite_empty by exact Hl. exact Hb.
      - rewrite (log_overwrite_eq _ _ _ _ Hl). simpl.
        rewrite Hl in Hb. rewrite length_app in *. exact Hb. }
    rewrite log_other_eq by assumption. exact Hb.
  - intros -> Hlen H5. rewrite log_newline_eq. simpl.
    unfold log_pieces, max_log_width, py_len.
    destruct (Z.ltb_spec 100 (Z.of_nat (String.length line))); [lia|].
    simpl. apply push_full, H5.
Qed.

(** C3. On a non-empty buffer, "append" mode replaces the last entry by
    that entry followed by the line, and "overwrite" mode replaces it by
    the line; the other entries and the number of entries stay. *)
Theorem log_append_overwrite_last s line :
  logs s <> [] ->
  exists pre x,
    logs s = pre ++ [x]
    /\ out (log line "append" s) = Ret tt
    /\ logs (st (log line "append" s)) = pre ++ [x +:+ line]
    /\ length (logs (st (log line "append" s))) = length (logs s)
    /\ out (log line "overwrite" s) = Ret tt
    /\ logs (st (log line "overwrite" s)) = pre ++ [line]
    /\ length (logs (st (log line "overwrite" s))) = length (logs s).
Proof.
  intros Hne. destruct (last_cases (logs s)) as [Hl|(pre & x & Hl)];
    [contradiction|].
  exists pre, x.
  rewrite (log_append_eq _ line _ _ Hl), (log_overwrite_eq _ line _ _ Hl).
  cbn [out st logs set_log_window set_logs]. rewrite Hl, !length_app.
  repeat split; reflexivity.
Qed.

(** *** The pieces of a wrapped line *)

Lemma length_str_take n str :
  String.length (str_take n str) = Nat.min n (String.length str).
Proof.
  revert str. induction n as [|n IH]; intros [|c str]; simpl; auto.
Qed.

Lemma length_str_drop n str :
  String.length (str_drop n str) = (String.length str - n)%nat.
Proof.
  revert str. induction n as [|n IH]; intros [|c str]; simpl; auto.
Qed.

Lemma length_str_app (a b : string) :
  String.length (a +:+ b) = (String.length a + String.length b)%nat.
Proof. induction a as [|c a IH]; simpl; [reflexivity|]. rewrite IH. reflexivity. Qed.

Lemma length_concat_pieces (l : list string) :
  String.length (String.concat "" l) = list_sum (map String.length l).
Proof.
  induction l as [|x l IH]; [reflexivity|].
  destruct l as [|y l].
  - simpl. lia.
  - change (String.concat "" (x :: y :: l))
      with (x +:+ "" +:+ String.concat "" (y :: l)).
    rewrite !length_str_app, IH. simpl. lia.
Qed.

Lemma length_py_slice lo hi str :
  0 <= lo <= hi -> hi <= py_len str ->
  String.length (py_slice lo (Some hi) str) = Z.to_nat (hi - lo).
Proof.
  intros Hlo Hhi. unfold py_slice, py_slice_bound, py_len in *.
  destruct (Z.ltb_spec lo 0); [lia|].
  destruct (Z.ltb_spec hi 0); [lia|].
  rewrite length_str_take, length_str_drop. lia.
Qed.

Lemma length_py_slice_tail k str :
  0 < k <= py_len str ->
  String.length (py_slice (- k) None str) = Z.to_nat k.
Proof.
  intros Hk. unfold py_slice, py_slice_bound, py_len in *.
  destruct (Z.ltb_spec (- k) 0); [|lia].
  rewrite length_str_take, length_str_drop. lia.
Qed.

Lemma list_sum_const {A} (g : A -> nat) (c : nat) (l : list A) :
  Forall (fun x => g x = c) l -> list_sum (map g l) = (c * length l)%nat.
Proof.
  induction 1 as [|x l Hx _ IH]; simpl; [lia|]. rewrite Hx, IH. lia.
Qed.

(** Every line longer than [max_log_width] is cut into entries of at most
    [max_log_width] characters, and these entries hold one character more
    than the line: the last entry starts one character early. *)
Lemma wrap_pieces_lengths line :
  (100 < String.length line)%nat ->
  Forall (fun p => (String.length p <= 100)%nat) (wrap_pieces line)
  /\ String.length (String.concat "" (wrap_pieces line))
     = S (String.length line).
Proof.
  intros Hlen. unfold wrap_pieces, max_log_width, py_range.
  set (n := py_len line / 100).
  assert (Hn : 0 < n /\ n * 100 <= py_len line < n * 100 + 100).
  { unfold n, py_len in *.
    pose proof (Z.div_mod (Z.of_nat (String.length line)) 100 ltac:(lia)).
    pose proof (Z.mod_pos_bound (Z.of_nat (String.length line)) 100 ltac:(lia)).
    nia. }
  assert (Hfull : Forall (fun l => String.length
                    (py_slice (l * 100) (Some ((l + 1) * 100)) line) = 100%nat)
                    (seqZ 0 n)).
  { apply List.Forall_forall. intros l Hl.
    apply list_elem_of_In, elem_of_seqZ in Hl.
    rewrite length_py_slice by nia.
    replace ((l + 1) * 100 - l * 100) with 100 by lia. reflexivity. }
  assert (Hlast : String.length
            (py_slice (- (py_len line - n * 100) - 1) None line)
          = Z.to_nat (py_len line - n * 100 + 1)).
  { replace (- (py_len line - n * 100) - 1)
      with (- (py_len line - n * 100 + 1)) by lia.
    apply length_py_slice_tail. lia. }
  split.
  - apply Forall_app. split.
    + apply List.Forall_forall. intros p Hp. apply in_map_iff in Hp.
      destruct Hp as (l & <- & Hl).
      rewrite List.Forall_forall in Hfull. rewrite (Hfull l Hl). lia.
    + constructor; [|constructor]. rewrite Hlast. lia.
  - rewrite length_concat_pieces, map_app, list_sum_app, map_map.
    rewrite (list_sum_const _ 100%nat) by exact Hfull.
    rewrite length_seqZ. simpl list_sum. rewrite Hlast.
    unfold py_len in *. lia.
Qed.

(** What is in the buffer after a "newline" call: the entries of the
    line pushed one by one. *)
Lemma logs_after_newline s line :
  logs (st (log line "newline" s)) = foldl push (logs s) (log_pieces line).
Proof. rewrite log_newline_eq. reflexivity. Qed.
End LogProofs.

Section HistoryProofs.
Context {E : Env}.
Implicit Types (s : UI E) (u : Utterance E) (b : QComboBox (pyobj E)).

Lemma register_history s u :
  out (register_utterance u s) = Ret tt
  /\ combos (st (register_utterance u s)) utterance_history
     = registered u (combos s utterance_history).
Proof.
  unfold register_utterance, registered, mbind, M_bind, modify_combo,
    modify_button.
  rewrite !bind_modify, bind_gets. autorewrite with ui.
  unfold when. destruct (max_saved_utterances <? _).
  - rewrite !bind_modify. cbn [out st modify]. autorewrite with ui.
    split; reflexivity.
  - rewrite bind_ret, !bind_modify. cbn [out st modify]. autorewrite with ui.
    split; reflexivity.
Qed.

Lemma cb_items_insert_front t d b :
  cb_items (cb_insertItem 0 t d b) = (t, d) :: cb_items b.
Proof.
  unfold cb_insertItem, cb_with, cb_count. cbn [cb_items].
  replace (Z.max 0 (Z.min 0 (Z.of_nat (length (cb_items b))))) with 0 by lia.
  reflexivity.
Qed.

(** The history after a registration: the new row in front, and the row
    at index [max_saved_utterances] dropped when there is one. *)
Lemma registered_items u b :
  cb_items (registered u b)
  = if (20 <=? length (cb_items b))%nat
    then (name u, Some (PyUtterance u)) :: delete 19%nat (cb_items b)
    else (name u, Some (PyUtterance u)) :: cb_items b.
Proof.
  unfold registered, max_saved_utterances.
  set (b1 := cb_blockSignals false _).
  assert (Hi : cb_items b1 = (name u, Some (PyUtterance u)) :: cb_items b).
  { subst b1. cbn [cb_blockSignals cb_setCurrentIndex cb_with cb_items].
    rewrite cb_items_insert_front. reflexivity. }
  assert (Hc : cb_count b1 = Z.of_nat (length (cb_items b)) + 1).
  { unfold cb_count. rewrite Hi. simpl length. lia. }
  rewrite Hc.
  destruct (Nat.leb_spec 20 (length (cb_items b)));
    destruct (Z.ltb_spec 20 (Z.of_nat (length (cb_items b)) + 1)); try lia.
  - unfold cb_removeItem. rewrite Hc.
    destruct (Z.leb_spec 0 20); [|lia].
    destruct (Z.ltb_spec 20 (Z.of_nat (length (cb_items b)) + 1)); [|lia].
    cbn [andb cb_with cb_items]. rewrite Hi. reflexivity.
  - exact Hi.
Qed.

Lemma registered_current u b : cb_current (registered u b) = 0.
Proof.
  unfold registered, max_saved_utterances.
  set (b0 := cb_insertItem 0 _ _ _).
  assert (Hc : 1 <= cb_count b0).
  { unfold cb_count, b0. rewrite cb_items_insert_front. simpl length. lia. }
  assert (H1 : cb_current (cb_blockSignals false (cb_setCurrentIndex 0 b0)) = 0).
  { cbn [cb_blockSignals cb_setCurrentIndex cb_with cb_current].
    destruct (Z.leb_spec 0 0); [|lia].
    destruct (Z.ltb_spec 0 (cb_count b0)); [reflexivity|lia]. }
  destruct (20 <? _); [|exact H1].
  unfold cb_removeItem.
  destruct (_ && _); [|exact H1].
  cbn [cb_with cb_current]. rewrite H1. reflexivity.
Qed.

Lemma delete_last_row {A} (l : list A) :
  delete (length l - 1)%nat l = removelast l.
Proof.
  destruct l as [|a l _] using rev_ind; [reflexivity|].
  rewrite removelast_last, length_app. simpl length.
  replace (length l + 1 - 1)%nat with (length l) by lia.
  rewrite delete_middle. apply app_nil_r.
Qed.

(** C4. [register_utterance(u)] puts the new utterance at the front of
    the utterance history; a history of at most 20 entries stays within
    20; and on a history of exactly 20 entries the entry dropped is the
    last (oldest) one, the others keeping their order. *)
Theorem register_utterance_bounded_history s u :
  let new_row := (name u, Some (PyUtterance u)) in
  let h := cb_items (combos s utterance_history) in
  let h' := cb_items (combos (st (register_utterance u s))
                             utterance_history) in
  out (register_utterance u s) = Ret tt
  /\ h' !! 0%nat = Some new_row
  /\ ((length h <= 20)%nat -> (length h' <= 20)%nat)
  /\ ((length h < 20)%nat -> h' = new_row :: h)
  /\ (length h = 20%nat -> h' = new_row :: removelast h).
Proof.
  intros new_row h h'.
  destruct (register_history s u) as [Hout Hh].
  assert (Hh' : h' = if (20 <=? length h)%nat
                     then new_row :: delete 19%nat h else new_row :: h).
  { unfold h'. rewrite Hh. apply registered_items. }
  split; [exact Hout|]. rewrite Hh'.
  destruct (Nat.leb_spec 20 (length h)) as [Hge|Hlt].
  - split; [reflexivity|]. split; [|split].
    + intros Hle. assert (Hl : length h = 20%nat) by lia.
      simpl length. rewrite length_delete; [lia|].
      apply lookup_lt_is_Some. lia.
    + intros; lia.
    + intros Hl. f_equal. rewrite <- delete_last_row, Hl. reflexivity.
  - split; [reflexivity|]. split; [|split].
    + intros _. simpl length. lia.
    + reflexivity.
    + intros; lia.
Qed.

(** C5. Right after [register_utterance(u)], [selected_utterance] returns
    [u] itself: the same name, speaker label, spectrogram and
    embeddings. *)
Theorem selected_after_register s u :
  out (selected_utterance (st (register_utterance u s)))
  = Ret (Some (PyUtterance u)).
Proof.
  unfold selected_utterance, gets. cbn [out]. f_equal.
  destruct (register_history s u) as [_ Hh]. rewrite Hh.
  unfold cb_currentIndex. rewrite registered_current.
  unfold cb_itemData. change (0 <=? 0) with true. cbv iota.
  rewrite registered_items. destruct (20 <=? _)%nat; reflexivity.
Qed.
End HistoryProofs.

Section BoxProofs.
Context {E : Env}.
Implicit Types (s : UI E) (b : QComboBox (pyobj E)) (items : list (item E)).

Lemma bind_pure {A B} (m : M A) (f : A -> M B) s a s' :
  m s = mkRes (Ret a) s' [] -> bind m f s = f a s'.
Proof.
  intros Hm. unfold bind. rewrite Hm. simpl. destruct (f a s'); reflexivity.
Qed.

Lemma repopulate_box_run randint box items random s :
  repopulate_box randint box items random s
  = mkRes (Ret tt) (repopulate_state randint box items random s) [].
Proof.
  unfold repopulate_box, repopulate_state, mbind, M_bind, modify_combo.
  rewrite !bind_modify.
  erewrite bind_pure
    by (apply for_each_pure
          with (g := fun it => upd_combo box
                        (cb_addItem (item_text it) (item_data it)));
        reflexivity).
  unfold when. destruct (0 <? _).
  - rewrite !bind_modify. reflexivity.
  - rewrite bind_ret, bind_modify. reflexivity.
Qed.

Lemma combos_add_items box items s :
  combos (foldl (fun s it =>
                   upd_combo box (cb_addItem (item_text it) (item_data it)) s)
                s items) box
  = foldl (fun b it => cb_addItem (item_text it) (item_data it) b)
          (combos s box) items.
Proof.
  revert s. induction items as [|it items IH]; intros s; simpl; [reflexivity|].
  rewrite IH, combos_upd_combo_eq. reflexivity.
Qed.

Lemma combos_add_items_ne box items s k :
  box <> k ->
  combos (foldl (fun s it =>
                   upd_combo box (cb_addItem (item_text it) (item_data it)) s)
                s items) k
  = combos s k.
Proof.
  intros Hk. revert s. induction items as [|it items IH]; intros s; simpl;
    [reflexivity|].
  rewrite IH, combos_upd_combo_ne by assumption. reflexivity.
Qed.

Lemma umap_hot_add_items box items s :
  umap_hot (foldl (fun s it =>
                   upd_combo box (cb_addItem (item_text it) (item_data it)) s)
                s items)
  = umap_hot s.
Proof.
  revert s. induction items as [|it items IH]; intros s; simpl; [reflexivity|].
  rewrite IH. reflexivity.
Qed.

(** Rows added at the end of a box whose current row is the first one
    (or that is empty). *)
Lemma add_items_rows items b :
  cb_current b = (if cb_count b =? 0 then -1 else 0) ->
  let b' := foldl (fun b it => cb_addItem (item_text it) (item_data it) b)
                  b items in
  cb_items b' = cb_items b ++ map (fun it => (item_text it, item_data it)) items
  /\ cb_current b' = (if cb_count b' =? 0 then -1 else 0)
  /\ cb_disabled b' = cb_disabled b
  /\ cb_signals_blocked b' = cb_signals_blocked b.
Proof.
  revert b. induction items as [|it items IH]; intros b Hb; simpl.
  - rewrite app_nil_r. auto.
  - set (b1 := cb_addItem (item_text it) (item_data it) b).
    assert (H1 : cb_items b1 = cb_items b ++ [(item_text it, item_data it)]).
    { unfold b1, cb_addItem, cb_insertItem, cb_with, cb_count. cbn [cb_items].
      replace (Z.max 0 (Z.min _ _)) with (Z.of_nat (length (cb_items b))) by lia.
      rewrite Nat2Z.id, take_ge, drop_ge by lia. reflexivity. }
    assert (H2 : cb_current b1 = 0).
    { unfold b1, cb_addItem, cb_insertItem, cb_with. cbn [cb_current].
      rewrite Hb. unfold cb_count.
      replace (Z.max 0 (Z.min _ _)) with (Z.of_nat (length (cb_items b))) by lia.
      destruct (cb_items b) as [|x l]; [reflexivity|].
      simpl length. rewrite Nat2Z.inj_succ.
      destruct (Z.eqb_spec (Z.succ (Z.of_nat (length l))) 0); [lia|].
      change (0 <? 0) with false. cbv iota.
      destruct (Z.leb_spec (Z.succ (Z.of_nat (length l))) 0); [lia|reflexivity]. }
    destruct (IH b1) as (Hi & Hc & Hd & Hs).
    { rewrite H2. unfold cb_count. rewrite H1, length_app. simpl length.
      destruct (Z.eqb_spec (Z.of_nat (length (cb_items b) + 1)) 0); [lia|reflexivity]. }
    rewrite Hi, H1, <- app_assoc. repeat split; assumption.
Qed.

Lemma combos_repopulate_state randint box items random s :
  combos (repopulate_state randint box items random s) box
  = repopulated randint items random.
Proof.
  unfold repopulate_state.
  set (s1 := upd_combo box cb_clear _).
  set (b0 := combos s1 box).
  assert (Hb0 : cb_items b0 = [] /\ cb_current b0 = -1).
  { unfold b0, s1. rewrite combos_upd_combo_eq. split; reflexivity. }
  destruct Hb0 as [Hi0 Hc0].
  destruct (add_items_rows items b0) as (Hi & Hc & _ & _).
  { rewrite Hc0. unfold cb_count. rewrite Hi0. reflexivity. }
  fold b0 in Hi, Hc. rewrite Hi0 in Hi. simpl in Hi.
  set (b1 := foldl _ b0 items) in *.
  assert (Hn : cb_count b1 = Z.of_nat (length items)).
  { unfold cb_count. rewrite Hi, length_map. reflexivity. }
  unfold repopulated.
  destruct (Z.ltb_spec 0 (Z.of_nat (length items))).
  - rewrite !combos_upd_combo_eq, combos_add_items. fold b0 b1.
    unfold cb_blockSignals, cb_setDisabled, cb_setCurrentIndex, cb_with.
    cbn [cb_items cb_current cb_disabled cb_signals_blocked].
    rewrite Hn, Hi.
    destruct (Z.eqb_spec (Z.of_nat (length items)) 0); [lia|]. reflexivity.
  - rewrite !combos_upd_combo_eq, combos_add_items. fold b0 b1.
    unfold cb_blockSignals, cb_setDisabled.
    cbn [cb_items cb_current cb_disabled cb_signals_blocked].
    rewrite Hi, Hc, Hn.
    destruct (Z.eqb_spec (Z.of_nat (length items)) 0); [|lia]. reflexivity.
Qed.

Lemma combos_repopulate_state_ne randint box items random s k :
  box <> k ->
  combos (repopulate_state randint box items random s) k = combos s k.
Proof.
  intros Hk. unfold repopulate_state.
  destruct (0 <? _);
    rewrite ?combos_upd_combo_ne, combos_add_items_ne,
      ?combos_upd_combo_ne by assumption; reflexivity.
Qed.

Lemma umap_hot_repopulate_state randint box items random s :
  umap_hot (repopulate_state randint box items random s) = umap_hot s.
Proof.
  unfold repopulate_state.
  destruct (0 <? _); autorewrite with ui; rewrite umap_hot_add_items;
    reflexivity.
Qed.

Lemma bind_repopulate {B} randint box items random (f : unit -> M B) s :
  bind (repopulate_box randint box items random) f s
  = f tt (repopulate_state randint box items random s).
Proof. apply bind_pure, repopulate_box_run. Qed.

Lemma length_zero_Z {A} (l : list A) : Z.of_nat (length l) = 0 <-> l = [].
Proof. destruct l; simpl; split; intros; (reflexivity || lia || discriminate). Qed.

(** C9. [populate_models] raises exactly when the speaker encoder, the
    emotion encoder or the synthesizer glob matches no file; when it
    returns, the vocoder box ends with the "Griffin-Lim" row, whose data
    is [None], so the box has a row even without any vocoder file. *)
Theorem populate_models_raises_iff (w : World E) run_id models_dir s :
  let r := populate_models w run_id models_dir s in
  let speaker_encoder_fpaths :=
    fs_glob w models_dir (run_id +:+ "/encoder.pt") in
  let emotion_encoder_fpaths :=
    fs_glob w models_dir (run_id +:+ "/**/*.hdf5") in
  let synthesizer_fpaths :=
    fs_glob w models_dir (run_id +:+ "/synthesizer.pt") in
  let vocoder_fpaths := fs_glob w models_dir (run_id +:+ "/vocoder.pt") in
  ((exists e, out r = Raise e)
   <-> speaker_encoder_fpaths = [] \/ emotion_encoder_fpaths = []
       \/ synthesizer_fpaths = [])
  /\ ((forall e, out r <> Raise e) -> out r = Ret tt)
  /\ (out r = Ret tt ->
      cb_items (combos (st r) vocoder_box)
      = map (fun f => (path_name E (path_parent E f), Some (PyPath f)))
            vocoder_fpaths
        ++ [("Griffin-Lim", None)]
      /\ cb_disabled (combos (st r) vocoder_box) = false).
Proof.
  intros r enc emo syn voc. subst r.
  unfold populate_models, mbind, M_bind. cbv zeta. fold enc emo syn voc.
  unfold when.
  destruct (Z.eqb_spec (Z.of_nat (length enc)) 0) as [H1|H1].
  { rewrite bind_raise_l. cbn [out]. apply length_zero_Z in H1.
    split; [|split]; try discriminate.
    - split; eauto.
    - intros H. exfalso. eapply H. reflexivity. }
  rewrite bind_ret, bind_repopulate.
  destruct (Z.eqb_spec (Z.of_nat (length emo)) 0) as [H2|H2].
  { rewrite bind_raise_l. cbn [out]. apply length_zero_Z in H2.
    split; [|split]; try discriminate.
    - split; eauto.
    - intros H. exfalso. eapply H. reflexivity. }
  rewrite bind_ret, bind_repopulate.
  destruct (Z.eqb_spec (Z.of_nat (length syn)) 0) as [H3|H3].
  { rewrite bind_raise_l. cbn [out]. apply length_zero_Z in H3.
    split; [|split]; try discriminate.
    - split; eauto.
    - intros H. exfalso. eapply H. reflexivity. }
  rewrite bind_ret, bind_repopulate, repopulate_box_run. cbn [out st].
  rewrite length_zero_Z in H1, H2, H3.
  split; [|split].
  - split; [intros [e He]; discriminate | tauto].
  - reflexivity.
  - intros _. rewrite combos_repopulate_state. unfold repopulated.
    cbn [cb_items cb_disabled]. split.
    + rewrite map_app, map_map. reflexivity.
    + rewrite length_app. simpl length.
      destruct (Z.eqb_spec (Z.of_nat (length (map
        (fun f => ItemPair (path_name E (path_parent E f)) (Some f)) voc) + 1)) 0);
        [lia|reflexivity].
Qed.
End BoxProofs.

Section BrowserProofs.
Context {E : Env}.
Implicit Types (s : UI E) (w : World E).



End BrowserProofs.

Section QuietProofs.
Context {E : Env}.
Implicit Types (s : UI E) (w : World E).

Lemma first_time_notices_app (t1 t2 : list (event E)) :
  first_time_notices (t1 ++ t2)
  = (first_time_notices t1 + first_time_notices t2)%nat.
Proof. unfold first_time_notices. rewrite List.filter_app, length_app. reflexivity. Qed.

Lemma quiet_ret {A} (a : A) : quiet (ret (E:=E) a).
Proof. intros s. split; reflexivity. Qed.

Lemma quiet_raise {A} (e : exn) : quiet (raise (E:=E) (A:=A) e).
Proof. intros s. split; reflexivity. Qed.

Lemma quiet_gets {A} (g : UI E -> A) : quiet (gets g).
Proof. intros s. split; reflexivity. Qed.

Lemma quiet_modify (g : UI E -> UI E) :
  (forall s, umap_hot (g s) = umap_hot s) -> quiet (modify g).
Proof. intros Hg s. split; [apply Hg | reflexivity]. Qed.

Lemma quiet_emit (ev : event E) :
  is_first_time_notice ev = false -> quiet (emit ev).
Proof.
  intros Hev s. split; [reflexivity|].
  unfold first_time_notices. simpl. rewrite Hev. reflexivity.
Qed.

Lemma quiet_bind {A B} (m : M (E:=E) A) (f : A -> M (E:=E) B) :
  quiet m -> (forall a, quiet (f a)) -> quiet (bind m f).
Proof.
  intros Hm Hf s. unfold bind. destruct (Hm s) as [Hh Ht].
  destruct (out (m s)) as [a|e]; simpl.
  - destruct (Hf a (st (m s))) as [Hh' Ht'].
    rewrite Hh', Hh, first_time_notices_app, Ht, Ht'. split; reflexivity.
  - split; assumption.
Qed.

Lemma quiet_when (c : bool) (m : M (E:=E) unit) : quiet m -> quiet (when c m).
Proof. intros Hm. destruct c; [exact Hm | apply quiet_ret]. Qed.

Lemma quiet_for_each {A} (l : list A) (body : A -> M (E:=E) unit) :
  (forall x, quiet (body x)) -> quiet (for_each l body).
Proof.
  intros Hb. induction l as [|x l IH]; simpl; [apply quiet_ret|].
  apply quiet_bind; [apply Hb | intros; exact IH].
Qed.

Lemma quiet_try_except {A} (m : M (E:=E) A) (h : exn -> M (E:=E) A) :
  quiet m -> (forall e, quiet (h e)) -> quiet (try_except m h).
Proof.
  intros Hm Hh s. unfold try_except. destruct (Hm s) as [Hs Ht].
  destruct (out (m s)) as [a|e]; [split; assumption|]. simpl.
  destruct (Hh e (st (m s))) as [Hs' Ht'].
  rewrite Hs', Hs, first_time_notices_app, Ht, Ht'. split; reflexivity.
Qed.

(** [log] never touches [umap_hot], and its trace holds the notice
    exactly when the line is the notice. *)
Lemma log_hot_trace line mode s :
  umap_hot (st (log line mode s)) = umap_hot s
  /\ first_time_notices (tr (log line mode s))
     = if String.eqb line first_time_msg then 1%nat else 0%nat.
Proof.
  assert (Hc : forall md (t : list (event E)),
             first_time_notices (EvLog line md :: t)
             = ((if String.eqb line first_time_msg then 1 else 0)
                + first_time_notices t)%nat).
  { intros. unfold first_time_notices. simpl.
    destruct (String.eqb line first_time_msg); reflexivity. }
  destruct (String.eqb_spec mode "newline") as [->|Hn].
  { rewrite log_newline_eq. cbn [st tr]. rewrite Hc. split; [reflexivity|].
    destruct (String.eqb line first_time_msg); reflexivity. }
  destruct (String.eqb_spec mode "append") as [->|Ha].
  { destruct (last_cases (logs s)) as [Hl|(pre & x & Hl)].
    - rewrite log_append_empty by exact Hl. cbn [st tr]. rewrite Hc.
      split; [reflexivity|]. destruct (String.eqb line first_time_msg); reflexivity.
    - rewrite (log_append_eq _ _ _ _ Hl). cbn [st tr]. rewrite Hc.
      split; [reflexivity|]. destruct (String.eqb line first_time_msg); reflexivity. }
  destruct (String.eqb_spec mode "overwrite") as [->|Ho].
  { destruct (last_cases (logs s)) as [Hl|(pre & x & Hl)].
    - rewrite log_overwrite_empty by exact Hl. cbn [st tr]. rewrite Hc.
      split; [reflexivity|]. destruct (String.eqb line first_time_msg); reflexivity.
    - rewrite (log_overwrite_eq _ _ _ _ Hl). cbn [st tr]. rewrite Hc.
      split; [reflexivity|]. destruct (String.eqb line first_time_msg); reflexivity. }
  rewrite log_other_eq by assumption. cbn [st tr]. rewrite Hc.
  split; [reflexivity|]. destruct (String.eqb line first_time_msg); reflexivity.
Qed.

Lemma quiet_log line mode :
  String.eqb line first_time_msg = false -> quiet (log (E:=E) line mode).
Proof.
  intros Hl s. destruct (log_hot_trace line mode s) as [Hh Ht].
  rewrite Ht, Hl. split; [exact Hh | reflexivity].
Qed.

Lemma prefix_differs (a b : ascii) (x y : string) :
  Ascii.eqb a b = false -> String.eqb (String a x) (String b y) = false.
Proof. intros H. simpl. rewrite H. reflexivity. Qed.
End QuietProofs.

Ltac head_of t :=
  lazymatch t with
  | ?f _ => head_of f
  | _ => t
  end.

(** One step of a proof that a computation is quiet, following its
    syntax. *)
Ltac quiet_step_with leaf :=
  lazymatch goal with
  | |- quiet (ret _) => apply quiet_ret
  | |- quiet (mret _) => apply quiet_ret
  | |- quiet (raise _) => apply quiet_raise
  | |- quiet (gets _) => apply quiet_gets
  | |- quiet (log _ _) =>
      apply quiet_log; solve [reflexivity | apply prefix_differs; reflexivity]
  | |- quiet (modify _) => apply quiet_modify; intros; reflexivity
  | |- quiet (emit _) => apply quiet_emit; reflexivity
  | |- quiet (when _ _) => apply quiet_when
  | |- quiet (for_each _ _) => apply quiet_for_each; intros
  | |- quiet (try_except _ _) => apply quiet_try_except; [|intros]
  | |- quiet (bind _ _) => apply quiet_bind; [|intros]
  | |- quiet (mbind ?f ?m) => change (quiet (bind m f))
  | |- quiet (match ?x with _ => _ end) => destruct x
  | |- quiet ((fun _ => _) _) => cbv beta
  | |- quiet ?m => first [leaf | let h := head_of m in unfold h]
  end.

Ltac quiet_tac := repeat quiet_step_with fail.

Section QuietMethods.
Context {E : Env}.
Implicit Types (s : UI E) (w : World E).

Lemma quiet_set_loading v m : quiet (set_loading (E:=E) v m).
Proof. quiet_tac. Qed.

Lemma quiet_draw_embed w se ee nm which : quiet (draw_embed w se ee nm which).
Proof. quiet_tac. Qed.

Lemma quiet_draw_spec sp which : quiet (draw_spec (E:=E) sp which).
Proof. quiet_tac. Qed.

Lemma quiet_draw_utterance w u which : quiet (draw_utterance w u which).
Proof. quiet_tac. Qed.

Lemma quiet_save_audio_file w wav sr : quiet (save_audio_file w wav sr).
Proof. quiet_tac. Qed.

Lemma quiet_set_audio_device : quiet (set_audio_device (E:=E)).
Proof. quiet_tac. Qed.

Lemma quiet_setup_audio_devices w sr : quiet (setup_audio_devices w sr).
Proof. quiet_tac. Qed.

Lemma quiet_play w wav sr : quiet (play w wav sr).
Proof. quiet_tac. Qed.

Lemma quiet_stop w : quiet (stop w).
Proof. quiet_tac. Qed.

Lemma quiet_record_one w sr d : quiet (record_one w sr d).
Proof. quiet_tac. Qed.

Lemma quiet_browse_file w : quiet (browse_file w).
Proof. quiet_tac. Qed.

Lemma quiet_repopulate_box randint box items random :
  quiet (repopulate_box (E:=E) randint box items random).
Proof. quiet_tac. Qed.

Lemma quiet_populate_browser w root rec level random :
  quiet (populate_browser w root rec level random).
Proof. quiet_tac. Qed.

Lemma quiet_browser_select_next : quiet (browser_select_next (E:=E)).
Proof. quiet_tac. Qed.

Lemma quiet_populate_models w run_id models_dir :
  quiet (populate_models w run_id models_dir).
Proof. quiet_tac. Qed.

Lemma quiet_register_utterance u : quiet (register_utterance (E:=E) u).
Proof. quiet_tac. Qed.

Lemma quiet_populate_gen_options seed trim :
  quiet (populate_gen_options (E:=E) seed trim).
Proof. quiet_tac. Qed.

Lemma quiet_update_seed_textbox : quiet (update_seed_textbox (E:=E)).
Proof. quiet_tac. Qed.
End QuietMethods.

Section OneShot.
Context {E : Env}.
Implicit Types (s : UI E) (w : World E).

Lemma quiet_spends {A} (m : M (E:=E) A) : quiet m -> spends m.
Proof.
  intros Hm s. destruct (Hm s) as [Hh Ht]. unfold cold. rewrite Hh, Ht.
  simpl. lia.
Qed.

Lemma spends_bind {A B} (m : M (E:=E) A) (f : A -> M (E:=E) B) :
  spends m -> (forall a, spends (f a)) -> spends (bind m f).
Proof.
  intros Hm Hf s. unfold bind. pose proof (Hm s) as H1.
  destruct (out (m s)) as [a|e]; simpl; [|exact H1].
  pose proof (Hf a (st (m s))) as H2.
  rewrite first_time_notices_app. lia.
Qed.

(** Lines 127-130: the notice is logged only while the flag is down, and
    the flag goes up with it. *)
Lemma spends_notice {B} (k : unit -> M (E:=E) B) :
  (forall a, quiet (k a)) ->
  spends (bind (gets umap_hot) (fun hot =>
            bind (when (negb hot)
                    (bind (log first_time_msg "newline")
                          (fun _ => modify (set_umap_hot true)))) k)).
Proof.
  intros Hk s. rewrite bind_gets. unfold when, cold.
  destruct (umap_hot s) eqn:Hs; cbn [negb].
  - rewrite bind_ret. destruct (Hk tt s) as [Hh Ht]. rewrite Hh, Ht, Hs.
    simpl. lia.
  - rewrite bind_assoc.
    rewrite (bind_step _ _ _ _ _ _ (log_newline_eq _ _)).
    cbn [out st tr]. rewrite bind_modify.
    match goal with |- context [k tt ?S] => destruct (Hk tt S) as [Hh Ht] end.
    rewrite first_time_notices_app, Ht, Hh. simpl. lia.
Qed.

Lemma spends_draw_umap_block w ax embed_of title us :
  spends (draw_umap_block w ax embed_of title us).
Proof.
  unfold draw_umap_block. cbv zeta.
  change (spends (bind ?m ?f)) with (spends (bind m f)).
  unfold mbind, M_bind.
  apply spends_bind; [apply quiet_spends; quiet_tac | intros _].
  apply spends_bind; [apply quiet_spends; quiet_tac | intros colors].
  apply spends_bind; [| intros _; apply quiet_spends; quiet_tac].
  destruct (_ <? _); [apply quiet_spends; quiet_tac|].
  apply spends_notice. intros _. quiet_tac.
Qed.

Lemma spends_draw_umap_projections w us : spends (draw_umap_projections w us).
Proof.
  unfold draw_umap_projections, mbind, M_bind.
  apply spends_bind; [|intros _]; apply spends_draw_umap_block.
Qed.

(** With no utterance nothing is projected and the flag is not read. *)
Lemma quiet_draw_umap_block_nil w ax embed_of title :
  quiet (draw_umap_block w ax embed_of title []).
Proof.
  unfold draw_umap_block. cbn [map length np_unique foldr color_dict].
  change (Z.of_nat 0 <? min_umap_points) with true. cbv iota.
  quiet_tac.
Qed.

Lemma quiet_reset_interface w : quiet (reset_interface w).
Proof.
  unfold reset_interface.
  repeat quiet_step_with
    ltac:(idtac; lazymatch goal with
          | |- quiet (draw_umap_block _ _ _ _ []) =>
              apply quiet_draw_umap_block_nil
          end).
Qed.

Lemma quiet_init w :
  umap_hot (st (init w)) = false
  /\ first_time_notices (tr (init w)) = 0%nat.
Proof.
  unfold init.
  assert (Hq : quiet (reset_interface w;; emit EvShow)).
  { unfold mbind, M_bind. apply quiet_bind; [apply quiet_reset_interface|].
    intros _. quiet_tac. }
  destruct (Hq ui_built) as [Hh Ht]. rewrite Hh, Ht. split; reflexivity.
Qed.

Lemma spends_budget {A} (m : M (E:=E) A) (n : nat) s :
  spends m ->
  (umap_hot s = true -> umap_hot (st (m s)) = true)
  /\ (first_time_notices (tr (m s)) + cold (st (m s)) <= cold s + n)%nat.
Proof.
  intros Hm. pose proof (Hm s) as H. split; [|lia].
  intros Hs. unfold cold in H. rewrite Hs in H.
  destruct (umap_hot (st (m s))); [reflexivity|lia].
Qed.

Lemma client_notices_cons (o : op E) ops :
  client_notices (o :: ops)
  = (client_notices [o] + client_notices ops)%nat.
Proof.
  unfold client_notices. simpl.
  destruct o; try reflexivity.
  destruct (String.eqb line first_time_msg); reflexivity.
Qed.

(** What one operation can do to the flag and to the budget. *)
Lemma run_op_budget (o : op E) s :
  (umap_hot s = true -> umap_hot (st (run_op o s)) = true)
  /\ (first_time_notices (tr (run_op o s)) + cold (st (run_op o s))
      <= cold s + client_notices [o])%nat.
Proof.
  destruct o; cbn [run_op];
    try (apply spends_budget, quiet_spends;
         lazymatch goal with
         | |- quiet (draw_utterance _ _ _) => apply quiet_draw_utterance
         | |- quiet (draw_embed _ _ _ _ _) => apply quiet_draw_embed
         | |- quiet (draw_spec _ _) => apply quiet_draw_spec
         | |- quiet (save_audio_file _ _ _) => apply quiet_save_audio_file
         | |- quiet (setup_audio_devices _ _) =>
             apply quiet_setup_audio_devices
         | |- quiet set_audio_device => apply quiet_set_audio_device
         | |- quiet (play _ _ _) => apply quiet_play
         | |- quiet (stop _) => apply quiet_stop
         | |- quiet (repopulate_box _ _ _ _) => apply quiet_repopulate_box
         | |- quiet (populate_browser _ _ _ _ _) =>
             apply quiet_populate_browser
         | |- quiet browser_select_next => apply quiet_browser_select_next
         | |- quiet (populate_models _ _ _) => apply quiet_populate_models
         | |- quiet (register_utterance _) => apply quiet_register_utterance
         | |- quiet (set_loading _ _) => apply quiet_set_loading
         | |- quiet (populate_gen_options _ _) =>
             apply quiet_populate_gen_options
         | |- quiet update_seed_textbox => apply quiet_update_seed_textbox
         | |- quiet (reset_interface _) => apply quiet_reset_interface
         end).
  - apply spends_budget, spends_draw_umap_projections.
  - apply spends_budget, quiet_spends. unfold discard.
    apply quiet_bind; [apply quiet_record_one | intros; apply quiet_ret].
  - apply spends_budget, quiet_spends. unfold discard.
    apply quiet_bind; [apply quiet_browse_file | intros; apply quiet_ret].
  - destruct (log_hot_trace line mode s) as [Hh Ht]. rewrite Ht.
    unfold cold, client_notices. rewrite Hh. cbn [List.filter].
    split; [intros Hs; exact Hs|].
    destruct (String.eqb line first_time_msg); simpl; lia.
Qed.

Lemma run_ops_budget (ops : list (op E)) s :
  (umap_hot s = true -> umap_hot (fst (run_ops ops s)) = true)
  /\ (first_time_notices (snd (run_ops ops s)) + cold (fst (run_ops ops s))
      <= cold s + client_notices ops)%nat.
Proof.
  revert s. induction ops as [|o ops IH]; intros s.
  - simpl. split; [auto | unfold client_notices; simpl; lia].
  - cbn [run_ops].
    destruct (run_op_budget o s) as [H1 H2].
    destruct (IH (st (run_op o s))) as [H3 H4].
    destruct (run_ops ops (st (run_op o s))) as [s' t] eqn:Hr.
    cbn [fst snd] in *. rewrite first_time_notices_app, client_notices_cons.
    split; [auto | lia].
Qed.

(** C6. [umap_hot] is one-shot: it is [False] after construction; once
    it is [True] no operation of the UI, and so no sequence of them,
    sets it back to [False]; and in a whole session the "first time"
    message is logged at most once, not counting the times the client
    passes that very line to [log] itself. *)
Theorem umap_hot_is_one_shot :
  (forall w, umap_hot (st (init w)) = false)
  /\ (forall (o : op E) s,
        umap_hot s = true -> umap_hot (st (run_op o s)) = true)
  /\ (forall (ops : list (op E)) s,
        umap_hot s = true -> umap_hot (fst (run_ops ops s)) = true)
  /\ (forall w (ops : list (op E)),
        (first_time_notices (snd (session w ops))
         <= 1 + client_notices ops)%nat).
Proof.
  split; [|split; [|split]].
  - intros w. apply quiet_init.
  - intros o s. apply run_op_budget.
  - intros ops s. apply run_ops_budget.
  - intros w ops. unfold session.
    destruct (quiet_init w) as [Hh Ht].
    destruct (run_ops_budget ops (st (init w))) as [_ H].
    destruct (run_ops ops (st (init w))) as [s' t] eqn:Hr.
    cbn [fst snd] in *. rewrite first_time_notices_app, Ht.
    unfold cold in H at 2. rewrite Hh in H. lia.
Qed.
End OneShot.

Section AudioProofs.
Context {E : Env}.
Implicit Types (s : UI E) (w : World E).


End AudioProofs.

Section UmapProofs.
Context {E : Env}.
Implicit Types (s : UI E) (w : World E) (us : list (Utterance E)).

Lemma length_unique_insert x l :
  (length (unique_insert x l) <= S (length l))%nat.
Proof.
  induction l as [|y l IH]; simpl; [lia|].
  destruct (String.compare x y); simpl; lia.
Qed.

Lemma length_np_unique l : (length (np_unique l) <= length l)%nat.
Proof.
  induction l as [|x l IH]; simpl; [lia|].
  pose proof (length_unique_insert x (np_unique l)). unfold np_unique in *. lia.
Qed.

(** The dict comprehension succeeds as long as the speakers fit in the
    14 rows of [colormap]. *)
Lemma color_dict_fits i speakers d0 :
  (i + length speakers <= 14)%nat ->
  exists d, color_dict i speakers d0 = Some d.
Proof.
  revert i d0. induction speakers as [|sp rest IH]; intros i d0 Hi; simpl.
  - eauto.
  - destruct (lookup_lt_is_Some_2 colormap i) as [c Hc].
    { change (length colormap) with 14%nat. simpl in Hi. lia. }
    rewrite Hc. apply IH. simpl in Hi. lia.
Qed.

(** And it raises IndexError as soon as they do not. *)
Lemma color_dict_overflow i speakers d0 :
  (i <= 14)%nat -> (14 < i + length speakers)%nat ->
  color_dict i speakers d0 = None.
Proof.
  revert i d0. induction speakers as [|sp rest IH]; intros i d0 Hi Hover;
    simpl in *.
  - lia.
  - destruct (colormap !! i) as [c|] eqn:Hc; [|reflexivity].
    apply lookup_lt_Some in Hc. change (length colormap) with 14%nat in Hc.
    apply IH; lia.
Qed.

(** One block with fewer than [min_umap_points] utterances: the message
    is drawn on cleared axes, nothing else changes. *)
Lemma draw_umap_block_few w ax embed_of title us s :
  Z.of_nat (length us) < min_umap_points ->
  exists s',
    draw_umap_block w ax embed_of title us s
    = mkRes (Ret tt) s' [EvCanvasDraw (figure_of ax)]
    /\ umap_hot s' = umap_hot s
    /\ ax_texts (axes s' ax)
       = [{| tx_x := 1 # 2; tx_y := 1 # 2;
             tx_s := add_points_msg (min_umap_points - Z.of_nat (length us));
             tx_horizontalalignment := "center"; tx_fontsize := 15 |}]
    /\ ax_scatters (axes s' ax) = []
    /\ (forall k, ax <> k -> axes s' k = axes s k).
Proof.
  intros Hfew. unfold draw_umap_block. cbv zeta.
  unfold mbind, M_bind, modify_axes, canvas_draw.
  rewrite bind_modify.
  destruct (color_dict_fits 0 (np_unique (map speaker_name us)) ∅) as [d Hd].
  { pose proof (length_np_unique (map speaker_name us)).
    rewrite length_map in *. unfold min_umap_points in Hfew. lia. }
  rewrite Hd, bind_ret.
  destruct (Z.ltb_spec (Z.of_nat (length us)) min_umap_points); [|lia].
  rewrite !bind_modify. eexists. split; [reflexivity|].
  autorewrite with ui. cbn [ax_texts ax_scatters ax_set_yticks ax_set_xticks
                            ax_set_aspect ax_text ax_clear app].
  repeat split; try reflexivity.
  intros k Hk. rewrite !axes_upd_axes_ne by assumption. reflexivity.
Qed.

(** With fewer than [min_umap_points] utterances no projection is
    computed, the "Add N more points" message is drawn on both axes and
    [umap_hot] stays as it is. *)
Lemma draw_umap_projections_few w us s :
  Z.of_nat (length us) < min_umap_points ->
  let r := draw_umap_projections w us s in
  let msg := {| tx_x := 1 # 2; tx_y := 1 # 2;
                tx_s := add_points_msg
                          (min_umap_points - Z.of_nat (length us));
                tx_horizontalalignment := "center"; tx_fontsize := 15 |} in
  out r = Ret tt
  /\ projections_computed (tr r) = 0%nat
  /\ umap_hot (st r) = umap_hot s
  /\ ax_texts (axes (st r) speaker_umap_ax) = [msg]
  /\ ax_texts (axes (st r) emotion_umap_ax) = [msg]
  /\ ax_scatters (axes (st r) speaker_umap_ax) = []
  /\ ax_scatters (axes (st r) emotion_umap_ax) = [].
Proof.
  intros Hfew r msg. subst r. unfold draw_umap_projections, mbind, M_bind.
  destruct (draw_umap_block_few w speaker_umap_ax
              (fun u => Some (speaker_embed u)) "Speaker Embedding UMAP"
              us s Hfew) as (s1 & Hr1 & Hh1 & Ht1 & Hs1 & Hf1).
  destruct (draw_umap_block_few w emotion_umap_ax emotion_embed
              "Emotion Embedding UMAP" us s1 Hfew)
    as (s2 & Hr2 & Hh2 & Ht2 & Hs2 & Hf2).
  rewrite (bind_step _ _ _ _ _ _ Hr1), Hr2. cbn [out st tr].
  rewrite Hh2, Hh1, Ht2, Hs2, (Hf2 speaker_umap_ax), Ht1, Hs1 by discriminate.
  repeat split; reflexivity.
Qed.

(** With more speakers than rows in [colormap] the first block stops at
    the dict comprehension: IndexError, no projection, no point. *)
Lemma draw_umap_projections_too_many_speakers w us s :
  (14 < length (np_unique (map speaker_name us)))%nat ->
  let r := draw_umap_projections w us s in
  out r = Raise IndexError
  /\ projections_computed (tr r) = 0%nat
  /\ umap_hot (st r) = umap_hot s
  /\ ax_scatters (axes (st r) speaker_umap_ax) = [].
Proof.
  intros Hmany r. subst r.
  unfold draw_umap_projections, draw_umap_block, mbind, M_bind, modify_axes.
  cbv zeta. rewrite bind_assoc, bind_modify.
  rewrite color_dict_overflow by (simpl; lia).
  rewrite bind_assoc, bind_raise_l. cbn [out st tr].
  autorewrite with ui. repeat split; reflexivity.
Qed.

(** *** The block that plots *)

Lemma In_unique_insert x y l :
  In y (unique_insert x l) <-> y = x \/ In y l.
Proof.
  induction l as [|z l IH]; simpl; [intuition congruence|].
  destruct (String.compare x z) eqn:Hc; simpl.
  - apply String.compare_eq_iff in Hc. subst. intuition congruence.
  - intuition congruence.
  - rewrite IH. intuition congruence.
Qed.

Lemma In_np_unique y l : In y (np_unique l) <-> In y l.
Proof.
  induction l as [|x l IH]; simpl; [tauto|].
  rewrite In_unique_insert. unfold np_unique in IH. rewrite IH.
  intuition congruence.
Qed.

Lemma color_dict_keys i speakers d0 d x :
  color_dict i speakers d0 = Some d ->
  In x speakers \/ is_Some (d0 !! x) -> is_Some (d !! x).
Proof.
  revert i d0. induction speakers as [|sp rest IH]; intros i d0 Hd Hx;
    simpl in Hd.
  - inversion Hd; subst. destruct Hx as [[]|Hx]. exact Hx.
  - destruct (colormap !! i) as [c|]; [|discriminate].
    apply (IH _ _ Hd). destruct Hx as [[->|Hx]|Hx].
    + right. rewrite lookup_insert_eq. eauto.
    + left. exact Hx.
    + right. rewrite lookup_insert_is_Some. destruct (decide (sp = x)); auto.
Qed.

Lemma colors_of_total (d : gmap string rgb) us :
  (forall u, In u us -> is_Some (d !! speaker_name u)) ->
  exists cs, colors_of d us = Some cs /\ length cs = length us.
Proof.
  induction us as [|u us IH]; intros Hd; simpl.
  - exists []. auto.
  - destruct (Hd u) as [c Hc]; [left; reflexivity|].
    destruct IH as (cs & Hcs & Hl); [intros; apply Hd; right; assumption|].
    rewrite Hc, Hcs. exists (c :: cs). simpl. auto.
Qed.

Lemma for_each_run {A} (l : list A) (body : A -> M unit)
    (g : A -> UI E -> UI E) (t : A -> list (event E)) :
  (forall x s, body x s = mkRes (Ret tt) (g x s) (t x)) ->
  forall s,
    for_each l body s
    = mkRes (Ret tt) (foldl (fun s x => g x s) s l) (concat (map t l)).
Proof.
  intros Hbody. induction l as [|x l IH]; intros s; simpl; [reflexivity|].
  eapply bind_run; [apply Hbody | apply IH | reflexivity].
Qed.

Lemma plot_turn_run ax n (p : Z * (Coord E * Coord E * rgb * string)) s :
  (let '(i, (x, y, c, m)) := p in
   bind (modify_axes ax (ax_scatter
           {| sc_x := x; sc_y := y; sc_c := c; sc_marker := m |}))
        (fun _ => set_loading i n)) s
  = mkRes (Ret tt) (plot_turn ax n p s) [EvProcessEvents].
Proof.
  destruct p as [i [[[x y] c] m]].
  unfold set_loading, loading_bar_update, modify_axes, mbind, M_bind.
  rewrite !bind_modify. reflexivity.
Qed.

Lemma plot_turns_frame ax n l s :
  let s' := foldl (fun s p => plot_turn ax n p s) s l in
  umap_hot s' = umap_hot s
  /\ length (ax_scatters (axes s' ax))
     = (length (ax_scatters (axes s ax)) + length l)%nat
  /\ ax_texts (axes s' ax) = ax_texts (axes s ax)
  /\ (forall k, ax <> k -> axes s' k = axes s k).
Proof.
  revert s. induction l as [|p l IH]; intros s; cbn [foldl].
  - repeat split; auto; simpl; lia.
  - destruct (IH (plot_turn ax n p s)) as (Hh & Hs & Ht & Hf).
    cbv zeta. rewrite Hh, Hs, Ht.
    destruct p as [i [[[x y] c] m]]. unfold plot_turn.
    autorewrite with ui. cbn [ax_scatter ax_scatters ax_texts].
    rewrite length_app. simpl length.
    repeat split; try reflexivity; try lia.
    intros k Hk. rewrite Hf by assumption. unfold plot_turn.
    autorewrite with ui. rewrite axes_upd_axes_ne by assumption.
    reflexivity.
Qed.

Lemma loop_events {A} (l : list A) (t : list (event E)) :
  projections_computed
    (concat (map (fun _ => [EvProcessEvents]) l) ++ t)
  = projections_computed t
  /\ first_time_notices
       (concat (map (fun _ => [EvProcessEvents]) l) ++ t)
     = first_time_notices t.
Proof.
  induction l as [|x l [IH1 IH2]]; [split; reflexivity|].
  unfold projections_computed, first_time_notices in *. simpl. auto.
Qed.

(** One block with at least [min_umap_points] utterances of at most 14
    speakers, when the reducer returns one row per embedding: one
    projection is computed and one point is plotted per utterance. *)
Lemma draw_umap_block_plots w ax embed_of title us s pts :
  min_umap_points <= Z.of_nat (length us) ->
  (length (np_unique (map speaker_name us)) <= 14)%nat ->
  umap_fit_transform w (ceil_sqrt (Z.of_nat (length (map embed_of us))))
                     (map embed_of us) = Ret pts ->
  length pts = length us ->
  let r := draw_umap_block w ax embed_of title us s in
  out r = Ret tt
  /\ umap_hot (st r) = true
  /\ projections_computed (tr r) = 1%nat
  /\ first_time_notices (tr r) = cold s
  /\ length (ax_scatters (axes (st r) ax)) = length us
  /\ ax_texts (axes (st r) ax) = []
  /\ (forall k, ax <> k -> axes (st r) k = axes s k).
Proof.
  intros Hmany Hfit Hfit_ok Hrows r. subst r.
  unfold draw_umap_block. cbv zeta.
  unfold mbind, M_bind, modify_axes, canvas_draw.
  rewrite bind_modify.
  destruct (color_dict_fits 0 (np_unique (map speaker_name us)) ∅) as [d Hd];
    [simpl; lia|].
  rewrite Hd, bind_ret.
  destruct (Z.ltb_spec (Z.of_nat (length us)) min_umap_points); [lia|].
  destruct (colors_of_total d us) as (cs & Hcs & Hlen).
  { intros u Hu. apply (color_dict_keys _ _ _ _ _ Hd). left.
    apply In_np_unique, in_map, Hu. }
  rewrite bind_assoc, bind_gets, bind_assoc.
  match goal with
  | |- context [bind (when _ _) ?K _] => set (tail := K)
  end.
  assert (Htail : forall S, exists S' T',
             tail tt S = mkRes (Ret tt) S' T'
             /\ umap_hot S' = umap_hot S
             /\ projections_computed T' = 1%nat
             /\ first_time_notices T' = 0%nat
             /\ length (ax_scatters (axes S' ax))
                = (length (ax_scatters (axes S ax)) + length us)%nat
             /\ ax_texts (axes S' ax) = ax_texts (axes S ax)
             /\ (forall k, ax <> k -> axes S' k = axes S k)).
  { intros S. subst tail. cbv beta.
    rewrite bind_assoc, bind_emit, bind_assoc, Hfit_ok, bind_ret.
    rewrite bind_assoc, Hcs, bind_ret, bind_assoc.
    set (points := zip (zip pts cs) _).
    assert (Hpoints : length points = length us).
    { unfold points. rewrite !length_zip, length_map. lia. }
    rewrite (bind_step _ _ _ _ _ _
               (for_each_run _ _ (plot_turn ax (Z.of_nat (length pts)))
                  (fun _ => [EvProcessEvents])
                  (plot_turn_run ax (Z.of_nat (length pts))) _)).
    unfold set_loading, loading_bar_update, mbind, M_bind.
    cbn [out st tr]. mrun.
    destruct (plot_turns_frame ax (Z.of_nat (length pts))
                (zip (seqZ 1 (Z.of_nat (length points))) points) S)
      as (Hh & Hs & Ht & Hf).
    cbv zeta in Hh, Hs, Ht, Hf.
    eexists _, _. split; [reflexivity|].
    cbn [out st tr]. autorewrite with ui.
    cbn [ax_scatters ax_texts ax_set_title ax_set_aspect ax_set_xticks
         ax_set_yticks].
    destruct (loop_events (zip (seqZ 1 (Z.of_nat (length points))) points)
                [EvProcessEvents; EvCanvasDraw (figure_of ax)]) as [He1 He2].
    unfold projections_computed, first_time_notices in *.
    cbn [List.filter is_first_time_notice length]. rewrite He1, He2.
    rewrite Hh, Hs, Ht, length_zip, length_seqZ, Nat2Z.id, Hpoints.
    split; [reflexivity|]. split; [reflexivity|]. split; [reflexivity|].
    split; [lia|]. split; [reflexivity|].
    intros k Hk.
    repeat first [ rewrite axes_upd_axes_ne by assumption
                 | progress (autorewrite with ui) ].
    rewrite <- Hpoints. apply Hf, Hk. }
  unfold when, cold.
  destruct (umap_hot s) eqn:Hhot; autorewrite with ui; rewrite Hhot;
    cbn [negb].
  - destruct (Htail (upd_axes ax ax_clear s))
      as (S1 & T1 & Hr1 & Hh1 & Hp1 & Hn1 & Hs1 & Ht1 & Hf1).
    autorewrite with ui in *. cbn [ax_clear ax_scatters ax_texts] in *.
    rewrite bind_ret, Hr1. cbn [out st tr].
    rewrite Hh1, Hp1, Hn1, Hs1, Ht1, Hhot.
    repeat split; try reflexivity.
    intros k Hk. rewrite Hf1, axes_upd_axes_ne by assumption. reflexivity.
  - rewrite bind_assoc, (bind_step _ _ _ _ _ _ (log_newline_eq _ _)),
      bind_modify.
    match goal with
    | |- context [tail tt ?S] =>
        destruct (Htail S)
          as (S1 & T1 & Hr1 & Hh1 & Hp1 & Hn1 & Hs1 & Ht1 & Hf1)
    end.
    autorewrite with ui in *. cbn [ax_clear ax_scatters ax_texts] in *.
    rewrite Hr1. cbn [out st tr].
    rewrite Hh1, Hs1, Ht1.
    unfold projections_computed, first_time_notices in *.
    rewrite !List.filter_app, !length_app, Hp1, Hn1.
    repeat split; try reflexivity.
    intros k Hk. rewrite Hf1 by assumption. autorewrite with ui.
    rewrite axes_upd_axes_ne by assumption. reflexivity.
Qed.

(** Both blocks: with at least [min_umap_points] utterances of at most
    14 speakers, and a reducer that returns one row per embedding, two
    projections are computed, one point per utterance is plotted on each
    axes, the flag is up afterwards and the notice was logged exactly
    when the flag was down before. *)
Lemma draw_umap_projections_plots w us s pts1 pts2 :
  min_umap_points <= Z.of_nat (length us) ->
  (length (np_unique (map speaker_name us)) <= 14)%nat ->
  umap_fit_transform w
    (ceil_sqrt (Z.of_nat (length (map (fun u => Some (speaker_embed u)) us))))
    (map (fun u => Some (speaker_embed u)) us) = Ret pts1 ->
  length pts1 = length us ->
  umap_fit_transform w
    (ceil_sqrt (Z.of_nat (length (map emotion_embed us))))
    (map emotion_embed us) = Ret pts2 ->
  length pts2 = length us ->
  let r := draw_umap_projections w us s in
  out r = Ret tt
  /\ umap_hot (st r) = true
  /\ projections_computed (tr r) = 2%nat
  /\ first_time_notices (tr r) = cold s
  /\ length (ax_scatters (axes (st r) speaker_umap_ax)) = length us
  /\ length (ax_scatters (axes (st r) emotion_umap_ax)) = length us.
Proof.
  intros Hmany Hfit H1 Hl1 H2 Hl2 r. subst r.
  unfold draw_umap_projections, mbind, M_bind.
  destruct (draw_umap_block_plots w speaker_umap_ax _
              "Speaker Embedding UMAP" us s pts1 Hmany Hfit H1 Hl1)
    as (Ho1 & Hh1 & Hp1 & Hn1 & Hs1 & _ & Hf1).
  rewrite (bind_out _ _ _ _ Ho1). cbn [out st tr].
  destruct (draw_umap_block_plots w emotion_umap_ax _
              "Emotion Embedding UMAP" us
              (st (draw_umap_block w speaker_umap_ax
                     (fun u => Some (speaker_embed u))
                     "Speaker Embedding UMAP" us s))
              pts2 Hmany Hfit H2 Hl2)
    as (Ho2 & Hh2 & Hp2 & Hn2 & Hs2 & _ & Hf2).
  rewrite Ho2, Hh2, Hs2, (Hf2 speaker_umap_ax), Hs1 by discriminate.
  unfold projections_computed, first_time_notices in *.
  rewrite !List.filter_app, !length_app, Hp1, Hp2, Hn1, Hn2.
  unfold cold. rewrite Hh1. repeat split; try reflexivity. lia.
Qed.
End UmapProofs.

(** ** Further proofs: the rest of the object's state *)

Section MoreFrames.
Context {E : Env}.
Implicit Types (s : UI E).

Lemma logs_set_umap_hot v s : logs (set_umap_hot v s) = logs s.
Proof. reflexivity. Qed.

Lemma logs_set_log_window v s : logs (set_log_window v s) = logs s.
Proof. reflexivity. Qed.

Lemma logs_set_audio_in_device v s : logs (set_audio_in_device v s) = logs s.
Proof. reflexivity. Qed.

Lemma logs_set_suptitle k v s : logs (set_suptitle k v s) = logs s.
Proof. reflexivity. Qed.

Lemma logs_upd_button k f s : logs (upd_button k f s) = logs s.
Proof. reflexivity. Qed.

Lemma logs_upd_checkbox k f s : logs (upd_checkbox k f s) = logs s.
Proof. reflexivity. Qed.

Lemma logs_upd_combo k f s : logs (upd_combo k f s) = logs s.
Proof. reflexivity. Qed.

Lemma logs_upd_axes k f s : logs (upd_axes k f s) = logs s.
Proof. reflexivity. Qed.

Lemma logs_upd_loading_bar f s : logs (upd_loading_bar f s) = logs s.
Proof. reflexivity. Qed.

Lemma logs_upd_seed_textbox f s : logs (upd_seed_textbox f s) = logs s.
Proof. reflexivity. Qed.

Lemma log_window_set_umap_hot v s : log_window (set_umap_hot v s) = log_window s.
Proof. reflexivity. Qed.

Lemma log_window_set_logs v s : log_window (set_logs v s) = log_window s.
Proof. reflexivity. Qed.

Lemma log_window_set_audio_in_device v s : log_window (set_audio_in_device v s) = log_window s.
Proof. reflexivity. Qed.

Lemma log_window_set_suptitle k v s : log_window (set_suptitle k v s) = log_window s.
Proof. reflexivity. Qed.

Lemma log_window_upd_button k f s : log_window (upd_button k f s) = log_window s.
Proof. reflexivity. Qed.

Lemma log_window_upd_checkbox k f s : log_window (upd_checkbox k f s) = log_window s.
Proof. reflexivity. Qed.

Lemma log_window_upd_combo k f s : log_window (upd_combo k f s) = log_window s.
Proof. reflexivity. Qed.

Lemma log_window_upd_axes k f s : log_window (upd_axes k f s) = log_window s.
Proof. reflexivity. Qed.

Lemma log_window_upd_loading_bar f s : log_window (upd_loading_bar f s) = log_window s.
Proof. reflexivity. Qed.

Lemma log_window_upd_seed_textbox f s : log_window (upd_seed_textbox f s) = log_window s.
Proof. reflexivity. Qed.

Lemma loading_bar_set_umap_hot v s : loading_bar (set_umap_hot v s) = loading_bar s.
Proof. reflexivity. Qed.

Lemma loading_bar_set_logs v s : loading_bar (set_logs v s) = loading_bar s.
Proof. reflexivity. Qed.

Lemma loading_bar_set_log_window v s : loading_bar (set_log_window v s) = loading_bar s.
Proof. reflexivity. Qed.

Lemma loading_bar_set_audio_in_device v s : loading_bar (set_audio_in_device v s) = loading_bar s.
Proof. reflexivity. Qed.

Lemma loading_bar_set_suptitle k v s : loading_bar (set_suptitle k v s) = loading_bar s.
Proof. reflexivity. Qed.

Lemma loading_bar_upd_button k f s : loading_bar (upd_button k f s) = loading_bar s.
Proof. reflexivity. Qed.

Lemma loading_bar_upd_checkbox k f s : loading_bar (upd_checkbox k f s) = loading_bar s.
Proof. reflexivity. Qed.

Lemma loading_bar_upd_combo k f s : loading_bar (upd_combo k f s) = loading_bar s.
Proof. reflexivity. Qed.

Lemma loading_bar_upd_axes k f s : loading_bar (upd_axes k f s) = loading_bar s.
Proof. reflexivity. Qed.

Lemma loading_bar_upd_seed_textbox f s : loading_bar (upd_seed_textbox f s) = loading_bar s.
Proof. reflexivity. Qed.

Lemma seed_textbox_set_umap_hot v s : seed_textbox (set_umap_hot v s) = seed_textbox s.
Proof. reflexivity. Qed.

Lemma seed_textbox_set_logs v s : seed_textbox (set_logs v s) = seed_textbox s.
Proof. reflexivity. Qed.

Lemma seed_textbox_set_log_window v s : seed_textbox (set_log_window v s) = seed_textbox s.
Proof. reflexivity. Qed.

Lemma seed_textbox_set_audio_in_device v s : seed_textbox (set_audio_in_device v s) = seed_textbox s.
Proof. reflexivity. Qed.

Lemma seed_textbox_set_suptitle k v s : seed_textbox (set_suptitle k v s) = seed_textbox s.
Proof. reflexivity. Qed.

Lemma seed_textbox_upd_button k f s : seed_textbox (upd_button k f s) = seed_textbox s.
Proof. reflexivity. Qed.

Lemma seed_textbox_upd_checkbox k f s : seed_textbox (upd_checkbox k f s) = seed_textbox s.
Proof. reflexivity. Qed.

Lemma seed_textbox_upd_combo k f s : seed_textbox (upd_combo k f s) = seed_textbox s.
Proof. reflexivity. Qed.

Lemma seed_textbox_upd_axes k f s : seed_textbox (upd_axes k f s) = seed_textbox s.
Proof. reflexivity. Qed.

Lemma seed_textbox_upd_loading_bar f s : seed_textbox (upd_loading_bar f s) = seed_textbox s.
Proof. reflexivity. Qed.

Lemma audio_in_device_set_umap_hot v s : audio_in_device (set_umap_hot v s) = audio_in_device s.
Proof. reflexivity. Qed.

Lemma audio_in_device_set_logs v s : audio_in_device (set_logs v s) = audio_in_device s.
Proof. reflexivity. Qed.

Lemma audio_in_device_set_log_window v s : audio_in_device (set_log_window v s) = audio_in_device s.
Proof. reflexivity. Qed.

Lemma audio_in_device_set_suptitle k v s : audio_in_device (set_suptitle k v s) = audio_in_device s.
Proof. reflexivity. Qed.

Lemma audio_in_device_upd_button k f s : audio_in_device (upd_button k f s) = audio_in_device s.
Proof. reflexivity. Qed.

Lemma audio_in_device_upd_checkbox k f s : audio_in_device (upd_checkbox k f s) = audio_in_device s.
Proof. reflexivity. Qed.

Lemma audio_in_device_upd_combo k f s : audio_in_device (upd_combo k f s) = audio_in_device s.
Proof. reflexivity. Qed.

Lemma audio_in_device_upd_axes k f s : audio_in_device (upd_axes k f s) = audio_in_device s.
Proof. reflexivity. Qed.

Lemma audio_in_device_upd_loading_bar f s : audio_in_device (upd_loading_bar f s) = audio_in_device s.
Proof. reflexivity. Qed.

Lemma audio_in_device_upd_seed_textbox f s : audio_in_device (upd_seed_textbox f s) = audio_in_device s.
Proof. reflexivity. Qed.

Lemma buttons_set_umap_hot v s : buttons (set_umap_hot v s) = buttons s.
Proof. reflexivity. Qed.

Lemma buttons_set_logs v s : buttons (set_logs v s) = buttons s.
Proof. reflexivity. Qed.

Lemma buttons_set_log_window v s : buttons (set_log_window v s) = buttons s.
Proof. reflexivity. Qed.

Lemma buttons_set_audio_in_device v s : buttons (set_audio_in_device v s) = buttons s.
Proof. reflexivity. Qed.

Lemma buttons_set_suptitle k v s : buttons (set_suptitle k v s) = buttons s.
Proof. reflexivity. Qed.

Lemma buttons_upd_checkbox k f s : buttons (upd_checkbox k f s) = buttons s.
Proof. reflexivity. Qed.

Lemma buttons_upd_combo k f s : buttons (upd_combo k f s) = buttons s.
Proof. reflexivity. Qed.

Lemma buttons_upd_axes k f s : buttons (upd_axes k f s) = buttons s.
Proof. reflexivity. Qed.

Lemma buttons_upd_loading_bar f s : buttons (upd_loading_bar f s) = buttons s.
Proof. reflexivity. Qed.

Lemma buttons_upd_seed_textbox f s : buttons (upd_seed_textbox f s) = buttons s.
Proof. reflexivity. Qed.

Lemma checkboxes_set_umap_hot v s : checkboxes (set_umap_hot v s) = checkboxes s.
Proof. reflexivity. Qed.

Lemma checkboxes_set_logs v s : checkboxes (set_logs v s) = checkboxes s.
Proof. reflexivity. Qed.

Lemma checkboxes_set_log_window v s : checkboxes (set_log_window v s) = checkboxes s.
Proof. reflexivity. Qed.

Lemma checkboxes_set_audio_in_device v s : checkboxes (set_audio_in_device v s) = checkboxes s.
Proof. reflexivity. Qed.

Lemma checkboxes_set_suptitle k v s : checkboxes (set_suptitle k v s) = checkboxes s.
Proof. reflexivity. Qed.

Lemma checkboxes_upd_button k f s : checkboxes (upd_button k f s) = checkboxes s.
Proof. reflexivity. Qed.

Lemma checkboxes_upd_combo k f s : checkboxes (upd_combo k f s) = checkboxes s.
Proof. reflexivity. Qed.

Lemma checkboxes_upd_axes k f s : checkboxes (upd_axes k f s) = checkboxes s.
Proof. reflexivity. Qed.

Lemma checkboxes_upd_loading_bar f s : checkboxes (upd_loading_bar f s) = checkboxes s.
Proof. reflexivity. Qed.

Lemma checkboxes_upd_seed_textbox f s : checkboxes (upd_seed_textbox f s) = checkboxes s.
Proof. reflexivity. Qed.

Lemma suptitle_set_umap_hot v s : suptitle (set_umap_hot v s) = suptitle s.
Proof. reflexivity. Qed.

Lemma suptitle_set_logs v s : suptitle (set_logs v s) = suptitle s.
Proof. reflexivity. Qed.

Lemma suptitle_set_log_window v s : suptitle (set_log_window v s) = suptitle s.
Proof. reflexivity. Qed.

Lemma suptitle_set_audio_in_device v s : suptitle (set_audio_in_device v s) = suptitle s.
Proof. reflexivity. Qed.

Lemma suptitle_upd_button k f s : suptitle (upd_button k f s) = suptitle s.
Proof. reflexivity. Qed.

Lemma suptitle_upd_checkbox k f s : suptitle (upd_checkbox k f s) = suptitle s.
Proof. reflexivity. Qed.

Lemma suptitle_upd_combo k f s : suptitle (upd_combo k f s) = suptitle s.
Proof. reflexivity. Qed.

Lemma suptitle_upd_axes k f s : suptitle (upd_axes k f s) = suptitle s.
Proof. reflexivity. Qed.

Lemma suptitle_upd_loading_bar f s : suptitle (upd_loading_bar f s) = suptitle s.
Proof. reflexivity. Qed.

Lemma suptitle_upd_seed_textbox f s : suptitle (upd_seed_textbox f s) = suptitle s.
Proof. reflexivity. Qed.

Lemma logs_set_logs v s : logs (set_logs v s) = v.
Proof. reflexivity. Qed.

Lemma log_window_set_log_window v s : log_window (set_log_window v s) = v.
Proof. reflexivity. Qed.

Lemma audio_in_device_set_audio_in_device v s :
  audio_in_device (set_audio_in_device v s) = Some v.
Proof. reflexivity. Qed.

Lemma loading_bar_upd_loading_bar f s :
  loading_bar (upd_loading_bar f s) = f (loading_bar s).
Proof. reflexivity. Qed.

Lemma seed_textbox_upd_seed_textbox f s :
  seed_textbox (upd_seed_textbox f s) = f (seed_textbox s).
Proof. reflexivity. Qed.

Lemma buttons_upd_button_eq k f s :
  buttons (upd_button k f s) k = f (buttons s k).
Proof. unfold upd_button. simpl. apply fn_lookup_insert. Qed.

Lemma buttons_upd_button_ne k f s k' :
  k <> k' -> buttons (upd_button k f s) k' = buttons s k'.
Proof. intros. unfold upd_button. simpl. apply fn_lookup_insert_ne. assumption. Qed.

Lemma checkboxes_upd_checkbox_eq k f s :
  checkboxes (upd_checkbox k f s) k = f (checkboxes s k).
Proof. unfold upd_checkbox. simpl. apply fn_lookup_insert. Qed.

Lemma checkboxes_upd_checkbox_ne k f s k' :
  k <> k' -> checkboxes (upd_checkbox k f s) k' = checkboxes s k'.
Proof. intros. unfold upd_checkbox. simpl. apply fn_lookup_insert_ne. assumption. Qed.

Lemma suptitle_set_suptitle_eq k v s : suptitle (set_suptitle k v s) k = v.
Proof. simpl. apply fn_lookup_insert. Qed.

Lemma suptitle_set_suptitle_ne k v s k' :
  k <> k' -> suptitle (set_suptitle k v s) k' = suptitle s k'.
Proof. intros. simpl. apply fn_lookup_insert_ne. assumption. Qed.

(** [logged] changes the buffer and the label only. *)
Lemma umap_hot_logged line s : umap_hot (logged line s) = umap_hot s.
Proof. reflexivity. Qed.

Lemma loading_bar_logged line s : loading_bar (logged line s) = loading_bar s.
Proof. reflexivity. Qed.

Lemma seed_textbox_logged line s : seed_textbox (logged line s) = seed_textbox s.
Proof. reflexivity. Qed.

Lemma audio_in_device_logged line s :
  audio_in_device (logged line s) = audio_in_device s.
Proof. reflexivity. Qed.

Lemma buttons_logged line s : buttons (logged line s) = buttons s.
Proof. reflexivity. Qed.

Lemma checkboxes_logged line s : checkboxes (logged line s) = checkboxes s.
Proof. reflexivity. Qed.

Lemma combos_logged line s : combos (logged line s) = combos s.
Proof. reflexivity. Qed.

Lemma axes_logged line s : axes (logged line s) = axes s.
Proof. reflexivity. Qed.

Lemma suptitle_logged line s : suptitle (logged line s) = suptitle s.
Proof. reflexivity. Qed.

Lemma logs_logged line s :
  logs (logged line s) = foldl push (logs s) (log_pieces line).
Proof. reflexivity. Qed.

Lemma log_window_logged line s :
  log_window (logged line s)
  = String.concat newline (foldl push (logs s) (log_pieces line)).
Proof. reflexivity. Qed.

(** *** More ways to run the monad *)

Lemma log_newline_run line s :
  log line "newline" s
  = mkRes (Ret tt) (logged line s) [EvLog line "newline"; EvProcessEvents].
Proof. apply log_newline_eq. Qed.

Lemma bind_log {B} line (f : unit -> M B) s :
  bind (log line "newline") f s
  = prepends [EvLog line "newline"; EvProcessEvents] (f tt (logged line s)).
Proof. rewrite (bind_step _ _ _ _ _ _ (log_newline_run line s)). reflexivity. Qed.

Lemma bind_then {A B} (m : M A) (f : A -> M B) s a s' t :
  m s = mkRes (Ret a) s' t -> bind m f s = prepends t (f a s').
Proof. intros Hm. unfold bind. rewrite Hm. reflexivity. Qed.

Lemma ret_run {A} (a : A) s : ret a s = mkRes (Ret a) s [].
Proof. reflexivity. Qed.

Lemma prepend_mk {A} ev (o : outcome A) s t :
  prepend ev (mkRes o s t) = mkRes o s (ev :: t).
Proof. reflexivity. Qed.

Lemma prepends_mk {A} t' (o : outcome A) s t :
  prepends t' (mkRes o s t) = mkRes o s (t' ++ t).
Proof. reflexivity. Qed.

Lemma bind_call_ok {B} (ev : event E) (f : unit -> M B) s :
  bind (call ev None) f s = prepend ev (f tt s).
Proof.
  unfold call, mbind, M_bind. rewrite bind_assoc, bind_emit, bind_ret.
  reflexivity.
Qed.

Lemma bind_call_err {B} (ev : event E) msg (f : unit -> M B) s :
  bind (call ev (Some msg)) f s = mkRes (Raise (Exception msg)) s [ev].
Proof. reflexivity. Qed.

Lemma out_prepend {A} ev (r : Res E A) : out (prepend ev r) = out r.
Proof. reflexivity. Qed.

Lemma st_prepend {A} ev (r : Res E A) : st (prepend ev r) = st r.
Proof. reflexivity. Qed.

Lemma tr_prepend {A} ev (r : Res E A) : tr (prepend ev r) = ev :: tr r.
Proof. reflexivity. Qed.

Lemma out_prepends {A} t (r : Res E A) : out (prepends t r) = out r.
Proof. reflexivity. Qed.

Lemma st_prepends {A} t (r : Res E A) : st (prepends t r) = st r.
Proof. reflexivity. Qed.

Lemma tr_prepends {A} t (r : Res E A) : tr (prepends t r) = t ++ tr r.
Proof. reflexivity. Qed.
End MoreFrames.

#[global] Hint Rewrite
  @logs_set_umap_hot @logs_set_log_window @logs_set_audio_in_device
  @logs_set_suptitle @logs_upd_button @logs_upd_checkbox @logs_upd_combo
  @logs_upd_axes @logs_upd_loading_bar @logs_upd_seed_textbox
  @log_window_set_umap_hot @log_window_set_logs
  @log_window_set_audio_in_device @log_window_set_suptitle
  @log_window_upd_button @log_window_upd_checkbox @log_window_upd_combo
  @log_window_upd_axes @log_window_upd_loading_bar
  @log_window_upd_seed_textbox @loading_bar_set_umap_hot
  @loading_bar_set_logs @loading_bar_set_log_window
  @loading_bar_set_audio_in_device @loading_bar_set_suptitle
  @loading_bar_upd_button @loading_bar_upd_checkbox @loading_bar_upd_combo
  @loading_bar_upd_axes @loading_bar_upd_seed_textbox
  @seed_textbox_set_umap_hot @seed_textbox_set_logs
  @seed_textbox_set_log_window @seed_textbox_set_audio_in_device
  @seed_textbox_set_suptitle @seed_textbox_upd_button
  @seed_textbox_upd_checkbox @seed_textbox_upd_combo @seed_textbox_upd_axes
  @seed_textbox_upd_loading_bar @audio_in_device_set_umap_hot
  @audio_in_device_set_logs @audio_in_device_set_log_window
  @audio_in_device_set_suptitle @audio_in_device_upd_button
  @audio_in_device_upd_checkbox @audio_in_device_upd_combo
  @audio_in_device_upd_axes @audio_in_device_upd_loading_bar
  @audio_in_device_upd_seed_textbox @buttons_set_umap_hot @buttons_set_logs
  @buttons_set_log_window @buttons_set_audio_in_device @buttons_set_suptitle
  @buttons_upd_checkbox @buttons_upd_combo @buttons_upd_axes
  @buttons_upd_loading_bar @buttons_upd_seed_textbox
  @checkboxes_set_umap_hot @checkboxes_set_logs @checkboxes_set_log_window
  @checkboxes_set_audio_in_device @checkboxes_set_suptitle
  @checkboxes_upd_button @checkboxes_upd_combo @checkboxes_upd_axes
  @checkboxes_upd_loading_bar @checkboxes_upd_seed_textbox
  @suptitle_set_umap_hot @suptitle_set_logs @suptitle_set_log_window
  @suptitle_set_audio_in_device @suptitle_upd_button @suptitle_upd_checkbox
  @suptitle_upd_combo @suptitle_upd_axes @suptitle_upd_loading_bar
  @suptitle_upd_seed_textbox
  @logs_set_logs @log_window_set_log_window
  @audio_in_device_set_audio_in_device @loading_bar_upd_loading_bar
  @seed_textbox_upd_seed_textbox @buttons_upd_button_eq
  @checkboxes_upd_checkbox_eq @suptitle_set_suptitle_eq @umap_hot_logged
  @loading_bar_logged @seed_textbox_logged @audio_in_device_logged
  @buttons_logged @checkboxes_logged @combos_logged @axes_logged
  @suptitle_logged @logs_logged @log_window_logged @out_prepend @st_prepend
  @tr_prepend @out_prepends @st_prepends @tr_prepends : ui.

#[global] Hint Rewrite @buttons_upd_button_ne @checkboxes_upd_checkbox_ne
  @suptitle_set_suptitle_ne using discriminate : ui.

(** Runs the straight-line part of a computation, calls of [log] in
    "newline" mode included. *)
Ltac mrun' :=
  repeat (rewrite bind_assoc || rewrite bind_modify || rewrite bind_gets
          || rewrite bind_ret || rewrite bind_emit || rewrite bind_log
          || rewrite bind_call_ok || rewrite bind_call_err);
  cbn [emit modify ret].

(** Brings a result that was run to the end into the form
    [mkRes o s t]. *)
Ltac mdone :=
  rewrite ?ret_run; repeat (rewrite prepends_mk || rewrite prepend_mk).

Section LogModes.
Context {E : Env}.
Implicit Types (s : UI E) (line mode : string).

Lemma set_logs_same s : set_logs (logs s) s = s.
Proof. destruct s; reflexivity. Qed.

(** [log] in closed form: the buffer of [log_buffer], the label showing
    it; or IndexError, the object untouched. *)
Lemma log_run line mode s :
  log line mode s
  = match log_buffer line mode (logs s) with
    | Some l =>
        mkRes (Ret tt)
          (set_log_window (String.concat newline l) (set_logs l s))
          [EvLog line mode; EvProcessEvents]
    | None => mkRes (Raise IndexError) s [EvLog line mode]
    end.
Proof.
  unfold log_buffer.
  destruct (String.eqb_spec mode "newline") as [->|Hn].
  { apply log_newline_eq. }
  destruct (String.eqb_spec mode "append") as [->|Ha].
  { destruct (last_cases (logs s)) as [Hl|(pre & x & Hl)].
    - rewrite log_append_empty by exact Hl. rewrite Hl. reflexivity.
    - rewrite (log_append_eq _ _ _ _ Hl). rewrite Hl, length_app.
      replace (length pre + length [x])%nat with (S (length pre))
        by (simpl; lia).
      rewrite py_index_last. cbn [mbind option_bind].
      rewrite list_lookup_middle by reflexivity. cbn [mbind option_bind].
      rewrite insert_last. reflexivity. }
  destruct (String.eqb_spec mode "overwrite") as [->|Ho].
  { destruct (last_cases (logs s)) as [Hl|(pre & x & Hl)].
    - rewrite log_overwrite_empty by exact Hl. rewrite Hl. reflexivity.
    - rewrite (log_overwrite_eq _ _ _ _ Hl). rewrite Hl, length_app.
      replace (length pre + length [x])%nat with (S (length pre))
        by (simpl; lia).
      rewrite py_index_last. cbn [mbind option_bind].
      rewrite insert_last. reflexivity. }
  rewrite log_other_eq by assumption. rewrite set_logs_same. reflexivity.
Qed.

Lemma log_buffer_none line mode ls :
  log_buffer line mode ls = None
  <-> ls = [] /\ (mode = "append" \/ mode = "overwrite").
Proof.
  unfold log_buffer.
  destruct (String.eqb_spec mode "newline") as [->|Hn].
  { split; [discriminate|]. intros [_ [H|H]]; discriminate. }
  destruct (String.eqb_spec mode "append") as [->|Ha].
  { destruct (last_cases ls) as [->|(pre & x & ->)].
    - split; [intros _; auto | reflexivity].
    - rewrite length_app.
      replace (length pre + length [x])%nat with (S (length pre))
        by (simpl; lia).
      rewrite py_index_last. cbn [mbind option_bind].
      rewrite list_lookup_middle by reflexivity. cbn [mbind option_bind].
      split; [discriminate|]. intros [H _]. destruct pre; discriminate. }
  destruct (String.eqb_spec mode "overwrite") as [->|Ho].
  { destruct (last_cases ls) as [->|(pre & x & ->)].
    - split; [intros _; auto | reflexivity].
    - rewrite length_app.
      replace (length pre + length [x])%nat with (S (length pre))
        by (simpl; lia).
      rewrite py_index_last. cbn [mbind option_bind].
      split; [discriminate|]. intros [H _]. destruct pre; discriminate. }
  split; [discriminate|]. intros [_ [H|H]]; contradiction.
Qed.

(** X1. [log] raises nothing but IndexError, and raises it exactly when
    the buffer is empty and the mode is "append" or "overwrite"; the call
    that raises leaves the object as it was and does not reach
    [processEvents]. *)
Theorem log_raises_iff_empty_buffer line mode s e :
  (out (log line mode s) = Raise e
   <-> e = IndexError /\ logs s = []
       /\ (mode = "append" \/ mode = "overwrite"))
  /\ (out (log line mode s) = Ret tt
      \/ log line mode s = mkRes (Raise IndexError) s [EvLog line mode]).
Proof.
  rewrite log_run. pose proof (log_buffer_none line mode (logs s)) as Hn.
  destruct (log_buffer line mode (logs s)) as [l|]; cbn [out].
  - split; [|left; reflexivity]. split; [discriminate|].
    intros (_ & Hl & Hm).
    assert (Some l = None) by (apply Hn; auto). discriminate.
  - split; [|right; reflexivity]. split.
    + intros [= <-]. destruct Hn as [Hn _]. specialize (Hn eq_refl). tauto.
    + intros (-> & _). reflexivity.
Qed.

(** X2. A mode that is none of "newline", "append" and "overwrite" is
    accepted without an error: the line is dropped, the buffer stays as
    it was and the label is refreshed from it. *)
Theorem log_unknown_mode_drops_line line mode s :
  mode <> "newline" -> mode <> "append" -> mode <> "overwrite" ->
  out (log line mode s) = Ret tt
  /\ logs (st (log line mode s)) = logs s
  /\ log_window (st (log line mode s)) = String.concat newline (logs s)
  /\ tr (log line mode s) = [EvLog line mode; EvProcessEvents].
Proof.
  intros H1 H2 H3. rewrite log_other_eq by assumption.
  repeat split; reflexivity.
Qed.

Lemma Forall_evict (P : string -> Prop) ls : Forall P ls -> Forall P (evict ls).
Proof.
  intros H. unfold evict. destruct (max_log_lines <? _); [|exact H].
  destruct H; [constructor | assumption].
Qed.

Lemma Forall_foldl_push (P : string -> Prop) l ls :
  Forall P ls -> Forall P l -> Forall P (foldl push ls l).
Proof.
  revert ls. induction l as [|x l IH]; intros ls Hls Hl; simpl; [exact Hls|].
  inversion Hl; subst. apply IH; [|assumption].
  apply Forall_evict, Forall_app. split; [assumption|]. constructor; auto.
Qed.

Lemma log_pieces_width line :
  Forall (fun x => py_len x <= max_log_width) (log_pieces line).
Proof.
  unfold log_pieces, max_log_width, py_len.
  destruct (Z.ltb_spec 100 (Z.of_nat (String.length line))) as [Hl|Hl].
  - destruct (wrap_pieces_lengths line ltac:(lia)) as [Hw _].
    eapply Forall_impl; [exact Hw|]. simpl. intros. lia.
  - constructor; [lia | constructor].
Qed.

(** X3. "newline" mode keeps the buffer within the width of the label:
    when no entry is longer than [max_log_width] characters before the
    call, none is after it, however long the line. *)
Theorem log_newline_keeps_width line s :
  Forall (fun x => py_len x <= max_log_width) (logs s) ->
  out (log line "newline" s) = Ret tt
  /\ Forall (fun x => py_len x <= max_log_width)
            (logs (st (log line "newline" s))).
Proof.
  intros H. rewrite log_newline_eq. cbn [out st]. split; [reflexivity|].
  change (Forall (fun x => py_len x <= max_log_width)
                 (foldl push (logs s) (log_pieces line))).
  apply Forall_foldl_push; [exact H | apply log_pieces_width].
Qed.
End LogModes.

Section Keeps.
Context {E : Env}.
Variable P : UI E -> Prop.

Lemma keeps_ret {A} (a : A) : keeps P (ret a).
Proof. intros s H. exact H. Qed.

Lemma keeps_raise {A} (e : exn) : keeps P (raise (A:=A) e).
Proof. intros s H. exact H. Qed.

Lemma keeps_gets {A} (g : UI E -> A) : keeps P (gets g).
Proof. intros s H. exact H. Qed.

Lemma keeps_emit (ev : event E) : keeps P (emit ev).
Proof. intros s H. exact H. Qed.

Lemma keeps_modify (g : UI E -> UI E) :
  (forall s, P s -> P (g s)) -> keeps P (modify g).
Proof. intros Hg s H. apply Hg, H. Qed.

Lemma keeps_bind {A B} (m : M (E:=E) A) (f : A -> M (E:=E) B) :
  keeps P m -> (forall a, keeps P (f a)) -> keeps P (bind m f).
Proof.
  intros Hm Hf s H. unfold bind. specialize (Hm s H).
  destruct (out (m s)) as [a|e]; cbn [st]; [apply Hf, Hm | exact Hm].
Qed.

Lemma keeps_when (c : bool) (m : M (E:=E) unit) :
  keeps P m -> keeps P (when c m).
Proof. intros Hm. destruct c; [exact Hm | apply keeps_ret]. Qed.

Lemma keeps_for_each {A} (l : list A) (body : A -> M (E:=E) unit) :
  (forall x, keeps P (body x)) -> keeps P (for_each l body).
Proof.
  intros Hb. induction l as [|x l IH]; simpl; [apply keeps_ret|].
  apply keeps_bind; [apply Hb | intros; exact IH].
Qed.

Lemma keeps_try_except {A} (m : M (E:=E) A) (h : exn -> M (E:=E) A) :
  keeps P m -> (forall e, keeps P (h e)) -> keeps P (try_except m h).
Proof.
  intros Hm Hh s H. unfold try_except. specialize (Hm s H).
  destruct (out (m s)) as [a|e]; cbn [st]; [exact Hm | apply Hh, Hm].
Qed.

(** What every operation keeps holds all along a sequence of them. *)
Lemma keeps_run_ops (ops : list (op E)) :
  (forall o, In o ops -> keeps P (run_op o)) ->
  forall s, P s -> P (fst (run_ops ops s)).
Proof.
  induction ops as [|o ops IH]; intros Hops s H; [exact H|].
  cbn [run_ops].
  specialize (IH (fun o' Ho' => Hops o' (or_intror Ho'))
                 (st (run_op o s)) (Hops o (or_introl eq_refl) s H)).
  destruct (run_ops ops (st (run_op o s))) as [s' t]. exact IH.
Qed.

Lemma keeps_session (w : World E) (ops : list (op E)) :
  P (st (init w)) ->
  (forall o, In o ops -> keeps P (run_op o)) ->
  P (fst (session w ops)).
Proof.
  intros Hi Hops. unfold session.
  pose proof (keeps_run_ops ops Hops (st (init w)) Hi) as H.
  destruct (run_ops ops (st (init w))) as [s' t]. exact H.
Qed.
End Keeps.

(** One step of a proof that a computation keeps a property, following
    its syntax; [leaf] settles the calls that touch what the property is
    about. *)
Ltac keeps_step_with leaf :=
  first
    [ leaf
    | lazymatch goal with
      | |- keeps _ (ret _) => apply keeps_ret
      | |- keeps _ (mret _) => apply keeps_ret
      | |- keeps _ (raise _) => apply keeps_raise
      | |- keeps _ (gets _) => apply keeps_gets
      | |- keeps _ (modify _) =>
          apply keeps_modify;
          let s := fresh "s" in let H := fresh "H" in intros s H; exact H
      | |- keeps _ (emit _) => apply keeps_emit
      | |- keeps _ (when _ _) => apply keeps_when
      | |- keeps _ (for_each _ _) => apply keeps_for_each; intros
      | |- keeps _ (try_except _ _) => apply keeps_try_except; [|intros]
      | |- keeps _ (bind _ _) => apply keeps_bind; [|intros]
      | |- keeps ?P (mbind ?f ?m) => change (keeps P (bind m f))
      | |- keeps _ (match ?x with _ => _ end) => destruct x
      | |- keeps _ ((fun _ => _) _) => cbv beta
      | |- keeps _ ?m => let h := head_of m in unfold h
      end ].

Section SessionInvariants.
Context {E : Env}.
Implicit Types (s : UI E) (w : World E).

Lemma length_push_full ls x :
  length ls = 5%nat -> length (push ls x) = 5%nat.
Proof.
  intros H. rewrite push_full by exact H. rewrite length_app.
  destruct ls; [discriminate|]. simpl in *. lia.
Qed.

Lemma length_foldl_push_full l ls :
  length ls = 5%nat -> length (foldl push ls l) = 5%nat.
Proof.
  revert ls. induction l as [|x l IH]; intros ls H; simpl; [exact H|].
  apply IH, length_push_full, H.
Qed.

Lemma length_log_buffer line mode ls l :
  log_buffer line mode ls = Some l -> length ls = 5%nat -> length l = 5%nat.
Proof.
  unfold log_buffer. intros Hb H5.
  destruct (String.eqb mode "newline").
  { injection Hb as <-. apply length_foldl_push_full, H5. }
  destruct (String.eqb mode "append").
  { destruct (py_index _ _) as [i|]; [|discriminate]. cbn [mbind option_bind] in Hb.
    destruct (ls !! i); [|discriminate]. injection Hb as <-.
    rewrite length_insert. exact H5. }
  destruct (String.eqb mode "overwrite").
  { destruct (py_index _ _) as [i|]; [|discriminate]. injection Hb as <-.
    rewrite length_insert. exact H5. }
  injection Hb as <-. exact H5.
Qed.

Lemma keeps_log_full line mode : keeps log_full (log (E:=E) line mode).
Proof.
  intros s H. unfold log_full, max_log_lines in *. rewrite log_run.
  destruct (log_buffer line mode (logs s)) as [l|] eqn:Hb; cbn [st]; [|exact H].
  change (Z.of_nat (length l) = 5).
  rewrite (length_log_buffer _ _ _ _ Hb); [reflexivity | lia].
Qed.

Lemma keeps_label_synced line mode : keeps label_synced (log (E:=E) line mode).
Proof.
  intros s H. unfold label_synced in *. rewrite log_run.
  destruct (log_buffer line mode (logs s)) as [l|]; cbn [st]; [reflexivity|exact H].
Qed.

Lemma run_op_keeps_log_full (o : op E) : keeps log_full (run_op o).
Proof.
  destruct o; unfold run_op, discard;
    repeat keeps_step_with
      ltac:(idtac; lazymatch goal with
                   | |- keeps _ (log _ _) => apply keeps_log_full
                   end).
Qed.

Lemma run_op_keeps_label_synced (o : op E) : keeps label_synced (run_op o).
Proof.
  destruct o; unfold run_op, discard;
    repeat keeps_step_with
      ltac:(idtac; lazymatch goal with
                   | |- keeps _ (log _ _) => apply keeps_label_synced
                   end).
Qed.

(** X4. From construction on, the log buffer holds exactly
    [max_log_lines] entries after every operation of a session, whether
    the operation returned or raised. *)
Theorem session_log_buffer_is_full w (ops : list (op E)) :
  Z.of_nat (length (logs (fst (session w ops)))) = max_log_lines.
Proof.
  change (log_full (fst (session w ops))).
  apply keeps_session; [vm_compute; reflexivity|].
  intros o _. apply run_op_keeps_log_full.
Qed.

(** X5. From construction on, the label of the log window shows the
    buffer, its entries joined by newlines, after every operation of a
    session. *)
Theorem session_label_shows_buffer w (ops : list (op E)) :
  log_window (fst (session w ops))
  = String.concat newline (logs (fst (session w ops))).
Proof.
  change (label_synced (fst (session w ops))).
  apply keeps_session; [vm_compute; reflexivity|].
  intros o _. apply run_op_keeps_label_synced.
Qed.
End SessionInvariants.

Section HistoryInvariant.
Context {E : Env}.
Implicit Types (s : UI E) (w : World E) (u : Utterance E).

Lemma registered_bounded u (b : QComboBox (pyobj E)) :
  cb_count b <= max_saved_utterances ->
  cb_count (registered u b) <= max_saved_utterances.
Proof.
  unfold cb_count, max_saved_utterances. intros H.
  rewrite registered_items.
  destruct (Nat.leb_spec 20 (length (cb_items b))).
  - simpl length. rewrite length_delete; [lia|].
    apply lookup_lt_is_Some. lia.
  - simpl length. lia.
Qed.

Lemma keeps_history_register u :
  keeps history_bounded (register_utterance (E:=E) u).
Proof.
  intros s H. unfold history_bounded in *.
  destruct (register_history s u) as [_ ->]. apply registered_bounded, H.
Qed.

Lemma keeps_history_repopulate randint box (items : list (item E)) random :
  box <> utterance_history ->
  keeps history_bounded (repopulate_box randint box items random).
Proof.
  intros Hb s H. unfold history_bounded in *.
  rewrite repopulate_box_run. cbn [st].
  rewrite combos_repopulate_state_ne by exact Hb. exact H.
Qed.

Lemma run_op_keeps_history (o : op E) :
  repopulates_history o = false -> keeps history_bounded (run_op o).
Proof.
  intros Ho.
  destruct o; unfold run_op, discard;
    repeat keeps_step_with
      ltac:(idtac; lazymatch goal with
                   | |- keeps _ (register_utterance _) =>
                       apply keeps_history_register
                   | |- keeps _ (repopulate_box _ ?b _ _) =>
                       apply keeps_history_repopulate;
                       first [discriminate
                             | intros ->; discriminate Ho]
                   end).
Qed.

(** X6. However long a session, the utterance history never holds more
    than [max_saved_utterances] rows, as long as the client does not hand
    the history box itself to [repopulate_box]. *)
Theorem session_history_bounded w (ops : list (op E)) :
  forallb (fun o => negb (repopulates_history o)) ops = true ->
  cb_count (combos (fst (session w ops)) utterance_history)
  <= max_saved_utterances.
Proof.
  intros Hops. change (history_bounded (fst (session w ops))).
  apply keeps_session; [vm_compute; discriminate|].
  intros o Ho. apply run_op_keeps_history.
  rewrite forallb_forall in Hops. specialize (Hops o Ho).
  destruct (repopulates_history o); [discriminate|reflexivity].
Qed.
End HistoryInvariant.

Section AudioDevices.
Context {E : Env}.
Implicit Types (s : UI E) (w : World E) (b : QComboBox (pyobj E)).

Lemma set_audio_device_run s :
  set_audio_device s
  = match audio_in_device s with
    | Some i =>
        mkRes (Ret tt) s
          [EvSdDefaultDevice i
             (output_device_of
                (cb_currentText (combos s audio_out_devices_cb)))]
    | None => mkRes (Raise AttributeError) s []
    end.
Proof.
  unfold set_audio_device, mbind, M_bind. rewrite !bind_gets.
  destruct (audio_in_device s); reflexivity.
Qed.

Lemma cb_items_addItem t d b :
  cb_items (cb_addItem t d b) = cb_items b ++ [(t, d)].
Proof.
  unfold cb_addItem, cb_insertItem, cb_with, cb_count. cbn [cb_items].
  replace (Z.max 0 (Z.min _ _)) with (Z.of_nat (length (cb_items b))) by lia.
  rewrite Nat2Z.id, take_ge, drop_ge by lia. reflexivity.
Qed.

Lemma add_names_rows (names : list string) b :
  cb_current b = (if cb_count b =? 0 then -1 else 0) ->
  let b' := foldl (fun b t => cb_addItem t None b) b names in
  cb_items b' = cb_items b ++ map (fun t => (t, None)) names
  /\ cb_current b' = (if cb_count b' =? 0 then -1 else 0)
  /\ cb_disabled b' = cb_disabled b.
Proof.
  intros Hb.
  destruct (add_items_rows (map ItemStr names) b Hb) as (Hi & Hc & Hd & _).
  rewrite foldl_fmap in Hi, Hc, Hd. rewrite map_map in Hi.
  repeat split; assumption.
Qed.

Lemma setup_audio_devices_post w sample_rate s :
  let r := setup_audio_devices w sample_rate s in
  let box := combos s audio_out_devices_cb in
  let box' := combos (st r) audio_out_devices_cb in
  out r = Ret tt
  /\ audio_in_device (st r) = Some (head (input_devices w))
  /\ match output_devices w with
     | [] => cb_items box' = cb_items box ++ [("None", None)]
             /\ cb_disabled box' = true
     | d :: _ => cb_items box' = map (fun t => (t, None)) (output_devices w)
                 /\ cb_currentText box' = d
                 /\ cb_disabled box' = cb_disabled box
     end
  /\ exists t, tr r = t ++ [EvSdDefaultDevice (head (input_devices w))
                              (output_device_of (cb_currentText box'))].
Proof.
  intros r box box'. subst r box box'.
  unfold setup_audio_devices, modify_combo, mbind, M_bind.
  fold (input_devices w). fold (output_devices w).
  set (m1 := "No audio input device detected. Recording may not work.").
  set (m2 := "No supported output audio devices were found! Audio output may not work.").
  destruct (input_devices w) as [|i ins];
    destruct (output_devices w) as [|d outs] eqn:Ho; mrun';
    rewrite set_audio_device_run; autorewrite with ui; cbn [out st tr head];
    autorewrite with ui;
    (split; [reflexivity|]); (split; [reflexivity|]).
  - split; [|eexists; rewrite app_assoc; reflexivity].
    split; [apply cb_items_addItem | reflexivity].
  - split; [|eexists; reflexivity].
    destruct (add_names_rows (d :: outs) (cb_clear (combos s audio_out_devices_cb))
                eq_refl) as (Hi & Hc & Hd).
    split; [exact Hi|]. split; [|exact Hd].
    unfold cb_currentText. rewrite Hc, Hi. unfold cb_count. rewrite Hi.
    reflexivity.
  - split; [|eexists; reflexivity].
    split; [apply cb_items_addItem | reflexivity].
  - split; [|exists []; reflexivity].
    destruct (add_names_rows (d :: outs) (cb_clear (combos s audio_out_devices_cb))
                eq_refl) as (Hi & Hc & Hd).
    split; [exact Hi|]. split; [|exact Hd].
    unfold cb_currentText. rewrite Hc, Hi. unfold cb_count. rewrite Hi.
    reflexivity.
Qed.

(** X7. [setup_audio_devices] never raises.  It records the first usable
    input device (or None) as [audio_in_device]; with at least one usable
    output device the box lists exactly the usable output devices, the
    first one selected; with none, a row "None" is added to the box and
    the box is disabled.  The call ends by setting the default device to
    the recorded input and the output named by the text of the box, where
    the text "None" stands for no device. *)
Theorem setup_audio_devices_selects_first w sample_rate s :
  let r := setup_audio_devices w sample_rate s in
  let box := combos s audio_out_devices_cb in
  let box' := combos (st r) audio_out_devices_cb in
  out r = Ret tt
  /\ audio_in_device (st r) = Some (head (input_devices w))
  /\ match output_devices w with
     | [] => cb_items box' = cb_items box ++ [("None", None)]
             /\ cb_disabled box' = true
     | d :: _ => cb_items box' = map (fun t => (t, None)) (output_devices w)
                 /\ cb_currentText box' = d
                 /\ cb_disabled box' = cb_disabled box
     end
  /\ exists t, tr r = t ++ [EvSdDefaultDevice (head (input_devices w))
                              (output_device_of (cb_currentText box'))].
Proof. apply setup_audio_devices_post. Qed.

Lemma keeps_audio_ready_log line mode : keeps audio_ready (log (E:=E) line mode).
Proof.
  intros s H. unfold audio_ready in *. rewrite log_run.
  destruct (log_buffer line mode (logs s)); exact H.
Qed.

Lemma run_op_keeps_audio_ready (o : op E) : keeps audio_ready (run_op o).
Proof.
  destruct o; unfold run_op, discard;
    repeat keeps_step_with
      ltac:(idtac; lazymatch goal with
                   | |- keeps _ (log _ _) => apply keeps_audio_ready_log
                   | |- keeps _ (modify (set_audio_in_device _)) =>
                       apply keeps_modify; intros; discriminate
                   end).
Qed.

(** X8. [set_audio_device] raises AttributeError exactly when
    [audio_in_device] was never assigned, as on a freshly constructed
    object; once [setup_audio_devices] has run, it returns normally after
    any further sequence of operations. *)
Theorem set_audio_device_needs_setup w sample_rate s (ops : list (op E)) e :
  (out (set_audio_device s) = Raise e
   <-> e = AttributeError /\ audio_in_device s = None)
  /\ out (set_audio_device (st (init w))) = Raise AttributeError
  /\ out (set_audio_device
            (fst (run_ops ops (st (setup_audio_devices w sample_rate s)))))
     = Ret tt.
Proof.
  split; [|split].
  - rewrite set_audio_device_run. destruct (audio_in_device s); cbn [out].
    + split; [discriminate|]. intros [_ H]. discriminate.
    + split; [intros [= <-]; auto | intros [-> _]; reflexivity].
  - vm_compute. reflexivity.
  - assert (H : audio_ready
                  (fst (run_ops ops (st (setup_audio_devices w sample_rate s))))).
    { apply keeps_run_ops; [intros; apply run_op_keeps_audio_ready|].
      unfold audio_ready.
      destruct (setup_audio_devices_post w sample_rate s) as (_ & -> & _).
      discriminate. }
    rewrite set_audio_device_run. unfold audio_ready in H.
    destruct (audio_in_device _); [reflexivity | contradiction].
Qed.
End AudioDevices.

Section Playback.
Context {E : Env}.
Implicit Types (s : UI E) (w : World E).

Lemma try_except_ret {A} (m : M (E:=E) A) h s a s' t :
  m s = mkRes (Ret a) s' t -> try_except m h s = mkRes (Ret a) s' t.
Proof. intros Hm. unfold try_except. rewrite Hm. reflexivity. Qed.

Lemma try_except_raise {A} (m : M (E:=E) A) h s e s' t :
  m s = mkRes (Raise e) s' t -> try_except m h s = prepends t (h e s').
Proof. intros Hm. unfold try_except. rewrite Hm. reflexivity. Qed.

Lemma for_each_returns {A} (l : list A) (body : A -> M (E:=E) unit) :
  (forall x s, out (body x s) = Ret tt) ->
  forall s, out (for_each l body s) = Ret tt.
Proof.
  intros Hb. induction l as [|x l IH]; intros s; [reflexivity|].
  cbn [for_each]. rewrite (bind_out _ _ _ tt) by apply Hb. apply IH.
Qed.

Lemma push_ends ls x : exists pre, push ls x = pre ++ [x].
Proof.
  unfold push, evict, max_log_lines.
  destruct (Z.ltb_spec 5 (Z.of_nat (length (ls ++ [x])))) as [H|H]; [|eauto].
  destruct ls as [|a ls]; [simpl in H; lia | exists ls; reflexivity].
Qed.

Lemma push_push_ends ls x y : exists pre, push (push ls x) y = pre ++ [x; y].
Proof.
  destruct (push_ends ls x) as [pre ->]. unfold push at 1, evict, max_log_lines.
  rewrite <- app_assoc. cbn [app].
  destruct (Z.ltb_spec 5 (Z.of_nat (length (pre ++ [x; y])))) as [H|H];
    [|eauto].
  destruct pre as [|a pre]; [simpl in H; lia | exists pre; reflexivity].
Qed.

(** X9. [play] never raises: when the driver fails in [sd.stop] or
    [sd.play], the error is printed and the two lines of advice become the
    last two entries of the log; a failure of [sd.stop] means [sd.play] is
    not called.  When both succeed nothing of the object changes.  [stop]
    has no such guard: it raises exactly when the driver does. *)
Theorem play_swallows_driver_errors w (wav : Wav E) sample_rate s e :
  let r := play w wav sample_rate s in
  let m1 := "Error in audio playback. Try selecting a different audio output device." in
  let m2 := "Your device must be connected before you start the toolbox." in
  out r = Ret tt
  /\ match sd_stop w, sd_play w with
     | None, None => st r = s /\ tr r = [EvSdStop; EvSdPlay wav sample_rate]
     | Some msg, _ =>
         (exists pre, logs (st r) = pre ++ [m1; m2])
         /\ tr r = [EvSdStop; EvStdout msg; EvLog m1 "newline";
                    EvProcessEvents; EvLog m2 "newline"; EvProcessEvents]
     | None, Some msg =>
         (exists pre, logs (st r) = pre ++ [m1; m2])
         /\ tr r = [EvSdStop; EvSdPlay wav sample_rate; EvStdout msg;
                    EvLog m1 "newline"; EvProcessEvents;
                    EvLog m2 "newline"; EvProcessEvents]
     end
  /\ (out (stop w s) = Raise e
      <-> exists msg, sd_stop w = Some msg /\ e = Exception msg).
Proof.
  intros r m1 m2. subst r.
  assert (Hh : forall e0 (s0 : UI E),
             (emit (EvStdout (exn_str e0));; log m1 "newline";;
              log m2 "newline") s0
             = mkRes (Ret tt) (logged m2 (logged m1 s0))
                 [EvStdout (exn_str e0); EvLog m1 "newline"; EvProcessEvents;
                  EvLog m2 "newline"; EvProcessEvents]).
  { intros e0 s0. unfold mbind, M_bind. rewrite bind_emit, bind_log.
    rewrite log_newline_run. reflexivity. }
  assert (Hl : forall s0 : UI E, exists pre,
             logs (logged m2 (logged m1 s0)) = pre ++ [m1; m2]).
  { intros s0. apply (push_push_ends (logs s0) m1 m2). }
  assert (Hstop : out (stop w s) = Raise e
                  <-> exists msg, sd_stop w = Some msg /\ e = Exception msg).
  { unfold stop. destruct (sd_stop w) as [msg|]; cbn.
    - split; [intros [= <-]; eauto | intros (m & [= <-] & ->); reflexivity].
    - split; [discriminate | intros (m & Hm & _); discriminate]. }
  unfold play. fold m1 m2.
  destruct (sd_stop w) as [msg|]; [|destruct (sd_play w) as [msg|]].
  - erewrite try_except_raise by reflexivity. rewrite Hh.
    split; [reflexivity|]. split; [|exact Hstop].
    split; [apply Hl | reflexivity].
  - erewrite try_except_raise by reflexivity. rewrite Hh.
    split; [reflexivity|]. split; [|exact Hstop].
    split; [apply Hl | reflexivity].
  - erewrite try_except_ret by reflexivity.
    split; [reflexivity|]. split; [|exact Hstop]. split; reflexivity.
Qed.
End Playback.

Section Recording.
Context {E : Env}.
Implicit Types (s : UI E) (w : World E).

Lemma bind_try_ret {A B} (m : M (E:=E) A) h (f : A -> M (E:=E) B) s a s' t :
  m s = mkRes (Ret a) s' t ->
  bind (try_except m h) f s = prepends t (f a s').
Proof.
  intros Hm. rewrite (bind_step _ _ _ _ _ _ (try_except_ret _ h _ _ _ _ Hm)).
  reflexivity.
Qed.

Lemma bind_returns {A B} (m : M (E:=E) A) (f : A -> M (E:=E) B) s a :
  out (m s) = Ret a ->
  bind m f s = prepends (tr (m s)) (f a (st (m s))).
Proof. intros Hm. rewrite (bind_out _ _ _ _ Hm). reflexivity. Qed.

Lemma bind_raises {A B} (m : M (E:=E) A) (f : A -> M (E:=E) B) s e :
  out (m s) = Raise e ->
  bind m f s = mkRes (Raise e) (st (m s)) (tr (m s)).
Proof. intros Hm. unfold bind. rewrite Hm. reflexivity. Qed.

Lemma bar_loop_out w (l : list Z) duration s :
  out (for_each l (fun k =>
         match bar_percent w k with
         | Some value100 =>
             loading_bar_update value100 (duration * 100) (negb (k =? 0));;
             emit EvSleep
         | None => raise TypeError
         end) s)
  = if bar_accepts w l then Ret tt else Raise TypeError.
Proof.
  revert s. induction l as [|k l IH]; intros s; [reflexivity|].
  unfold bar_accepts. cbn [for_each forallb]. fold (bar_accepts w l).
  destruct (bar_percent w k) as [v|]; [|reflexivity].
  rewrite (bind_out _ _ _ tt) by reflexivity. cbn [out andb]. apply IH.
Qed.

Lemma bar_loop_keeps (P : UI E -> Prop) w (l : list Z) duration :
  (forall f s, P s -> P (upd_loading_bar f s)) ->
  keeps P (for_each l (fun k =>
         match bar_percent w k with
         | Some value100 =>
             loading_bar_update value100 (duration * 100) (negb (k =? 0));;
             emit EvSleep
         | None => raise TypeError
         end)).
Proof.
  intros HP. apply keeps_for_each. intros k.
  destruct (bar_percent w k) as [v|]; [|apply keeps_raise].
  unfold loading_bar_update, mbind, M_bind.
  repeat first [ apply keeps_bind; [|intros]
               | apply keeps_emit
               | apply keeps_modify; intros s0 H0; apply HP, H0 ].
Qed.

(** X10. [record_one] returns the squeezed recording and puts the record
    button back ("Record", enabled) only when [sd.stop], [sd.rec], every
    [setValue] of the progress loop and [sd.wait] succeed.  When [sd.rec]
    fails it returns None; when [sd.stop] or [sd.wait] fails the error
    propagates; and when the bar refuses the float of some step (as PyQt
    does under Python 3.10 or later, at the first step of any recording
    of positive duration) the TypeError propagates.  In all four cases the
    button is left disabled with the text "Recording...".  The duration
    is taken within the range in which its hundredfold is a C int. *)
Theorem record_one_leaves_button_disabled_on_failure w sample_rate duration s :
  INT_MIN <= duration * 100 <= INT_MAX ->
  let r := record_one w sample_rate duration s in
  let steps := py_range (10 * duration) in
  let recording := {| btn_text := "Recording..."; btn_disabled := true |} in
  (forall msg, sd_stop w = Some msg ->
     out r = Raise (Exception msg) /\ buttons (st r) record_button = recording)
  /\ (sd_stop w = None -> forall msg, sd_rec w = inl msg ->
      out r = Ret None /\ buttons (st r) record_button = recording)
  /\ (sd_stop w = None -> forall wav, sd_rec w = inr wav ->
      bar_accepts w steps = false ->
      out r = Raise TypeError /\ buttons (st r) record_button = recording)
  /\ (sd_stop w = None -> forall wav, sd_rec w = inr wav ->
      bar_accepts w steps = true -> forall msg, sd_wait w = Some msg ->
      out r = Raise (Exception msg) /\ buttons (st r) record_button = recording)
  /\ (sd_stop w = None -> forall wav, sd_rec w = inr wav ->
      bar_accepts w steps = true -> sd_wait w = None ->
      out r = Ret (Some (wav_squeeze w wav))
      /\ buttons (st r) record_button
         = {| btn_text := "Record"; btn_disabled := false |}).
Proof.
  intros _ r steps recording. subst r steps recording.
  unfold record_one, modify_button, mbind, M_bind.
  set (m0 := "Recording " +:+ pretty duration +:+ " seconds of audio").
  set (m1 := "Could not record anything. Is your recording device enabled?").
  set (m2 := "Your device must be connected before you start the toolbox.").
  set (m3 := "Done recording.").
  destruct (sd_stop w) as [msg|].
  { mrun'. split; [intros ? [= <-]; split; reflexivity|].
    repeat split; discriminate. }
  mrun'. cbn [out st prepends prepend].
  split; [discriminate|].
  destruct (sd_rec w) as [msg|wav].
  - rewrite (bind_step _ _ _ None
               (logged m2 (logged m1 (logged m0
                  (upd_button record_button (btn_setDisabled true)
                     (upd_button record_button (btn_setText "Recording...") s)))))
               [EvSdRec (duration * sample_rate) sample_rate 1;
                EvStdout msg; EvLog m1 "newline"; EvProcessEvents;
                EvLog m2 "newline"; EvProcessEvents]).
    + split; [intros _ ? [= <-]; split; reflexivity|].
      repeat split; discriminate.
    + erewrite try_except_raise by reflexivity.
      unfold mbind, M_bind. mrun'. reflexivity.
  - erewrite bind_try_ret by reflexivity. cbn [out st prepends].
    split; [discriminate|].
    pose proof (bar_loop_out w (py_range (10 * duration)) duration
                  (logged m0
                     (upd_button record_button (btn_setDisabled true)
                        (upd_button record_button
                           (btn_setText "Recording...") s)))) as Hout.
    match type of Hout with
    | out (?loop ?s0) = _ =>
        assert (Hb : buttons (st (loop s0)) record_button
                     = {| btn_text := "Recording..."; btn_disabled := true |});
        [ apply (bar_loop_keeps
                   (fun s1 => buttons s1 record_button
                              = {| btn_text := "Recording...";
                                   btn_disabled := true |}));
          [ intros f s1 H1; exact H1 | reflexivity ]
        | ]
    end.
    destruct (bar_accepts w (py_range (10 * duration))).
    + rewrite (bind_returns _ _ _ tt) by exact Hout.
      cbn [out st prepends].
      unfold set_loading, loading_bar_update, mbind, M_bind.
      split; [discriminate|].
      destruct (sd_wait w) as [msg|]; mrun'; cbn [out st prepends prepend].
      * split; [|discriminate].
        intros _ ? [= <-] _ ? [= <-]. split; [reflexivity | exact Hb].
      * split; [discriminate|].
        intros _ ? [= <-] _ _. split; reflexivity.
    + rewrite (bind_raises _ _ _ TypeError) by exact Hout.
      cbn [out st].
      split; [|split; discriminate].
      intros _ ? [= <-] _. split; [reflexivity | exact Hb].
Qed.
End Recording.

Section Drawing.
Context {E : Env}.
Implicit Types (s : UI E) (w : World E) (a : axes_id).

Lemma axes_uncolor_ne a s k : a <> k -> axes (uncolor a s) k = axes s k.
Proof.
  intros Hk. unfold uncolor. destruct (ax_images (axes s a)); [reflexivity|].
  apply axes_upd_axes_ne, Hk.
Qed.

Lemma ax_clear_uncolor a s :
  ax_clear (axes (uncolor a s) a) = ax_clear (axes s a).
Proof.
  unfold uncolor. destruct (ax_images (axes s a)); [reflexivity|].
  rewrite axes_upd_axes_eq. reflexivity.
Qed.

Lemma suptitle_uncolor a s : suptitle (uncolor a s) = suptitle s.
Proof. unfold uncolor. destruct (ax_images (axes s a)); reflexivity. Qed.

Lemma axes_embed_drawn_eq w a embed shape title s :
  axes (embed_drawn w a embed shape title s) a
  = embed_axes w embed shape title (axes s a).
Proof.
  unfold embed_drawn, embed_axes. destruct embed;
    rewrite ?axes_upd_axes_eq; reflexivity.
Qed.

Lemma axes_embed_drawn_ne w a embed shape title s k :
  a <> k -> axes (embed_drawn w a embed shape title s) k = axes s k.
Proof.
  intros Hk. unfold embed_drawn. destruct embed;
    rewrite ?axes_upd_axes_ne by exact Hk; reflexivity.
Qed.

Lemma suptitle_embed_drawn w a embed shape title s :
  suptitle (embed_drawn w a embed shape title s) = suptitle s.
Proof. unfold embed_drawn. destruct embed; reflexivity. Qed.

Lemma draw_one_embed_run w a embed shape title s :
  draw_one_embed w a embed shape title s
  = if first_image_has_colorbar (axes s a)
    then mkRes (Ret tt) (embed_drawn w a embed shape title (uncolor a s))
               [EvCanvasDraw (figure_of a)]
    else mkRes (Raise AttributeError) s [].
Proof.
  unfold draw_one_embed, remove_colorbar, first_image_has_colorbar,
    embed_drawn, uncolor, modify_axes, canvas_draw, mbind, M_bind.
  rewrite bind_assoc, bind_gets.
  destruct (ax_images (axes s a)) as [|im rest].
  - destruct embed; mrun; reflexivity.
  - destruct (im_colorbar im); [|reflexivity].
    destruct embed; mrun; reflexivity.
Qed.

Lemma speaker_emotion_ax_differ which :
  speaker_ax_of which <> emotion_ax_of which
  /\ figure_of (emotion_ax_of which) = figure_of (speaker_ax_of which).
Proof.
  unfold speaker_ax_of, emotion_ax_of.
  destruct (String.eqb which "current"); split; (discriminate || reflexivity).
Qed.

(** [draw_embed] in closed form. *)
Lemma draw_embed_run w se ee nm which s :
  let sp := speaker_ax_of which in
  let em := emotion_ax_of which in
  let s0 := set_suptitle (figure_of em)
              (match ee with None => "" | Some _ => default "" nm end)
              (set_suptitle (figure_of sp)
                 (match se with None => "" | Some _ => default "" nm end) s) in
  let s1 := embed_drawn w sp se None "speaker embed" (uncolor sp s0) in
  draw_embed w se ee nm which s
  = if first_image_has_colorbar (axes s sp) then
      if first_image_has_colorbar (axes s em)
      then mkRes (Ret tt)
             (embed_drawn w em ee (Some (13, 3)) "emotion embed"
                          (uncolor em s1))
             [EvCanvasDraw (figure_of sp); EvCanvasDraw (figure_of em)]
      else mkRes (Raise AttributeError) s1 [EvCanvasDraw (figure_of sp)]
    else mkRes (Raise AttributeError) s0 [].
Proof.
  intros sp em s0 s1.
  destruct (speaker_emotion_ax_differ which) as [Hne _].
  assert (Hd : draw_embed w se ee nm which s
               = bind (draw_one_embed w sp se None "speaker embed")
                      (fun _ => draw_one_embed w em ee (Some (13, 3))
                                               "emotion embed") s0).
  { unfold s0, sp, em.
    unfold draw_embed, which_ax, speaker_ax_of, emotion_ax_of,
      set_figure_title, mbind, M_bind.
    destruct (String.eqb which "current"); cbv beta iota;
      rewrite !bind_modify; reflexivity. }
  rewrite Hd. unfold bind. rewrite draw_one_embed_run.
  change (axes s0 sp) with (axes s sp).
  destruct (first_image_has_colorbar (axes s sp)); [|reflexivity].
  cbn [out st tr]. rewrite draw_one_embed_run. fold s1.
  replace (axes s1 em) with (axes s em).
  - destruct (first_image_has_colorbar (axes s em)); reflexivity.
  - unfold s1. rewrite axes_embed_drawn_ne, axes_uncolor_ne by exact Hne.
    reflexivity.
Qed.

(** X11. [draw_embed] puts on the figure the title decided by the
    emotion embedding alone: the name when there is an emotion embedding,
    the empty title when there is none, whether or not a speaker
    embedding is drawn; the other figures keep their titles.  It raises
    nothing but AttributeError, and raises it exactly when the first image
    of one of the two axes has no colorbar to remove; when it returns,
    each of the two axes has been cleared and redrawn from its
    embedding. *)
Theorem draw_embed_title_and_colorbars w se ee (nm : string) which s e :
  let sp := speaker_ax_of which in
  let em := emotion_ax_of which in
  let r := draw_embed w se ee (Some nm) which s in
  suptitle (st r) (figure_of sp)
  = match ee with None => "" | Some _ => nm end
  /\ (forall f, f <> figure_of sp -> suptitle (st r) f = suptitle s f)
  /\ (out r = Raise e
      <-> e = AttributeError
          /\ (first_image_has_colorbar (axes s sp) = false
              \/ first_image_has_colorbar (axes s em) = false))
  /\ match out r with
     | Ret _ =>
         axes (st r) sp = embed_axes w se None "speaker embed" (axes s sp)
         /\ axes (st r) em
            = embed_axes w ee (Some (13, 3)) "emotion embed" (axes s em)
     | Raise _ => True
     end.
Proof.
  intros sp em r. subst r.
  destruct (speaker_emotion_ax_differ which) as [Hne Hfig].
  fold sp em in Hne, Hfig.
  pose proof (draw_embed_run w se ee (Some nm) which s) as Hr.
  cbv zeta in Hr. fold sp em in Hr. rewrite Hr. clear Hr. rewrite Hfig.
  assert (Ht : forall (S : UI E) (f : figure),
             suptitle S = suptitle
               (set_suptitle (figure_of sp)
                  (match ee with None => "" | Some _ => default "" (Some nm) end)
                  (set_suptitle (figure_of sp)
                     (match se with None => "" | Some _ => default "" (Some nm) end)
                     s)) ->
             (suptitle S (figure_of sp)
              = match ee with None => "" | Some _ => nm end)
             /\ (f <> figure_of sp -> suptitle S f = suptitle s f)).
  { intros S f ->. split.
    - rewrite suptitle_set_suptitle_eq. destruct ee; reflexivity.
    - intros Hf. rewrite !suptitle_set_suptitle_ne by congruence.
      reflexivity. }
  destruct (first_image_has_colorbar (axes s sp)) eqn:H1;
    [destruct (first_image_has_colorbar (axes s em)) eqn:H2|];
    cbn [out st].
  - split; [|split; [|split]].
    + apply (Ht _ (figure_of sp)).
      rewrite suptitle_embed_drawn, suptitle_uncolor, suptitle_embed_drawn,
        suptitle_uncolor. reflexivity.
    + intros f. apply Ht.
      rewrite suptitle_embed_drawn, suptitle_uncolor, suptitle_embed_drawn,
        suptitle_uncolor. reflexivity.
    + split; [discriminate|]. intros (_ & [H|H]); discriminate.
    + split.
      * rewrite axes_embed_drawn_ne, axes_uncolor_ne by congruence.
        rewrite axes_embed_drawn_eq. unfold embed_axes.
        rewrite ax_clear_uncolor. reflexivity.
      * rewrite axes_embed_drawn_eq. unfold embed_axes.
        rewrite ax_clear_uncolor.
        rewrite axes_embed_drawn_ne, axes_uncolor_ne by exact Hne.
        reflexivity.
  - split; [|split; [|split]].
    + apply (Ht _ (figure_of sp)).
      rewrite suptitle_embed_drawn, suptitle_uncolor. reflexivity.
    + intros f. apply Ht.
      rewrite suptitle_embed_drawn, suptitle_uncolor. reflexivity.
    + split; [intros [= <-]; auto | intros [-> _]; reflexivity].
    + exact I.
  - split; [|split; [|split]].
    + apply (Ht _ (figure_of sp)). reflexivity.
    + intros f. apply Ht. reflexivity.
    + split; [intros [= <-]; auto | intros [-> _]; reflexivity].
    + exact I.
Qed.

Lemma draw_spec_run (spec' : option (Spec E)) which s :
  draw_spec spec' which s
  = mkRes (Ret tt) (spec_drawn spec' which s)
      [EvCanvasDraw (figure_of (spec_ax_of which))].
Proof.
  unfold draw_spec, spec_drawn, which_ax, spec_ax_of, modify_axes,
    modify_button, canvas_draw, when, mbind, M_bind.
  destruct (String.eqb which "current"); cbv beta iota zeta; cbn [negb];
    destruct spec'; mrun; reflexivity.
Qed.

Lemma axes_spec_drawn_eq (spec' : option (Spec E)) which s :
  axes (spec_drawn spec' which s) (spec_ax_of which)
  = spec_axes spec' (axes s (spec_ax_of which)).
Proof.
  unfold spec_drawn, spec_axes.
  destruct (String.eqb which "current"); destruct spec';
    rewrite ?axes_upd_button, ?axes_upd_axes_eq; reflexivity.
Qed.

Lemma axes_spec_drawn_ne (spec' : option (Spec E)) which s k :
  spec_ax_of which <> k -> axes (spec_drawn spec' which s) k = axes s k.
Proof.
  intros Hk. unfold spec_drawn.
  destruct (String.eqb which "current"); destruct spec';
    rewrite ?axes_upd_button, ?axes_upd_axes_ne by exact Hk; reflexivity.
Qed.

Lemma suptitle_spec_drawn (spec' : option (Spec E)) which s :
  suptitle (spec_drawn spec' which s) = suptitle s.
Proof.
  unfold spec_drawn. destruct (String.eqb which "current"); destruct spec';
    reflexivity.
Qed.

Lemma buttons_spec_drawn (spec' : option (Spec E)) which s :
  buttons (spec_drawn spec' which s) vocode_button
  = if String.eqb which "current" then buttons s vocode_button
    else btn_setDisabled (match spec' with None => true | _ => false end)
                         (buttons s vocode_button).
Proof.
  unfold spec_drawn. destruct (String.eqb which "current"); destruct spec';
    rewrite ?buttons_upd_button_eq; reflexivity.
Qed.

Lemma buttons_spec_drawn_ne (spec' : option (Spec E)) which s b :
  b <> vocode_button -> buttons (spec_drawn spec' which s) b = buttons s b.
Proof.
  intros Hb. unfold spec_drawn.
  destruct (String.eqb which "current"); destruct spec';
    rewrite ?buttons_upd_button_ne by congruence; reflexivity.
Qed.

(** X12. [draw_spec] never raises.  It replaces whatever the spectrogram
    axes showed: they end with the one image of the spectrogram and the
    title "mel spectrogram", or empty when the spectrogram is None; no
    other axes change.  For any [which] but "current" the vocode button
    is enabled exactly when there is a spectrogram; for "current" no
    button changes. *)
Theorem draw_spec_replaces_image (spec' : option (Spec E)) which s :
  let a := spec_ax_of which in
  let r := draw_spec spec' which s in
  out r = Ret tt
  /\ ax_images (axes (st r) a)
     = match spec' with
       | Some m => [{| im_data := PxSpec m; im_colorbar := false |}]
       | None => []
       end
  /\ ax_title (axes (st r) a)
     = match spec' with Some _ => "mel spectrogram" | None => "" end
  /\ (forall k, a <> k -> axes (st r) k = axes s k)
  /\ btn_disabled (buttons (st r) vocode_button)
     = (if String.eqb which "current"
        then btn_disabled (buttons s vocode_button)
        else match spec' with None => true | Some _ => false end)
  /\ (forall b, b <> vocode_button -> buttons (st r) b = buttons s b).
Proof.
  intros a r. subst a r. rewrite draw_spec_run. cbn [out st].
  rewrite axes_spec_drawn_eq, buttons_spec_drawn.
  split; [reflexivity|].
  split; [destruct spec'; reflexivity|].
  split; [destruct spec'; reflexivity|].
  split; [intros k Hk; apply axes_spec_drawn_ne, Hk|].
  split; [destruct (String.eqb which "current"); reflexivity|].
  intros b Hb. apply buttons_spec_drawn_ne, Hb.
Qed.
End Drawing.

#[global] Hint Rewrite @suptitle_uncolor @suptitle_embed_drawn
  @axes_embed_drawn_eq : ui.
#[global] Hint Rewrite @axes_uncolor_ne @axes_embed_drawn_ne
  using discriminate : ui.

Section DrawnFrames.
Context {E : Env}.
Implicit Types (s : UI E) (w : World E) (a : axes_id).

Lemma umap_hot_uncolor a s : umap_hot (uncolor a s) = umap_hot s.
Proof. unfold uncolor. destruct (ax_images (axes s a)); reflexivity. Qed.

Lemma logs_uncolor a s : logs (uncolor a s) = logs s.
Proof. unfold uncolor. destruct (ax_images (axes s a)); reflexivity. Qed.

Lemma buttons_uncolor a s : buttons (uncolor a s) = buttons s.
Proof. unfold uncolor. destruct (ax_images (axes s a)); reflexivity. Qed.

Lemma loading_bar_uncolor a s : loading_bar (uncolor a s) = loading_bar s.
Proof. unfold uncolor. destruct (ax_images (axes s a)); reflexivity. Qed.

Lemma umap_hot_embed_drawn w a embed shape title s :
  umap_hot (embed_drawn w a embed shape title s) = umap_hot s.
Proof. unfold embed_drawn. destruct embed; reflexivity. Qed.

Lemma logs_embed_drawn w a embed shape title s :
  logs (embed_drawn w a embed shape title s) = logs s.
Proof. unfold embed_drawn. destruct embed; reflexivity. Qed.

Lemma buttons_embed_drawn w a embed shape title s :
  buttons (embed_drawn w a embed shape title s) = buttons s.
Proof. unfold embed_drawn. destruct embed; reflexivity. Qed.

Lemma loading_bar_embed_drawn w a embed shape title s :
  loading_bar (embed_drawn w a embed shape title s) = loading_bar s.
Proof. unfold embed_drawn. destruct embed; reflexivity. Qed.

End DrawnFrames.

#[global] Hint Rewrite @umap_hot_uncolor @logs_uncolor @buttons_uncolor
  @loading_bar_uncolor @umap_hot_embed_drawn @logs_embed_drawn
  @buttons_embed_drawn @loading_bar_embed_drawn : ui.


(** Looks up one axes through the calls that led to a state. *)
Ltac axes_norm :=
  repeat first
    [ rewrite axes_logged | rewrite axes_upd_button
    | rewrite axes_upd_loading_bar | rewrite axes_upd_axes_eq
    | rewrite axes_upd_axes_ne by discriminate
    | rewrite axes_embed_drawn_eq
    | rewrite axes_embed_drawn_ne by discriminate
    | rewrite axes_uncolor_ne by discriminate
    | rewrite axes_set_suptitle ].

Section DrawUtterance.
Context {E : Env}.
Implicit Types (s : UI E) (w : World E) (a : axes_id).

Lemma which_ax_eq which :
  which_ax which = (speaker_ax_of which, emotion_ax_of which, spec_ax_of which).
Proof.
  unfold which_ax, speaker_ax_of, emotion_ax_of, spec_ax_of.
  destruct (String.eqb which "current"); reflexivity.
Qed.

Lemma axes_which_differ which :
  speaker_ax_of which <> spec_ax_of which
  /\ emotion_ax_of which <> spec_ax_of which
  /\ figure_of (spec_ax_of which) = figure_of (speaker_ax_of which).
Proof.
  unfold speaker_ax_of, emotion_ax_of, spec_ax_of.
  destruct (String.eqb which "current"); repeat split; discriminate.
Qed.

(** X13. [draw_utterance] draws the spectrogram before the embeddings:
    whether or not the embedding plot then fails, the spectrogram axes end
    with the one image of the utterance's spectrogram and, for any [which]
    but "current", the vocode button is enabled.  The figure is titled
    with the utterance's name only when it has an emotion embedding.  The
    call raises exactly when [draw_embed] does: AttributeError, for an
    image without a colorbar on one of the two embedding axes. *)
Theorem draw_utterance_draws_spec_first w (u : Utterance E) which s e :
  let r := draw_utterance w u which s in
  ax_images (axes (st r) (spec_ax_of which))
  = [{| im_data := PxSpec (spec u); im_colorbar := false |}]
  /\ btn_disabled (buttons (st r) vocode_button)
     = (if String.eqb which "current"
        then btn_disabled (buttons s vocode_button) else false)
  /\ suptitle (st r) (figure_of (spec_ax_of which))
     = match emotion_embed u with None => "" | Some _ => name u end
  /\ (out r = Raise e
      <-> e = AttributeError
          /\ (first_image_has_colorbar (axes s (speaker_ax_of which)) = false
              \/ first_image_has_colorbar (axes s (emotion_ax_of which))
                 = false)).
Proof.
  intros r. subst r.
  destruct (axes_which_differ which) as (Hn1 & Hn2 & Hfig).
  destruct (speaker_emotion_ax_differ which) as [Hne Hfig'].
  unfold draw_utterance, mbind, M_bind.
  rewrite (bind_then _ _ _ _ _ _ (draw_spec_run _ _ _)).
  pose proof (draw_embed_run w (Some (speaker_embed u)) (emotion_embed u)
                (Some (name u)) which
                (spec_drawn (Some (spec u)) which s)) as Hr.
  cbv zeta in Hr. rewrite Hr. clear Hr.
  rewrite !axes_spec_drawn_ne by congruence. rewrite Hfig, Hfig'.
  destruct (first_image_has_colorbar (axes s (speaker_ax_of which)));
    [destruct (first_image_has_colorbar (axes s (emotion_ax_of which)))|];
    rewrite prepends_mk; cbn [out st];
    repeat first
      [ rewrite axes_embed_drawn_ne by assumption
      | rewrite axes_uncolor_ne by assumption
      | rewrite buttons_embed_drawn | rewrite buttons_uncolor
      | rewrite suptitle_embed_drawn | rewrite suptitle_uncolor
      | rewrite axes_set_suptitle | rewrite buttons_set_suptitle
      | rewrite axes_spec_drawn_eq | rewrite buttons_spec_drawn
      | rewrite suptitle_set_suptitle_eq ];
    (split; [reflexivity|]);
    (split; [destruct (String.eqb which "current"); reflexivity|]);
    (split; [destruct (emotion_embed u); reflexivity|]).
  - split; [discriminate | intros (_ & [H|H]); discriminate].
  - split; [intros [= <-]; auto | intros [-> _]; reflexivity].
  - split; [intros [= <-]; auto | intros [-> _]; reflexivity].
Qed.
End DrawUtterance.

Section Reset.
Context {E : Env}.
Implicit Types (s : UI E) (w : World E) (a : axes_id).

Lemma draw_umap_block_nil_run w a embed_of title s :
  draw_umap_block w a embed_of title [] s
  = mkRes (Ret tt)
      (upd_axes a (ax_set_yticks [])
         (upd_axes a (ax_set_xticks [])
            (upd_axes a (ax_set_aspect "equal" "datalim")
               (upd_axes a (ax_text (add_points_text min_umap_points))
                  (upd_axes a ax_clear s)))))
      [EvCanvasDraw (figure_of a)].
Proof.
  unfold draw_umap_block. cbn [map length np_unique foldr color_dict].
  change (Z.of_nat 0 <? min_umap_points) with true. cbv iota.
  unfold modify_axes, canvas_draw, mbind, M_bind. mrun. reflexivity.
Qed.

Lemma spec_drawn_none_current s :
  spec_drawn None "current" s
  = upd_axes current_spec_ax (ax_set_yticks [])
      (upd_axes current_spec_ax (ax_set_xticks [])
         (upd_axes current_spec_ax ax_clear s)).
Proof. reflexivity. Qed.

Lemma spec_drawn_none_generated s :
  spec_drawn None "generated" s
  = upd_button vocode_button (btn_setDisabled true)
      (upd_axes gen_spec_ax (ax_set_yticks [])
         (upd_axes gen_spec_ax (ax_set_xticks [])
            (upd_axes gen_spec_ax ax_clear s))).
Proof. reflexivity. Qed.

Lemma push_five_empty ls :
  (length ls <= 5)%nat ->
  push (push (push (push (push ls "") "") "") "") "" = [""; ""; ""; ""; ""].
Proof.
  intros H.
  destruct ls as [|a [|b [|c [|d [|e [|f ?]]]]]]; simpl in H; try lia;
    reflexivity.
Qed.

Lemma foldl_push_ends l ls :
  (length l <= 5)%nat -> exists pre, foldl push ls l = pre ++ l.
Proof.
  induction l as [|x l IH] using rev_ind; intros Hl.
  - exists ls. rewrite app_nil_r. reflexivity.
  - rewrite length_app in Hl. simpl in Hl.
    destruct IH as [pre Hpre]; [lia|].
    rewrite foldl_app. cbn [foldl]. rewrite Hpre.
    unfold push, evict, max_log_lines. rewrite <- app_assoc.
    destruct (Z.ltb_spec 5 (Z.of_nat (length (pre ++ l ++ [x])))) as [H|H];
      [|eauto].
    destruct pre as [|a pre]; [|exists pre; reflexivity].
    rewrite app_nil_l, length_app in H. simpl in H. lia.
Qed.

(** With a colorbar to remove wherever there is an image,
    [reset_interface] runs to its end. *)
Lemma reset_interface_run w s :
  Forall (fun a => first_image_has_colorbar (axes s a) = true)
         embed_axes_ids ->
  exists S T,
    reset_interface w s = mkRes (Ret tt) S T
    /\ Forall (fun b => btn_disabled (buttons S b) = true) action_buttons
    /\ Forall (fun a => ax_images (axes S a) = [] /\ ax_title (axes S a) = "")
              utterance_axes
    /\ Forall (fun a =>
                 ax_texts (axes S a) = [add_points_text min_umap_points]
                 /\ ax_scatters (axes S a) = [])
              [speaker_umap_ax; emotion_umap_ax]
    /\ suptitle S wav_ori_fig = "" /\ suptitle S wav_gen_fig = ""
    /\ pb_text_visible (loading_bar S) = false
    /\ umap_hot S = umap_hot s
    /\ logs S = foldl push (logs s) [""; ""; ""; ""; ""].
Proof.
  intros Hok.
  apply Forall_cons in Hok as [H1 Hok]. apply Forall_cons in Hok as [H2 Hok].
  apply Forall_cons in Hok as [H3 Hok]. apply Forall_cons in Hok as [H4 _].
  unfold reset_interface, mbind, M_bind.
  pose proof (draw_embed_run w None None None "current" s) as Hc.
  cbv zeta in Hc.
  change (speaker_ax_of "current") with current_speaker_embed_ax in Hc.
  change (emotion_ax_of "current") with current_emotion_embed_ax in Hc.
  rewrite H1, H2 in Hc. rewrite (bind_then _ _ _ _ _ _ Hc). clear Hc.
  match goal with
  | |- context [bind (draw_embed _ _ _ _ "generated") _ ?S] =>
      pose proof (draw_embed_run w None None None "generated" S) as Hg
  end.
  cbv zeta in Hg.
  change (speaker_ax_of "generated") with gen_speaker_embed_ax in Hg.
  change (emotion_ax_of "generated") with gen_emotion_embed_ax in Hg.
  rewrite !axes_embed_drawn_ne, !axes_uncolor_ne, !axes_embed_drawn_ne,
    !axes_uncolor_ne in Hg by discriminate.
  rewrite !axes_set_suptitle, H3, H4 in Hg.
  rewrite (bind_then _ _ _ _ _ _ Hg). clear Hg.
  rewrite (bind_then _ _ _ _ _ _ (draw_spec_run None "current" _)).
  rewrite (bind_then _ _ _ _ _ _ (draw_spec_run None "generated" _)).
  unfold draw_umap_projections, mbind, M_bind. rewrite bind_assoc.
  rewrite (bind_then _ _ _ _ _ _ (draw_umap_block_nil_run _ _ _ _ _)).
  rewrite (bind_then _ _ _ _ _ _ (draw_umap_block_nil_run _ _ _ _ _)).
  unfold set_loading, loading_bar_update, modify_button, mbind, M_bind.
  change (py_range max_log_lines) with [0; 1; 2; 3; 4]. cbn [for_each].
  mrun'. mdone.
  rewrite spec_drawn_none_current, spec_drawn_none_generated.
  eexists _, _. split; [reflexivity|].
  split; [|split; [|split; [|split; [|split; [|split; [|split]]]]]].
  - repeat (constructor; [reflexivity|]). constructor.
  - repeat (constructor; [axes_norm; split; reflexivity|]).
    constructor.
  - repeat (constructor; [axes_norm; split; reflexivity|]).
    constructor.
  - autorewrite with ui. reflexivity.
  - autorewrite with ui. reflexivity.
  - reflexivity.
  - autorewrite with ui. reflexivity.
  - autorewrite with ui. reflexivity.
Qed.

(** Without one, it stops at the first such axes. *)
Lemma reset_interface_raises w s :
  Exists (fun a => first_image_has_colorbar (axes s a) = false)
         embed_axes_ids ->
  out (reset_interface w s) = Raise AttributeError.
Proof.
  intros Hex.
  unfold reset_interface, mbind, M_bind.
  pose proof (draw_embed_run w None None None "current" s) as Hc.
  cbv zeta in Hc.
  change (speaker_ax_of "current") with current_speaker_embed_ax in Hc.
  change (emotion_ax_of "current") with current_emotion_embed_ax in Hc.
  destruct (first_image_has_colorbar (axes s current_speaker_embed_ax)) eqn:H1;
    [|rewrite (bind_raise _ _ _ _ _ _ Hc); reflexivity].
  destruct (first_image_has_colorbar (axes s current_emotion_embed_ax)) eqn:H2;
    [|rewrite (bind_raise _ _ _ _ _ _ Hc); reflexivity].
  rewrite (bind_then _ _ _ _ _ _ Hc). clear Hc.
  match goal with
  | |- context [bind (draw_embed _ _ _ _ "generated") _ ?S] =>
      pose proof (draw_embed_run w None None None "generated" S) as Hg
  end.
  cbv zeta in Hg.
  change (speaker_ax_of "generated") with gen_speaker_embed_ax in Hg.
  change (emotion_ax_of "generated") with gen_emotion_embed_ax in Hg.
  rewrite !axes_embed_drawn_ne, !axes_uncolor_ne, !axes_embed_drawn_ne,
    !axes_uncolor_ne in Hg by discriminate.
  rewrite !axes_set_suptitle in Hg.
  destruct (first_image_has_colorbar (axes s gen_speaker_embed_ax)) eqn:H3;
    [|rewrite (bind_raise _ _ _ _ _ _ Hg); reflexivity].
  destruct (first_image_has_colorbar (axes s gen_emotion_embed_ax)) eqn:H4;
    [|rewrite (bind_raise _ _ _ _ _ _ Hg); reflexivity].
  exfalso. unfold embed_axes_ids in Hex.
  repeat (apply Exists_cons in Hex as [Hex|Hex]; [congruence|]).
  inversion Hex.
Qed.

(** X14. [reset_interface] raises AttributeError exactly when one of the
    four embedding axes shows an image without a colorbar, and raises
    nothing else.  When it returns, the six action buttons are disabled,
    the six utterance axes hold no image and no title, both figure titles
    are empty, each UMAP axes shows the "Add 4 more points" message and no
    point, the text of the loading bar is hidden, [umap_hot] is as it was
    and the last five entries of the log are empty. *)
Theorem reset_interface_blanks_the_interface w s e :
  let r := reset_interface w s in
  (out r = Raise e
   <-> e = AttributeError
       /\ Exists (fun a => first_image_has_colorbar (axes s a) = false)
                 embed_axes_ids)
  /\ match out r with
     | Ret _ =>
         Forall (fun b => btn_disabled (buttons (st r) b) = true)
                action_buttons
         /\ Forall (fun a => ax_images (axes (st r) a) = []
                             /\ ax_title (axes (st r) a) = "")
                   utterance_axes
         /\ Forall (fun a =>
                      ax_texts (axes (st r) a)
                      = [add_points_text min_umap_points]
                      /\ ax_scatters (axes (st r) a) = [])
                   [speaker_umap_ax; emotion_umap_ax]
         /\ suptitle (st r) wav_ori_fig = ""
         /\ suptitle (st r) wav_gen_fig = ""
         /\ pb_text_visible (loading_bar (st r)) = false
         /\ umap_hot (st r) = umap_hot s
         /\ exists pre, logs (st r) = pre ++ [""; ""; ""; ""; ""]
     | Raise _ => True
     end.
Proof.
  intros r. subst r.
  assert (Hd : Forall (fun a => first_image_has_colorbar (axes s a) = true)
                      embed_axes_ids
               \/ Exists (fun a => first_image_has_colorbar (axes s a) = false)
                         embed_axes_ids).
  { unfold embed_axes_ids.
    destruct (first_image_has_colorbar (axes s current_speaker_embed_ax))
      eqn:H1; [|right; apply Exists_cons_hd; exact H1].
    destruct (first_image_has_colorbar (axes s current_emotion_embed_ax))
      eqn:H2; [|right; apply Exists_cons_tl, Exists_cons_hd; exact H2].
    destruct (first_image_has_colorbar (axes s gen_speaker_embed_ax))
      eqn:H3;
      [|right; apply Exists_cons_tl, Exists_cons_tl, Exists_cons_hd; exact H3].
    destruct (first_image_has_colorbar (axes s gen_emotion_embed_ax))
      eqn:H4;
      [|right; apply Exists_cons_tl, Exists_cons_tl, Exists_cons_tl,
          Exists_cons_hd; exact H4].
    left. repeat constructor; assumption. }
  destruct Hd as [Hall|Hex].
  - destruct (reset_interface_run w s Hall)
      as (S & T & -> & Hb & Ha & Hu & Ht1 & Ht2 & Hp & Hh & Hl).
    cbn [out st]. split.
    + split; [discriminate|]. intros [_ Hex].
      apply Exists_exists in Hex as (a & Ha1 & Ha2).
      rewrite Forall_forall in Hall. rewrite (Hall a Ha1) in Ha2.
      discriminate.
    + repeat (split; [assumption|]). rewrite Hl.
      apply foldl_push_ends. simpl. lia.
  - rewrite (reset_interface_raises w s Hex). split; [|exact I].
    split; [intros [= <-]; auto | intros [-> _]; reflexivity].
Qed.
End Reset.

Section Browser.
Context {E : Env}.
Implicit Types (s : UI E) (w : World E).

(** X15. [browser_select_next] raises ZeroDivisionError on an empty
    utterance box, the object untouched, and raises in no other case.  On
    a box with rows it keeps the rows and moves the selection to the next
    row, going back to the first row after the last one. *)
Theorem browser_select_next_wraps s e :
  let box := combos s utterance_box in
  let r := browser_select_next s in
  let box' := combos (st r) utterance_box in
  (out r = Raise e <-> e = ZeroDivisionError /\ cb_count box = 0)
  /\ match out r with
     | Raise _ => st r = s
     | Ret _ =>
         cb_items box' = cb_items box
         /\ cb_currentIndex box'
            = (cb_currentIndex box + 1) `mod` cb_count box
         /\ 0 <= cb_currentIndex box' < cb_count box
         /\ (cb_currentIndex box = cb_count box - 1 ->
             cb_currentIndex box' = 0)
     end.
Proof.
  intros box r box'. subst box r box'.
  unfold browser_select_next, modify_combo, mbind, M_bind.
  rewrite bind_gets.
  destruct (Z.eqb_spec (cb_count (combos s utterance_box)) 0) as [Hz|Hz].
  - cbn [raise out st]. split; [|reflexivity].
    split; [intros [= <-]; auto | intros [-> _]; reflexivity].
  - cbn [modify out st]. split.
    { split; [discriminate | intros [_ H]; contradiction]. }
    rewrite combos_upd_combo_eq.
    set (b := combos s utterance_box) in *.
    assert (Hpos : 0 < cb_count b) by (unfold cb_count in *; lia).
    pose proof (Z.mod_pos_bound (cb_currentIndex b + 1) (cb_count b) Hpos)
      as Hm.
    unfold cb_setCurrentIndex, cb_with, cb_currentIndex in *.
    cbn [cb_items cb_current].
    assert (Hc : cb_count {| cb_items := cb_items b;
                             cb_current := cb_current b;
                             cb_disabled := cb_disabled b;
                             cb_signals_blocked := cb_signals_blocked b |}
                 = cb_count b) by reflexivity.
    destruct (Z.leb_spec 0 ((cb_current b + 1) `mod` cb_count b)); [|lia].
    destruct (Z.ltb_spec ((cb_current b + 1) `mod` cb_count b) (cb_count b));
      [|lia].
    cbn [andb]. repeat split; try lia.
    intros ->. replace (cb_count b - 1 + 1) with (cb_count b) by lia.
    apply Z.mod_same. lia.
Qed.

Lemma disable_browser_run s :
  disable_browser s
  = mkRes (Ret tt)
      (upd_checkbox auto_next_checkbox (chk_setDisabled true)
         (upd_button browser_load_button (btn_setDisabled true)
            (upd_combo dataset_box (cb_setDisabled true)
               (upd_combo speaker_box (cb_setDisabled true)
                  (upd_combo utterance_box (cb_setDisabled true)
                     (upd_button random_dataset_button (btn_setDisabled true)
                        (upd_button random_speaker_button
                           (btn_setDisabled true)
                           (upd_button random_utterance_button
                              (btn_setDisabled true) s))))))))
      [].
Proof.
  unfold disable_browser, modify_button, modify_combo, modify_checkbox,
    mbind, M_bind.
  rewrite !bind_modify. reflexivity.
Qed.



(** X17. At level 0 or below, without a datasets root or without any
    recognized dataset under it, [populate_browser] returns after the
    warning: the warning is logged and printed to stderr, the three
    "Random" buttons, the "Load" button, the three boxes and the
    "auto-next" checkbox are disabled, and the rows and the selection of
    the three boxes stay as they were; no box is repopulated. *)
Theorem populate_browser_without_datasets w root recognized_datasets level
    random s :
  level <= 0 ->
  match root with
  | None => True
  | Some p => existing_datasets w p recognized_datasets = []
  end ->
  let r := populate_browser w root recognized_datasets level random s in
  out r = Ret tt
  /\ tr r = [EvLog (no_datasets_msg root) "newline"; EvProcessEvents;
             EvStderr (no_datasets_stderr root recognized_datasets)]
  /\ Forall (fun b => btn_disabled (buttons (st r) b) = true) browser_buttons
  /\ Forall (fun c => cb_disabled (combos (st r) c) = true
                      /\ cb_items (combos (st r) c) = cb_items (combos s c)
                      /\ cb_current (combos (st r) c)
                         = cb_current (combos s c))
            browser_boxes
  /\ chk_disabled (checkboxes (st r) auto_next_checkbox) = true.
Proof.
  intros Hl Hroot r.
  set (msg := no_datasets_msg root).
  set (err := no_datasets_stderr root recognized_datasets).
  assert (Hrun : exists s0 : UI E,
             combos s0 = combos s
             /\ populate_browser w root recognized_datasets level random s
                = mkRes (Ret tt) (st (disable_browser (logged msg s0)))
                    [EvLog msg "newline"; EvProcessEvents; EvStderr err]).
  { assert (Hw : forall s0 : UI E,
               (log msg "newline";; emit (EvStderr err);; disable_browser) s0
               = mkRes (Ret tt) (st (disable_browser (logged msg s0)))
                   [EvLog msg "newline"; EvProcessEvents; EvStderr err]).
    { intros s0. unfold mbind, M_bind. rewrite bind_log, bind_emit.
      rewrite disable_browser_run. reflexivity. }
    unfold populate_browser. cbv zeta. fold msg err.
    destruct (Z.leb_spec level 0); [|lia].
    unfold mbind at 1, M_bind at 1.
    destruct root as [root|].
    - unfold mbind at 1, M_bind at 1, modify_button.
      rewrite bind_assoc, bind_modify, bind_ret. cbn [orb].
      rewrite Hroot. change (Z.of_nat (length []) =? 0) with true. cbv iota.
      eexists. split; [|apply Hw]. reflexivity.
    - rewrite bind_ret. cbn [orb]. exists s. split; [reflexivity|apply Hw]. }
  destruct Hrun as (s0 & Hs0 & Hrun). subst r. rewrite Hrun. cbn [out st tr].
  split; [reflexivity|]. split; [reflexivity|].
  rewrite disable_browser_run. cbn [st].
  split; [|split].
  - repeat (constructor; [reflexivity|]). constructor.
  - repeat (constructor;
            [autorewrite with ui; rewrite Hs0; repeat split; reflexivity|]).
    constructor.
  - reflexivity.
Qed.
End Browser.

Section Boxes.
Context {E : Env}.
Implicit Types (s : UI E) (w : World E) (items : list (item E)).

(** X18. [repopulate_box] never raises and calls nothing outside.  The
    box ends with exactly the rows of the items, in order, whatever it
    held before; it is disabled exactly when there are no items; its
    signals are unblocked; the first row is selected unless [random] is
    set, in which case the row the generator names is selected when it is
    in range; no other box is touched. *)
Theorem repopulate_box_replaces_rows randint box items random s :
  let r := repopulate_box randint box items random s in
  let b := combos (st r) box in
  let n := Z.of_nat (length items) in
  out r = Ret tt
  /\ tr r = []
  /\ cb_items b = map (fun it => (item_text it, item_data it)) items
  /\ cb_disabled b = (n =? 0)
  /\ cb_signals_blocked b = false
  /\ cb_currentIndex b
     = (if n =? 0 then -1
        else if random
             then (if (0 <=? randint n) && (randint n <? n)
                   then randint n else -1)
             else 0)
  /\ (forall k, box <> k -> combos (st r) k = combos s k).
Proof.
  intros r b n. subst r b n. rewrite repopulate_box_run. cbn [out st tr].
  rewrite combos_repopulate_state. unfold repopulated, cb_currentIndex.
  cbn [cb_items cb_disabled cb_signals_blocked cb_current].
  repeat (split; [reflexivity|]). split.
  - destruct (Z.eqb_spec (Z.of_nat (length items)) 0); [reflexivity|].
    destruct random; [reflexivity|].
    destruct (Z.ltb_spec 0 (Z.of_nat (length items))); [reflexivity|lia].
  - intros k Hk. apply combos_repopulate_state_ne, Hk.
Qed.

Lemma itemData_repopulated randint items :
  cb_itemData (cb_currentIndex (repopulated randint items false))
              (repopulated randint items false)
  = head items ≫= item_data.
Proof.
  unfold repopulated, cb_itemData, cb_currentIndex.
  cbn [cb_items cb_current].
  destruct items as [|it items]; [reflexivity|].
  change (length (it :: items)) with (S (length items)).
  destruct (Z.eqb_spec (Z.of_nat (S (length items))) 0); [lia|].
  destruct (Z.ltb_spec 0 (Z.of_nat (S (length items)))); [|lia].
  reflexivity.
Qed.

Lemma head_pairs {A} (f : A -> string) (l : list A) (tl : list (item E))
    (g : A -> Path E) :
  head (map (fun x => ItemPair (f x) (Some (g x))) l ++ tl) ≫= item_data
  = match l with
    | x :: _ => Some (PyPath (g x))
    | [] => head tl ≫= item_data
    end.
Proof. destruct l; reflexivity. Qed.

(** X19. After a [populate_models] that returned, the three mandatory
    paths are the first files their globs matched, and
    [current_vocoder_fpath] is the first vocoder file when there is one
    and None (the "Griffin-Lim" row) when there is none. *)
Theorem current_fpaths_after_populate_models w run_id models_dir s :
  let r := populate_models w run_id models_dir s in
  let first pattern := PyPath <$> head (fs_glob w models_dir
                                          (run_id +:+ pattern)) in
  out r = Ret tt ->
  out (current_speaker_encoder_fpath (st r)) = Ret (first "/encoder.pt")
  /\ out (current_emotion_encoder_fpath (st r)) = Ret (first "/**/*.hdf5")
  /\ out (current_synthesizer_fpath (st r)) = Ret (first "/synthesizer.pt")
  /\ out (current_vocoder_fpath (st r)) = Ret (first "/vocoder.pt")
  /\ is_Some (first "/encoder.pt") /\ is_Some (first "/**/*.hdf5")
  /\ is_Some (first "/synthesizer.pt").
Proof.
  intros r first. subst r first.
  unfold populate_models, mbind, M_bind. cbv zeta.
  set (enc := fs_glob w models_dir (run_id +:+ "/encoder.pt")).
  set (emo := fs_glob w models_dir (run_id +:+ "/**/*.hdf5")).
  set (syn := fs_glob w models_dir (run_id +:+ "/synthesizer.pt")).
  set (voc := fs_glob w models_dir (run_id +:+ "/vocoder.pt")).
  unfold when.
  destruct (Z.eqb_spec (Z.of_nat (length enc)) 0) as [H1|H1];
    [rewrite bind_raise_l; discriminate|].
  rewrite bind_ret, bind_repopulate.
  destruct (Z.eqb_spec (Z.of_nat (length emo)) 0) as [H2|H2];
    [rewrite bind_raise_l; discriminate|].
  rewrite bind_ret, bind_repopulate.
  destruct (Z.eqb_spec (Z.of_nat (length syn)) 0) as [H3|H3];
    [rewrite bind_raise_l; discriminate|].
  rewrite bind_ret, bind_repopulate, repopulate_box_run. cbn [out st].
  intros _.
  unfold current_speaker_encoder_fpath, current_emotion_encoder_fpath,
    current_synthesizer_fpath, current_vocoder_fpath, current_fpath, gets.
  cbn [out].
  repeat (rewrite combos_repopulate_state
          || rewrite combos_repopulate_state_ne by discriminate).
  rewrite !itemData_repopulated.
  rewrite <- (app_nil_r (map _ enc)), <- (app_nil_r (map _ emo)),
    <- (app_nil_r (map _ syn)).
  rewrite (head_pairs (fun f => path_name E (path_parent E f)) enc []
                      (fun f => f)).
  rewrite (head_pairs (fun f => path_name E (path_parent E (path_parent E f)))
                      emo [] (fun f => f)).
  rewrite (head_pairs (fun f => path_name E (path_parent E f)) syn []
                      (fun f => f)).
  rewrite (head_pairs (fun f => path_name E (path_parent E f)) voc
                      [ItemPair "Griffin-Lim" None] (fun f => f)).
  destruct enc; [contradiction|]. destruct emo; [contradiction|].
  destruct syn; [contradiction|].
  repeat split; try (destruct voc; reflexivity); cbn; eauto.
Qed.

(** X20. [populate_gen_options] leaves the seed textbox enabled exactly
    when it leaves the seed checkbox checked, that is when a seed is
    given, and showing the seed or "0"; [update_seed_textbox] right after
    it changes nothing.  Without [trim_silences] the trim checkbox is
    unchecked and disabled; with it the checkbox is left as it was, so a
    checkbox disabled once is never enabled again by this method. *)
Theorem populate_gen_options_seed_textbox seed trim_silences s :
  let r := populate_gen_options seed trim_silences s in
  let given := match seed with Some _ => true | None => false end in
  out r = Ret tt
  /\ chk_checked (checkboxes (st r) random_seed_checkbox) = given
  /\ le_enabled (seed_textbox (st r)) = given
  /\ le_text (seed_textbox (st r)) = pretty (default 0 seed)
  /\ seed_textbox (st (update_seed_textbox (st r))) = seed_textbox (st r)
  /\ checkboxes (st r) trim_silences_checkbox
     = (if trim_silences then checkboxes s trim_silences_checkbox
        else {| chk_checked := false; chk_disabled := true |}).
Proof.
  intros r given. subst r given.
  unfold populate_gen_options, update_seed_textbox, modify_checkbox, when,
    mbind, M_bind.
  destruct seed as [sd|]; destruct trim_silences; cbn [negb]; mrun;
    rewrite ?bind_gets; cbn [modify out st];
    repeat split; reflexivity.
Qed.
End Boxes.

Section UmapEdges.
Context {E : Env}.
Implicit Types (s : UI E) (w : World E) (us : list (Utterance E)).

(** X21. With fewer than [min_umap_points] utterances
    [draw_umap_projections] computes no projection: both UMAP axes are
    cleared and show the message with the number of points still
    missing, and the one-time flag stays as it was. *)
Theorem draw_umap_projections_too_few_points w us s :
  Z.of_nat (length us) < min_umap_points ->
  let r := draw_umap_projections w us s in
  let msg := add_points_text (min_umap_points - Z.of_nat (length us)) in
  out r = Ret tt
  /\ projections_computed (tr r) = 0%nat
  /\ umap_hot (st r) = umap_hot s
  /\ ax_texts (axes (st r) speaker_umap_ax) = [msg]
  /\ ax_texts (axes (st r) emotion_umap_ax) = [msg]
  /\ ax_scatters (axes (st r) speaker_umap_ax) = []
  /\ ax_scatters (axes (st r) emotion_umap_ax) = [].
Proof. intros Hfew. exact (draw_umap_projections_few w us s Hfew). Qed.

(** X22. With more than 14 different speaker names, however many
    utterances, [draw_umap_projections] raises IndexError while building
    the colour table: no projection is computed and the flag stays as it
    was, but the speaker axes have already been cleared, so the points
    drawn before are gone. *)
Theorem draw_umap_projections_more_speakers_than_colours w us s :
  (14 < length (np_unique (map speaker_name us)))%nat ->
  let r := draw_umap_projections w us s in
  out r = Raise IndexError
  /\ projections_computed (tr r) = 0%nat
  /\ umap_hot (st r) = umap_hot s
  /\ ax_scatters (axes (st r) speaker_umap_ax) = [].
Proof.
  intros Hmany. exact (draw_umap_projections_too_many_speakers w us s Hmany).
Qed.

(** X23. With at least [min_umap_points] utterances of at most 14
    speakers, and a reducer that returns one row per utterance, the two
    projections are computed, one point per utterance is plotted on each
    UMAP axes, the flag is up afterwards, and the one-time notice is
    logged exactly when the flag was down before the call. *)
Theorem draw_umap_projections_plots_every_utterance w us s pts1 pts2 :
  min_umap_points <= Z.of_nat (length us) ->
  (length (np_unique (map speaker_name us)) <= 14)%nat ->
  umap_fit_transform w
    (ceil_sqrt (Z.of_nat (length (map (fun u => Some (speaker_embed u)) us))))
    (map (fun u => Some (speaker_embed u)) us) = Ret pts1 ->
  length pts1 = length us ->
  umap_fit_transform w
    (ceil_sqrt (Z.of_nat (length (map emotion_embed us))))
    (map emotion_embed us) = Ret pts2 ->
  length pts2 = length us ->
  let r := draw_umap_projections w us s in
  out r = Ret tt
  /\ umap_hot (st r) = true
  /\ projections_computed (tr r) = 2%nat
  /\ first_time_notices (tr r) = cold s
  /\ length (ax_scatters (axes (st r) speaker_umap_ax)) = length us
  /\ length (ax_scatters (axes (st r) emotion_umap_ax)) = length us.
Proof.
  intros H1 H2 H3 H4 H5 H6.
  exact (draw_umap_projections_plots w us s pts1 pts2 H1 H2 H3 H4 H5 H6).
Qed.

(** X24. The one-time flag is raised, and the notice logged, before the
    reducer runs: when the first projection fails, the error propagates,
    no point is plotted, and [umap_hot] is up all the same, so the notice
    will not be shown when a later projection succeeds. *)
Theorem draw_umap_projections_reducer_failure w us s e :
  min_umap_points <= Z.of_nat (length us) ->
  (length (np_unique (map speaker_name us)) <= 14)%nat ->
  umap_fit_transform w
    (ceil_sqrt (Z.of_nat (length (map (fun u => Some (speaker_embed u)) us))))
    (map (fun u => Some (speaker_embed u)) us) = Raise e ->
  let r := draw_umap_projections w us s in
  out r = Raise e
  /\ umap_hot (st r) = true
  /\ first_time_notices (tr r) = cold s
  /\ projections_computed (tr r) = 1%nat
  /\ ax_scatters (axes (st r) speaker_umap_ax) = []
  /\ axes (st r) emotion_umap_ax = axes s emotion_umap_ax.
Proof.
  intros Hmany Hfit Hfail r. subst r.
  unfold draw_umap_projections, draw_umap_block. cbv zeta.
  unfold mbind, M_bind, modify_axes, canvas_draw.
  rewrite bind_assoc, bind_modify.
  destruct (color_dict_fits 0 (np_unique (map speaker_name us)) ∅) as [d Hd];
    [simpl; lia|].
  rewrite Hd, bind_assoc, bind_ret.
  destruct (Z.ltb_spec (Z.of_nat (length us)) min_umap_points); [lia|].
  rewrite !bind_assoc, bind_gets. rewrite umap_hot_upd_axes.
  set (notice := first_time_msg).
  unfold when, cold.
  destruct (umap_hot s) eqn:Hhot; cbn [negb]; mrun'; rewrite Hfail;
    rewrite bind_raise_l; mdone; cbn [out st tr];
    rewrite ?umap_hot_set_umap_hot, ?umap_hot_upd_axes, ?axes_set_umap_hot,
      ?axes_logged, ?axes_upd_axes_eq;
    rewrite ?axes_upd_axes_ne by discriminate.
  - repeat split; try reflexivity. exact Hhot.
  - repeat split; reflexivity.
Qed.
End UmapEdges.

Section Sequences.
Context {E : Env}.
Implicit Types (s : UI E) (u : Utterance E).

Lemma lastn_app_lastn {A} (n : nat) (a b : list A) :
  lastn n (lastn n a ++ b) = lastn n (a ++ b).
Proof.
  unfold lastn. rewrite !length_app, length_drop.
  destruct (Nat.le_gt_cases (length a) n) as [Hle|Hgt].
  - replace (length a - n)%nat with 0%nat by lia. cbn [drop].
    f_equal. lia.
  - replace (length a - (length a - n) + length b - n)%nat
      with (length b) by lia.
    replace (length a + length b - n)%nat
      with (length a - n + length b)%nat by lia.
    rewrite <- drop_drop.
    rewrite (drop_app_le a b (length a - n)) by lia. reflexivity.
Qed.

Lemma push_lastn ls x :
  (length ls <= 5)%nat -> push ls x = lastn 5 (ls ++ [x]).
Proof.
  intros H. unfold push, evict, lastn, max_log_lines.
  rewrite length_app. simpl length.
  destruct (Z.ltb_spec 5 (Z.of_nat (length ls + 1))).
  - replace (length ls + 1 - 5)%nat with 1%nat by lia.
    destruct ls; [simpl in *; lia | reflexivity].
  - replace (length ls + 1 - 5)%nat with 0%nat by lia. reflexivity.
Qed.

Lemma log_pieces_short line :
  py_len line <= max_log_width -> log_pieces line = [line].
Proof.
  intros H. unfold log_pieces.
  destruct (Z.ltb_spec max_log_width (py_len line)); [lia|reflexivity].
Qed.

(** X25. A run of short lines logged one after the other leaves in the
    buffer the last [max_log_lines] of the old entries followed by the
    lines: the window shows the five most recent lines. *)
Theorem log_shows_most_recent_lines (lines : list string) s :
  Forall (fun l => py_len l <= max_log_width) lines ->
  (length (logs s) <= 5)%nat ->
  let r := for_each lines (fun l => log l "newline") s in
  out r = Ret tt
  /\ logs (st r) = lastn 5 (logs s ++ lines)
  /\ (lines <> [] ->
      log_window (st r) = String.concat newline (logs (st r))).
Proof.
  intros Hshort. revert s.
  induction Hshort as [|l lines Hl _ IH]; intros s Hlen r; subst r.
  - cbn [for_each]. split; [reflexivity|]. split; [|congruence].
    rewrite app_nil_r. unfold lastn.
    replace (length (logs s) - 5)%nat with 0%nat by lia. reflexivity.
  - cbn [for_each]. rewrite bind_log, out_prepends, st_prepends.
    assert (Hp : logs (logged l s) = push (logs s) l).
    { rewrite logs_logged, (log_pieces_short l Hl). reflexivity. }
    destruct (IH (logged l s)) as (Ho & Hlogs & Hw).
    { rewrite Hp. apply length_push, Hlen. }
    split; [exact Ho|]. split.
    + rewrite Hlogs, Hp, push_lastn by exact Hlen.
      rewrite lastn_app_lastn, <- app_assoc. reflexivity.
    + intros _. destruct lines as [|l' lines'].
      * reflexivity.
      * apply Hw. discriminate.
Qed.

Lemma registered_items_take u (b : QComboBox (pyobj E)) :
  (length (cb_items b) <= 20)%nat ->
  cb_items (registered u b) = take 20 (history_row u :: cb_items b).
Proof.
  intros H. rewrite registered_items. unfold history_row.
  destruct (Nat.leb_spec 20 (length (cb_items b))).
  - cbn [take]. f_equal. rewrite delete_take_drop.
    rewrite (drop_ge (cb_items b) 20) by lia. apply app_nil_r.
  - cbn [take]. f_equal. rewrite take_ge by lia. reflexivity.
Qed.

Lemma take_app_take {A} (n : nat) (a b : list A) :
  take n (a ++ take n b) = take n (a ++ b).
Proof.
  destruct (Nat.le_gt_cases n (length a)).
  - rewrite !take_app_le by assumption. reflexivity.
  - rewrite !take_app_ge by lia. rewrite take_take. f_equal. f_equal. lia.
Qed.

Lemma selected_utterance_registered u s :
  out (selected_utterance (st (register_utterance u s)))
  = Ret (Some (PyUtterance u)).
Proof.
  unfold selected_utterance, gets. cbn [out]. f_equal.
  destruct (register_history s u) as [_ Hh]. rewrite Hh.
  unfold cb_currentIndex. rewrite registered_current.
  unfold cb_itemData. change (0 <=? 0) with true. cbv iota.
  rewrite registered_items. destruct (20 <=? _)%nat; reflexivity.
Qed.

Lemma st_for_each_nil {A} (body : A -> M (E:=E) unit) s :
  st (for_each [] body s) = s.
Proof. reflexivity. Qed.

Lemma for_each_register_cons u (us : list (Utterance E)) s :
  for_each (u :: us) register_utterance s
  = prepends (tr (register_utterance u s))
      (for_each us register_utterance (st (register_utterance u s))).
Proof.
  exact (bind_returns (register_utterance u)
           (fun _ => for_each us register_utterance) s tt
           (proj1 (register_history s u))).
Qed.

(** X26. Utterances registered one after the other leave in the history
    the rows of the utterances, the newest first, followed by the old
    rows, cut at [max_saved_utterances]: the history holds the twenty
    most recent utterances.  The utterance registered last is the
    selected one. *)
Theorem history_holds_most_recent (us : list (Utterance E)) s :
  (length (cb_items (combos s utterance_history)) <= 20)%nat ->
  let r := for_each us register_utterance s in
  out r = Ret tt
  /\ cb_items (combos (st r) utterance_history)
     = take 20 (rev (map history_row us)
                ++ cb_items (combos s utterance_history))
  /\ match last us with
     | Some u => out (selected_utterance (st r)) = Ret (Some (PyUtterance u))
     | None => True
     end.
Proof.
  revert s. induction us as [|u us IH]; intros s Hlen r; subst r.
  - rewrite st_for_each_nil. split; [reflexivity|]. split; [|exact I].
    cbn [map rev app]. rewrite take_ge by lia. reflexivity.
  - rewrite for_each_register_cons, out_prepends, st_prepends.
    destruct (register_history s u) as [_ Hh].
    assert (Hi : cb_items (combos (st (register_utterance u s))
                                  utterance_history)
                 = take 20 (history_row u
                            :: cb_items (combos s utterance_history))).
    { rewrite Hh. apply registered_items_take, Hlen. }
    destruct (IH (st (register_utterance u s))) as (Ho' & Hi' & Hs').
    { rewrite Hi, length_take. lia. }
    split; [exact Ho'|]. split.
    + rewrite Hi', Hi, take_app_take. cbn [map rev].
      rewrite <- app_assoc. reflexivity.
    + destruct us as [|u' us'].
      * rewrite st_for_each_nil. apply selected_utterance_registered.
      * exact Hs'.
Qed.

Lemma pb_setValue_spec (v0 : Z) (p : QProgressBar) :
  pb_minimum p = 0 -> 0 <= v0 -> pb_value p <= pb_maximum p ->
  let p' := pb_setValue v0 p in
  pb_minimum p' = 0 /\ pb_maximum p' = pb_maximum p
  /\ pb_text_visible p' = pb_text_visible p
  /\ pb_value p'
     = (if (v0 <=? pb_maximum p) || (pb_maximum p =? 0) then v0
        else pb_value p).
Proof.
  destruct p as [mn mx v vis]. cbn [pb_minimum pb_maximum pb_value].
  intros -> H0 Hv. unfold pb_setValue.
  cbn [pb_minimum pb_maximum pb_value].
  destruct (Z.eqb_spec v0 v) as [->|Hne]; cbn [orb].
  - cbn [pb_minimum pb_maximum pb_value pb_text_visible].
    repeat split; try reflexivity.
    destruct (_ || _); reflexivity.
  - destruct (Z.ltb_spec mx v0), (Z.ltb_spec v0 0), (Z.eqb_spec mx 0),
      (Z.leb_spec v0 mx); try lia;
      cbn [orb andb negb pb_minimum pb_maximum pb_value pb_text_visible];
      repeat split; reflexivity.
Qed.

Lemma pb_setMaximum_spec (m0 : Z) (p : QProgressBar) :
  pb_minimum p = 0 -> -1 <= pb_value p <= m0 -> 0 <= m0 ->
  let p' := pb_setMaximum m0 p in
  pb_maximum p' = m0 /\ pb_value p' = pb_value p
  /\ pb_text_visible p' = pb_text_visible p.
Proof.
  destruct p as [mn mx v vis]. cbn [pb_minimum pb_maximum pb_value].
  intros -> Hv H0. unfold pb_setMaximum.
  cbn [pb_minimum pb_maximum pb_value].
  rewrite Z.min_l by lia. rewrite Z.eqb_refl. cbn [andb].
  destruct (Z.eqb_spec m0 mx) as [->|Hne].
  - repeat split; reflexivity.
  - cbn [pb_minimum pb_maximum pb_value pb_text_visible].
    rewrite Z.max_r by lia.
    destruct (Z.ltb_spec v (0 - 1)), (Z.ltb_spec m0 v); try lia.
    repeat split; reflexivity.
Qed.

(** X27. [set_loading] sets the value before the maximum.  On a bar
    whose minimum is 0 and whose value lies within its range, the call
    always leaves the maximum at [maximum * 100] and the text visible
    exactly when [value] is not 0; but the bar shows [value * 100] only
    when that value fits the maximum the bar had before the call (or the
    bar had the undetermined range): a larger value is dropped by
    [setValue] and the bar keeps its old value.  This is for arguments
    whose hundredfold is a C int, [maximum * 100 <= INT_MAX]; beyond it
    PyQt raises OverflowError and the call is not covered. *)
Theorem set_loading_sets_value_before_maximum value maximum s :
  pb_minimum (loading_bar s) = 0 ->
  -1 <= pb_value (loading_bar s) <= pb_maximum (loading_bar s) ->
  0 <= value <= maximum ->
  maximum * 100 <= INT_MAX ->
  let r := set_loading value maximum s in
  let bar := loading_bar s in
  let bar' := loading_bar (st r) in
  out r = Ret tt
  /\ tr r = [EvProcessEvents]
  /\ pb_maximum bar' = maximum * 100
  /\ pb_text_visible bar' = negb (value =? 0)
  /\ pb_value bar'
     = (if (value * 100 <=? pb_maximum bar) || (pb_maximum bar =? 0)
        then value * 100 else pb_value bar).
Proof.
  intros Hmin Hval Hv _ r bar bar'. subst r bar bar'.
  unfold set_loading, loading_bar_update, mbind, M_bind. mrun.
  rewrite !loading_bar_upd_loading_bar.
  split; [reflexivity|]. split; [reflexivity|].
  destruct (pb_setValue_spec (value * 100) (loading_bar s))
    as (Hmin1 & Hmax1 & _ & Hv1); [exact Hmin | lia | lia |].
  destruct (pb_setMaximum_spec (maximum * 100)
              (pb_setValue (value * 100) (loading_bar s)))
    as (Hmax2 & Hv2 & _); [exact Hmin1 | | lia |].
  { rewrite Hv1.
    destruct (Z.leb_spec (value * 100) (pb_maximum (loading_bar s)));
      destruct (Z.eqb_spec (pb_maximum (loading_bar s)) 0);
      cbn [orb]; lia. }
  cbn [pb_setTextVisible pb_maximum pb_value pb_text_visible].
  rewrite Hmax2, Hv2, Hv1. repeat split; reflexivity.
Qed.
End Sequences.

(** ** The theorems at concrete inputs *)

(** C1, at the failing input: a line of 101 characters is stored as its
    first 100 characters followed by an entry of two characters, the first
    of which repeats the last character of the previous entry; the entries
    put together are not the line. *)
Theorem log_wrap_repeats_a_character :
  let r := log line101 "newline" (ui_built (E:=sample_env)) in
  out r = Ret tt
  /\ logs (st r)
     = ["0123456789012345678901234567890123456789012345678901234567890123456789012345678901234567890123456789";
        "9X"]
  /\ String.length (String.concat "" (logs (st r))) = 102%nat
  /\ String.concat "" (logs (st r)) <> line101.
Proof.
  vm_compute. repeat split; try reflexivity. discriminate.
Qed.

(** C2 on a buffer of five lines and a short line. *)
Lemma log_keeps_five_lines_witness :
  (length (logs (st (log "f" "newline" five_lines))) <= 5)%nat
  /\ logs (st (log "f" "newline" five_lines)) = ["b"; "c"; "d"; "e"; "f"].
Proof.
  assert (Hb : (length (logs five_lines) <= 5)%nat) by (simpl; lia).
  destruct (log_keeps_five_lines five_lines "f" "newline" Hb) as [H1 H2].
  split; [exact H1|].
  apply H2; [reflexivity | simpl; lia | reflexivity].
Defined.

(** C3 on a buffer of five lines. *)
Lemma log_append_overwrite_last_witness :
  exists pre x,
    logs five_lines = pre ++ [x]
    /\ logs (st (log "!" "append" five_lines)) = pre ++ [x +:+ "!"]
    /\ logs (st (log "!" "overwrite" five_lines)) = pre ++ ["!"].
Proof.
  assert (Hne : logs five_lines <> []) by discriminate.
  destruct (log_append_overwrite_last five_lines "!" Hne)
    as (pre & x & Hl & _ & Ha & _ & _ & Ho & _).
  exists pre, x. repeat split; assumption.
Defined.

(** C4 on a history that already holds twenty utterances. *)
Lemma register_utterance_bounded_history_witness :
  let u := sample_utterance "new" "s" in
  let h' := cb_items (combos (st (register_utterance u full_history))
                             utterance_history) in
  (length h' <= 20)%nat
  /\ h' = (name u, Some (PyUtterance u)) :: removelast twenty_rows.
Proof.
  intros u h'.
  destruct (register_utterance_bounded_history full_history u)
    as (_ & _ & Hle & _ & Heq).
  split.
  - apply Hle. vm_compute. lia.
  - apply Heq. reflexivity.
Defined.

(** C6 on a session that draws four utterances, resets the interface and
    draws again. *)
Lemma umap_hot_is_one_shot_witness :
  let w := sample_session_world in
  let s1 := st (draw_umap_projections w four_utterances (st (init w))) in
  umap_hot s1 = true
  /\ umap_hot (st (run_op (OpResetInterface w) s1)) = true
  /\ (first_time_notices
        (snd (session w [OpDrawUmapProjections w four_utterances;
                         OpResetInterface w;
                         OpDrawUmapProjections w four_utterances]))
      <= 1)%nat.
Proof.
  intros w s1.
  destruct (umap_hot_is_one_shot (E:=sample_env)) as (_ & Hb & _ & Hd).
  assert (H1 : umap_hot s1 = true) by (vm_compute; reflexivity).
  split; [exact H1|]. split.
  - apply Hb. exact H1.
  - exact (Hd w [OpDrawUmapProjections w four_utterances;
                 OpResetInterface w;
                 OpDrawUmapProjections w four_utterances]).
Defined.

(** C10, at the failing input: with fifteen utterances of fifteen
    different speakers (more than the 14 rows of [colormap]) the call
    raises IndexError before any projection is computed or any point is
    plotted, although the set has at least [min_umap_points] elements. *)
Theorem draw_umap_projections_fifteen_speakers :
  let r := draw_umap_projections (sample_world [] no_files "")
             fifteen_speakers ui_built in
  min_umap_points <= Z.of_nat (length fifteen_speakers)
  /\ out r = Raise IndexError
  /\ projections_computed (tr r) = 0%nat
  /\ ax_scatters (axes (st r) speaker_umap_ax) = []
  /\ ax_scatters (axes (st r) emotion_umap_ax) = [].
Proof. vm_compute. repeat split; try reflexivity. discriminate. Qed.

(** The same call on four utterances of two speakers plots four points on
    each axes and computes two projections. *)
Example draw_umap_projections_four_utterances :
  let r := draw_umap_projections (sample_world [] no_files "")
             four_utterances ui_built in
  out r = Ret tt
  /\ projections_computed (tr r) = 2%nat
  /\ length (ax_scatters (axes (st r) speaker_umap_ax)) = 4%nat
  /\ length (ax_scatters (axes (st r) emotion_umap_ax)) = 4%nat
  /\ umap_hot (st r) = true
  /\ first_time_notices (tr r) = 1%nat.
Proof. vm_compute. repeat split; reflexivity. Qed.





(** C9 on a run with the three mandatory models and no vocoder, and on a
    run that does not exist. *)
Lemma populate_models_raises_iff_witness :
  let w := sample_world [] sample_models "" in
  let r := populate_models w "r1" ["models"] ui_built in
  out r = Ret tt
  /\ cb_items (combos (st r) vocoder_box) = [("Griffin-Lim", None)]
  /\ cb_disabled (combos (st r) vocoder_box) = false
  /\ (exists e, out (populate_models w "r2" ["models"] ui_built) = Raise e).
Proof.
  intros w r.
  destruct (populate_models_raises_iff w "r1" ["models"] ui_built)
    as (Hiff & Hret & Hvoc).
  destruct (populate_models_raises_iff w "r2" ["models"] ui_built)
    as (Hiff2 & _ & _).
  assert (Ho : out r = Ret tt).
  { apply Hret. intros e He.
    destruct (proj1 Hiff (ex_intro _ e He)) as [H|[H|H]]; discriminate H. }
  destruct (Hvoc Ho) as [Hi Hd].
  split; [exact Ho|]. split; [exact Hi|]. split; [exact Hd|].
  apply Hiff2. left. reflexivity.
Defined.

(** ** The further theorems at concrete inputs *)

(** X2 on a buffer of five lines and a misspelt mode. *)
Lemma log_unknown_mode_drops_line_witness :
  out (log "f" "apend" five_lines) = Ret tt
  /\ logs (st (log "f" "apend" five_lines)) = ["a"; "b"; "c"; "d"; "e"].
Proof.
  destruct (log_unknown_mode_drops_line "f" "apend" five_lines)
    as (H1 & H2 & _); [discriminate | discriminate | discriminate |].
  split; [exact H1 | exact H2].
Defined.

(** X3 on a buffer of five short lines and a line of 101 characters. *)
Lemma log_newline_keeps_width_witness :
  Forall (fun x => py_len x <= max_log_width)
         (logs (st (log line101 "newline" five_lines))).
Proof.
  apply (log_newline_keeps_width line101 five_lines).
  repeat constructor; vm_compute; discriminate.
Defined.

(** X6 on a session of three operations. *)
Lemma session_history_bounded_witness :
  cb_count (combos (fst (session sample_session_world sample_ops))
                   utterance_history)
  <= max_saved_utterances.
Proof. apply session_history_bounded. reflexivity. Defined.

(** X17 without a datasets root, at level 0. *)
Lemma populate_browser_without_datasets_witness :
  let r := populate_browser sample_session_world None ["VCTK"] 0 true
             ui_built in
  out r = Ret tt
  /\ chk_disabled (checkboxes (st r) auto_next_checkbox) = true.
Proof.
  intros r.
  destruct (populate_browser_without_datasets sample_session_world None
              ["VCTK"] 0 true ui_built) as (H1 & _ & _ & _ & H5);
    [lia | exact I |].
  split; [exact H1 | exact H5].
Defined.

(** X19 on a run with the three mandatory models and no vocoder. *)
Lemma current_fpaths_after_populate_models_witness :
  let w := sample_world [] sample_models "" in
  let r := populate_models w "r1" ["models"] ui_built in
  out (current_speaker_encoder_fpath (st r))
  = Ret (Some (PyPath (E:=sample_env) ["models"; "r1"; "encoder.pt"]))
  /\ out (current_vocoder_fpath (st r)) = Ret None.
Proof.
  intros w r.
  destruct (current_fpaths_after_populate_models w "r1" ["models"] ui_built)
    as (H1 & _ & _ & H4 & _); [vm_compute; reflexivity|].
  split.
  - refine (eq_trans H1 _). vm_compute. reflexivity.
  - refine (eq_trans H4 _). vm_compute. reflexivity.
Defined.

(** X21 on one utterance. *)
Lemma draw_umap_projections_too_few_points_witness :
  let r := draw_umap_projections sample_session_world
             [sample_utterance "a" "s1"] ui_built in
  out r = Ret tt /\ projections_computed (tr r) = 0%nat.
Proof.
  intros r.
  destruct (draw_umap_projections_too_few_points sample_session_world
              [sample_utterance "a" "s1"] ui_built) as (H1 & H2 & _);
    [reflexivity|].
  split; [exact H1 | exact H2].
Defined.

(** X22 on fifteen utterances of fifteen speakers. *)
Lemma draw_umap_projections_more_speakers_than_colours_witness :
  out (draw_umap_projections sample_session_world fifteen_speakers ui_built)
  = Raise IndexError.
Proof.
  destruct (draw_umap_projections_more_speakers_than_colours
              sample_session_world fifteen_speakers ui_built) as (H1 & _);
    [vm_compute; lia|].
  exact H1.
Defined.

(** X23 on four utterances of two speakers. *)
Lemma draw_umap_projections_plots_every_utterance_witness :
  let r := draw_umap_projections sample_session_world four_utterances
             ui_built in
  out r = Ret tt
  /\ length (ax_scatters (axes (st r) speaker_umap_ax)) = 4%nat
  /\ length (ax_scatters (axes (st r) emotion_umap_ax)) = 4%nat.
Proof.
  intros r.
  destruct (draw_umap_projections_plots_every_utterance sample_session_world
              four_utterances ui_built
              [(0, 2); (1, 2); (2, 2); (3, 2)]
              [(0, 2); (1, 2); (2, 2); (3, 2)])
    as (H1 & _ & _ & _ & H5 & H6);
    [vm_compute; discriminate | vm_compute; lia | reflexivity | reflexivity
    | reflexivity | reflexivity |].
  split; [exact H1|]. split; [exact H5 | exact H6].
Defined.

(** X24 on the same utterances and a reducer that fails. *)
Lemma draw_umap_projections_reducer_failure_witness :
  let r := draw_umap_projections failing_reducer_world four_utterances
             ui_built in
  out r = Raise (Exception "reducer failed")
  /\ umap_hot (st r) = true.
Proof.
  intros r.
  destruct (draw_umap_projections_reducer_failure failing_reducer_world
              four_utterances ui_built (Exception "reducer failed"))
    as (H1 & H2 & _);
    [vm_compute; discriminate | vm_compute; lia | reflexivity |].
  split; [exact H1 | exact H2].
Defined.

(** X10 on a recording of one second: with a bar that converts the
    floats the recording is returned and the button put back; with a bar
    that refuses them the TypeError propagates and the button stays
    disabled. *)
Lemma record_one_leaves_button_disabled_on_failure_witness :
  let r := record_one sample_session_world 16000 1 ui_built in
  let r' := record_one strict_bar_world 16000 1 ui_built in
  (out r = Ret (Some [])
   /\ buttons (st r) record_button
      = {| btn_text := "Record"; btn_disabled := false |})
  /\ (out r' = Raise TypeError
      /\ buttons (st r') record_button
         = {| btn_text := "Recording..."; btn_disabled := true |}).
Proof.
  intros r r'.
  destruct (record_one_leaves_button_disabled_on_failure
              sample_session_world 16000 1 ui_built)
    as (_ & _ & _ & _ & H1); [vm_compute; split; discriminate|].
  destruct (record_one_leaves_button_disabled_on_failure
              strict_bar_world 16000 1 ui_built)
    as (_ & _ & H2 & _); [vm_compute; split; discriminate|].
  split.
  - apply (H1 eq_refl [] eq_refl); reflexivity.
  - apply (H2 eq_refl [] eq_refl). reflexivity.
Defined.

(** X25 on a buffer of five lines and two more lines. *)
Lemma log_shows_most_recent_lines_witness :
  logs (st (for_each ["f"; "g"] (fun l => log l "newline") five_lines))
  = ["c"; "d"; "e"; "f"; "g"].
Proof.
  destruct (log_shows_most_recent_lines ["f"; "g"] five_lines)
    as (_ & H & _);
    [repeat constructor; vm_compute; discriminate | simpl; lia |].
  exact H.
Defined.

(** X26 on a history of nineteen utterances and two more. *)
Lemma history_holds_most_recent_witness :
  let us := [sample_utterance "a" "s1"; sample_utterance "b" "s1"] in
  let r := for_each us register_utterance long_history in
  cb_items (combos (st r) utterance_history)
  = history_row (sample_utterance "b" "s1")
    :: history_row (sample_utterance "a" "s1") :: take 18 nineteen_rows
  /\ out (selected_utterance (st r))
     = Ret (Some (PyUtterance (sample_utterance "b" "s1"))).
Proof.
  intros us r.
  destruct (history_holds_most_recent us long_history) as (_ & H1 & H2);
    [vm_compute; lia|].
  split; [|exact H2].
  refine (eq_trans H1 _). vm_compute. reflexivity.
Defined.

(** X27 on the bar of a new object: 5 out of 10 does not fit the maximum
    of 100 the bar starts with, and the bar stays where it was. *)
Lemma set_loading_sets_value_before_maximum_witness :
  let bar' := loading_bar (st (set_loading 5 10 (ui_built (E:=sample_env)))) in
  pb_maximum bar' = 1000 /\ pb_value bar' = -1.
Proof.
  intros bar'.
  destruct (set_loading_sets_value_before_maximum 5 10
              (ui_built (E:=sample_env)))
    as (_ & _ & H1 & _ & H2);
    [reflexivity | simpl; lia | lia | vm_compute; discriminate |].
  split; [exact H1 | exact H2].
Defined.
